(** * Multi-Model-Conversation-Export: media resolution, naming and token cache

    A shallow embedding of the JavaScript sources of the extension
    (modules/file-utils.js, modules/media-downloader.js with the URL
    generator, the media fetcher, mediaExtractor.js, the ChatGPT handler,
    the content script, the background script, modules/conversation.js
    and modules/auth.js), followed by the properties established about
    them.

    Conventions of the embedding.
    - A JavaScript string is a [string]: a sequence of code units, here
      restricted to the Latin-1 range.  The token cache of auth.js, which
      does arithmetic on code units, uses lists of 16-bit code units.
    - An absent value ([undefined]; [null] where only its truth value is
      read) is [None]; the truth value of an optional string is [truthy].
    - The contents of a [Uint8Array] are a [list N].
    - Network, download and DOM primitives of the host are fields of a
      [World]; every call is recorded in a trace of events, and the answer
      of the host may depend on the whole trace so far. *)

From Stdlib Require Import String Ascii List NArith ZArith Arith Bool Lia.
From Stdlib Require Import DecimalString DecimalNat Decimal FinFun.
Import ListNotations.

Local Open Scope list_scope.
Local Open Scope string_scope.

(* ================================================================== *)
(** ** JavaScript string primitives *)
(* ================================================================== *)

Module Js.

Definition code (c : ascii) : N := N_of_ascii c.

Definition in_range (lo hi : N) (c : ascii) : bool :=
  (N.leb lo (code c)) && (N.leb (code c) hi).

Definition is_digit (c : ascii) : bool := in_range 48 57 c.
Definition is_lower (c : ascii) : bool := in_range 97 122 c.
Definition is_upper (c : ascii) : bool := in_range 65 90 c.
Definition is_alnum (c : ascii) : bool := is_digit c || is_lower c || is_upper c.
(** [[0-9a-f]] *)
Definition is_hex (c : ascii) : bool := is_digit c || in_range 97 102 c.
Definition is_char (x : string) (c : ascii) : bool :=
  match x with String a EmptyString => Ascii.eqb a c | _ => false end.
(** [\s] on Latin-1 code units *)
Definition is_space (c : ascii) : bool :=
  in_range 9 13 c || N.eqb (code c) 32 || N.eqb (code c) 160.

(** [s.startsWith(p)] *)
Fixpoint startsWith (s p : string) : bool :=
  match p, s with
  | EmptyString, _ => true
  | String a p', String b s' => Ascii.eqb a b && startsWith s' p'
  | String _ _, EmptyString => false
  end.

(** [s.includes(p)] *)
Fixpoint includes (s p : string) : bool :=
  startsWith s p
  || match s with
     | EmptyString => false
     | String _ s' => includes s' p
     end.

Fixpoint drop (n : nat) (s : string) : string :=
  match n, s with
  | O, _ => s
  | S n', String _ s' => drop n' s'
  | S _, EmptyString => EmptyString
  end.

Fixpoint take (n : nat) (s : string) : string :=
  match n, s with
  | O, _ => EmptyString
  | S n', String c s' => String c (take n' s')
  | S _, EmptyString => EmptyString
  end.

(** [s.substring(a)] and [s.substring(a, b)] *)
Definition substring_from (s : string) (a : nat) : string := drop a s.
Definition substring (s : string) (a b : nat) : string :=
  take (Nat.max a b - Nat.min a b) (drop (Nat.min a b) s).

(** [s.lastIndexOf(c)] for a one-character pattern; [None] is [-1]. *)
Fixpoint lastIndexOf_from (s : string) (c : ascii) (i : nat) (acc : option nat)
  : option nat :=
  match s with
  | EmptyString => acc
  | String a s' =>
      lastIndexOf_from s' c (S i) (if Ascii.eqb a c then Some i else acc)
  end.
Definition lastIndexOf (s : string) (c : ascii) : option nat :=
  lastIndexOf_from s c 0 None.

(** [s.replace(pat, rep)] with a string pattern: the first occurrence only. *)
Fixpoint replace (s pat rep : string) : string :=
  if startsWith s pat then rep ++ drop (String.length pat) s
  else match s with
       | EmptyString => EmptyString
       | String c s' => String c (replace s' pat rep)
       end.

(** [s.replace(/[class]/g, rep)] for a one-character class. *)
Fixpoint replace_class (cls : ascii -> bool) (rep : string) (s : string) : string :=
  match s with
  | EmptyString => EmptyString
  | String c s' =>
      (if cls c then rep else String c EmptyString) ++ replace_class cls rep s'
  end.

(** [s.split(sep)] for a non-empty separator. [skip] counts the code units
    of a separator still to be passed over, [cur] is the piece being read. *)
Fixpoint split_aux (sep : string) (skip : nat) (cur : string) (s : string)
  : list string :=
  match s with
  | EmptyString => [cur]
  | String c s' =>
      match skip with
      | S k => split_aux sep k cur s'
      | O =>
          if startsWith s sep
          then cur :: split_aux sep (String.length sep - 1) EmptyString s'
          else split_aux sep 0 (cur ++ String c EmptyString) s'
      end
  end.
Definition split (s sep : string) : list string := split_aux sep 0 EmptyString s.

(** [arr.pop()] on a fresh array: its last element. *)
Definition pop (l : list string) : string := last l EmptyString.

(** [s.toLowerCase()] on Latin-1 code units. *)
Definition lower_char (c : ascii) : ascii :=
  if is_upper c || (in_range 192 222 c && negb (N.eqb (code c) 215))
  then ascii_of_N (code c + 32) else c.
Fixpoint toLowerCase (s : string) : string :=
  match s with
  | EmptyString => EmptyString
  | String c s' => String (lower_char c) (toLowerCase s')
  end.

(** Lower case of the letters A-Z only: the folding of the [i] flag
    against an ASCII literal. *)
Fixpoint toLowerCase_ascii (s : string) : string :=
  match s with
  | EmptyString => EmptyString
  | String c s' =>
      String (if is_upper c then ascii_of_N (code c + 32) else c) (toLowerCase_ascii s')
  end.

Fixpoint all_chars (p : ascii -> bool) (s : string) : bool :=
  match s with
  | EmptyString => true
  | String c s' => p c && all_chars p s'
  end.

(** [arr.join(sep)] *)
Fixpoint join (sep : string) (l : list string) : string :=
  match l with
  | [] => EmptyString
  | [x] => x
  | x :: rest => x ++ sep ++ join sep rest
  end.

(** [arr.includes(x)] on an array of strings. *)
Definition arr_includes (l : list string) (x : string) : bool :=
  existsb (String.eqb x) l.

(** Decimal rendering of a non-negative integer, as in [`${n}`]. *)
Definition decimal (n : nat) : string := NilEmpty.string_of_uint (Nat.to_uint n).

(** Truthiness of an optional string: [undefined], [null] and the empty
    string are falsy. *)
Definition truthy (o : option string) : bool :=
  match o with
  | Some s => negb (String.eqb s EmptyString)
  | None => false
  end.

(** [a || b] *)
Definition or_else (a b : option string) : option string :=
  if truthy a then a else b.

(** [o === s] *)
Definition equals (o : option string) (s : string) : bool :=
  match o with Some x => String.eqb x s | None => false end.

(** Rendering inside a template literal. *)
Definition show (o : option string) : string :=
  match o with Some s => s | None => "undefined" end.

(** The replacement
    [s.replace(/([0-9a-f]{8})([0-9a-f]{4})([0-9a-f]{4})([0-9a-f]{4})([0-9a-f]{12})/,
               '$1-$2-$3-$4-$5')]:
    the leftmost run of 32 hexadecimal digits is cut 8-4-4-4-12. *)
Definition hex32 (s : string) : bool :=
  Nat.eqb (String.length (take 32 s)) 32 && all_chars is_hex (take 32 s).
Fixpoint hyphenate (s : string) : string :=
  if hex32 s then
    take 8 s ++ "-" ++ take 4 (drop 8 s) ++ "-" ++ take 4 (drop 12 s) ++ "-"
      ++ take 4 (drop 16 s) ++ "-" ++ take 12 (drop 20 s) ++ drop 32 s
  else match s with
       | EmptyString => EmptyString
       | String c s' => String c (hyphenate s')
       end.

End Js.

(* ================================================================== *)
(** ** ExportConfig (the configuration module) *)
(* ================================================================== *)

Module ExportConfig.

(** The part of [window.ExportConfig] that the media code reads. *)
Record t := { sedimentRegions : option (list string) }.

Definition Config : t :=
  {| sedimentRegions :=
       Some ["westus2"; "westus3"; "centralus"; "eastus"; "eastus2";
             "northcentralus"; "southcentralus"; "northeurope"; "westeurope";
             "australiaeast"; "southeastasia"; "eastasia"; "centralindia"] |}.

Definition fileTypes : list (string * string) :=
  [ ("image/png", "png"); ("image/jpeg", "jpg"); ("image/gif", "gif");
    ("image/webp", "webp"); ("image/bmp", "bmp"); ("image/tiff", "tiff");
    ("image/svg+xml", "svg");
    ("audio/mpeg", "mp3"); ("audio/mp3", "mp3"); ("audio/ogg", "ogg");
    ("audio/wav", "wav"); ("audio/x-wav", "wav"); ("audio/x-m4a", "m4a");
    ("audio/aac", "aac"); ("audio/flac", "flac");
    ("video/mp4", "mp4"); ("video/webm", "webm"); ("video/quicktime", "mov");
    ("video/x-msvideo", "avi"); ("video/x-matroska", "mkv");
    ("application/json", "json"); ("application/pdf", "pdf");
    ("application/zip", "zip"); ("application/x-zip-compressed", "zip");
    ("application/msword", "doc");
    ("application/vnd.openxmlformats-officedocument.wordprocessingml.document", "docx");
    ("application/vnd.ms-excel", "xls");
    ("application/vnd.openxmlformats-officedocument.spreadsheetml.sheet", "xlsx");
    ("application/vnd.ms-powerpoint", "ppt");
    ("application/vnd.openxmlformats-officedocument.presentationml.presentation", "pptx");
    ("text/plain", "txt"); ("text/html", "html"); ("text/css", "css");
    ("text/javascript", "js"); ("text/csv", "csv"); ("text/xml", "xml");
    ("application/xml", "xml"); ("application/javascript", "js") ].

Definition defaultFileTypes : list (string * string) :=
  [ ("image", "jpg"); ("audio", "mp3"); ("video", "mp4"); ("file", "bin");
    ("canvas", "json") ].

(** Property names every object literal inherits from [Object.prototype];
    [table[key]] is truthy for them although the table has no such row. *)
Definition inherited : list string :=
  [ "constructor"; "hasOwnProperty"; "isPrototypeOf"; "propertyIsEnumerable";
    "toLocaleString"; "toString"; "valueOf"; "__proto__";
    "__defineGetter__"; "__defineSetter__"; "__lookupGetter__";
    "__lookupSetter__" ].

Fixpoint assoc (k : string) (l : list (string * string)) : option string :=
  match l with
  | [] => None
  | (k', v) :: rest => if String.eqb k k' then Some v else assoc k rest
  end.

(** Outcome of reading [table[key]]: a row with its [ext], an inherited
    member (truthy, whose [.ext] is [undefined]), or nothing. *)
Inductive entry := Row (ext : string) | Inherited | Absent.

Definition lookup (table : list (string * string)) (key : option string) : entry :=
  match assoc (Js.show key) table with
  | Some e => Row e
  | None => if Js.arr_includes inherited (Js.show key) then Inherited else Absent
  end.

(** [ExportConfig.domains] *)
Definition domains : list string := ["chat.openai.com"; "chatgpt.com"].

End ExportConfig.

(* ================================================================== *)
(** ** Media references and blobs *)
(* ================================================================== *)

(** [metadata.dalle] of a media reference. *)
Record DalleMeta := {
  prompt : option string;
  gen_id : option string
}.

(** A media reference, with the fields the code reads or writes. *)
Record MediaRef := {
  type : option string;
  assetPointer : option string;
  fileId : option string;
  canvasId : option string;
  customName : option string;
  title : option string;
  filename : option string;
  mime_type : option string;
  format : option string;
  renderedUrl : option string;
  download_url : option string;
  messageId : option string;
  dalle : option DalleMeta
}.

Definition set_renderedUrl (r : MediaRef) (u : option string) : MediaRef :=
  {| type := type r; assetPointer := assetPointer r; fileId := fileId r;
     canvasId := canvasId r; customName := customName r; title := title r;
     filename := filename r; mime_type := mime_type r; format := format r;
     renderedUrl := u; download_url := download_url r;
     messageId := messageId r; dalle := dalle r |}.

Definition set_customName (r : MediaRef) (n : option string) : MediaRef :=
  {| type := type r; assetPointer := assetPointer r; fileId := fileId r;
     canvasId := canvasId r; customName := n; title := title r;
     filename := filename r; mime_type := mime_type r; format := format r;
     renderedUrl := renderedUrl r; download_url := download_url r;
     messageId := messageId r; dalle := dalle r |}.

(** A [Blob]: its [type] (the empty string when none was given) and bytes. *)
Record Blob := {
  blob_type : string;
  blob_bytes : list N
}.

(** [new Blob([bytes], { type })]: the type is kept in lower case, and
    dropped when it has a code unit outside U+0020..U+007E. *)
Definition newBlob (bytes : list N) (ty : string) : Blob :=
  {| blob_type := if Js.all_chars (Js.in_range 32 126) ty
                  then Js.toLowerCase_ascii ty else EmptyString;
     blob_bytes := bytes |}.

(* ================================================================== *)
(** ** FileUtils (modules/file-utils.js) *)
(* ================================================================== *)

Module FileUtils.
Import Js.

(** [bytes[i] === v]; reading past the end gives [undefined]. *)
Definition at_is (bytes : list N) (i : nat) (v : N) : bool :=
  match nth_error bytes i with
  | Some b => N.eqb b v
  | None => false
  end.

Definition is_ws_byte (b : N) : bool :=
  N.eqb b 32 || N.eqb b 9 || N.eqb b 10 || N.eqb b 13.

(** [bytes.findIndex(b => not whitespace)], then the byte found there. *)
Fixpoint firstNonWhitespace (bytes : list N) : option N :=
  match bytes with
  | [] => None
  | b :: rest => if is_ws_byte b then firstNonWhitespace rest else Some b
  end.

Definition detectFileTypeFromBytes (bytes : list N) : option string :=
  if Nat.ltb (List.length bytes) 4 then None
  else if at_is bytes 0 255 && at_is bytes 1 216 && at_is bytes 2 255
    then Some "image/jpeg"
  else if at_is bytes 0 137 && at_is bytes 1 80 && at_is bytes 2 78 && at_is bytes 3 71
    then Some "image/png"
  else if at_is bytes 0 71 && at_is bytes 1 73 && at_is bytes 2 70 && at_is bytes 3 56
    then Some "image/gif"
  else if at_is bytes 0 82 && at_is bytes 1 73 && at_is bytes 2 70 && at_is bytes 3 70
          && Nat.leb 12 (List.length bytes)
          && at_is bytes 8 87 && at_is bytes 9 69 && at_is bytes 10 66 && at_is bytes 11 80
    then Some "image/webp"
  else if at_is bytes 0 37 && at_is bytes 1 80 && at_is bytes 2 68 && at_is bytes 3 70
    then Some "application/pdf"
  else if (at_is bytes 0 73 && at_is bytes 1 68 && at_is bytes 2 51)
          || (at_is bytes 0 255
              && (at_is bytes 1 251 || at_is bytes 1 243 || at_is bytes 1 242))
    then Some "audio/mpeg"
  else if Nat.leb 8 (List.length bytes)
          && at_is bytes 4 102 && at_is bytes 5 116 && at_is bytes 6 121 && at_is bytes 7 112
    then Some "video/mp4"
  else if at_is bytes 0 26 && at_is bytes 1 69 && at_is bytes 2 223 && at_is bytes 3 163
    then Some "video/webm"
  else if at_is bytes 0 80 && at_is bytes 1 75 && at_is bytes 2 3 && at_is bytes 3 4
    then Some "application/zip"
  else match firstNonWhitespace bytes with
       | Some b => if N.eqb b 123 || N.eqb b 91 then Some "application/json" else None
       | None => None
       end.

(** The match of [/[\.\/]([A-Za-z0-9-]+)$/i]: the group after the last
    [.] or [/], when it is non-empty and made of letters, digits and
    hyphens only. *)
Fixpoint mimeTail (s : string) : option string :=
  match s with
  | EmptyString => None
  | String c s' =>
      if (is_char "." c || is_char "/" c)
         && negb (String.eqb s' EmptyString)
         && all_chars (fun x => is_alnum x || is_char "-" x) s'
      then Some s'
      else mimeTail s'
  end.

(** [getFileExtension(mimeType, fallbackType = 'bin')]; [None] is the
    [undefined] read from an inherited member of the table. *)
Definition getFileExtension (mimeType : option string) (fallbackType : string)
  : option string :=
  match ExportConfig.lookup ExportConfig.fileTypes mimeType with
  | ExportConfig.Row e => Some e
  | ExportConfig.Inherited => None
  | ExportConfig.Absent =>
      match mimeType with
      | Some m =>
          match mimeTail m with
          | Some g =>
              if Nat.ltb 1 (String.length g) && Nat.ltb (String.length g) 10
              then Some (toLowerCase g) else Some fallbackType
          | None => Some fallbackType
          end
      | None => Some fallbackType
      end
  end.

Definition short_ext (s : string) : bool :=
  Nat.ltb 0 (String.length s) && Nat.ltb (String.length s) 5.

Definition getAppropriateFileExtension
    (mediaType mimeType filename format : option string) : option string :=
  if truthy format && short_ext (show format)
  then Some (toLowerCase (show format))
  else
    let origExt := toLowerCase (pop (split (show filename) ".")) in
    if truthy filename && includes (show filename) "." && short_ext origExt
    then Some origExt
    else if equals mediaType "image" then
      if truthy mimeType
         && (includes (show mimeType) "jpeg" || includes (show mimeType) "jpg")
      then Some "jpg"
      else Some "png"
    else if truthy mimeType
            && negb (equals mimeType "application/octet-stream")
            && negb (equals mimeType "application/json")
    then getFileExtension mimeType "bin"
    else
      match ExportConfig.lookup ExportConfig.defaultFileTypes mediaType with
      | ExportConfig.Row e => Some e
      | ExportConfig.Inherited => None
      | ExportConfig.Absent => Some "bin"
      end.

(** The class [[^a-zA-Z0-9_\-]]. *)
Definition unsafe_char (c : ascii) : bool :=
  negb (is_alnum c || is_char "_" c || is_char "-" c).

(** [name] without its extension:
    [name.includes('.') ? name.substring(0, name.lastIndexOf('.')) : name]. *)
Definition stripExtension (name : string) : string :=
  if includes name "." then
    match lastIndexOf name "."%char with
    | Some i => substring name 0 i
    | None => name
    end
  else name.

(** [id.includes('://') ? id.split('://').pop() : id] *)
Definition stripProtocol (id : string) : string :=
  if includes id "://" then pop (split id "://") else id.

Definition createSuitableFilename (mediaRef : MediaRef) (contentType : option string)
  : string :=
  if truthy (assetPointer mediaRef) && includes (show (assetPointer mediaRef)) "sediment://"
  then
    (* Special case for sediment images - always use PNG extension *)
    let fileId := if truthy (fileId mediaRef) then show (fileId mediaRef)
                  else replace (show (assetPointer mediaRef)) "sediment://" EmptyString in
    let baseName := if truthy (customName mediaRef) then show (customName mediaRef)
                    else "dalle_" ++ pop (split fileId "/") in
    let baseName := if Nat.ltb 200 (String.length baseName)
                    then substring baseName 0 200 else baseName in
    baseName ++ ".png"
  else
    let ext := getAppropriateFileExtension (type mediaRef)
                 (or_else contentType (mime_type mediaRef))
                 (filename mediaRef) (format mediaRef) in
    if equals ext "png" then
      let fileId :=
        show (or_else (fileId mediaRef)
                (or_else (assetPointer mediaRef)
                   (or_else (canvasId mediaRef) (Some "unknown")))) in
      let cleanId := stripProtocol fileId in
      let originalFilename :=
        if truthy (filename mediaRef) then stripExtension (show (filename mediaRef))
        else if truthy (customName mediaRef) then show (customName mediaRef)
        else if truthy (title mediaRef)
             then toLowerCase (replace_class unsafe_char "_" (show (title mediaRef)))
        else "image" in
      let safeOriginalFilename := replace_class unsafe_char "_" originalFilename in
      let fileIdWithPrefix :=
        if startsWith cleanId "file-" || startsWith cleanId "file_"
        then cleanId else "file-" ++ cleanId in
      fileIdWithPrefix ++ "-" ++ safeOriginalFilename ++ "." ++ show ext
    else
      let c1 := if truthy (title mediaRef)
                then [toLowerCase (replace_class unsafe_char "_" (show (title mediaRef)))]
                else [] in
      let c2 := if truthy (customName mediaRef) then [show (customName mediaRef)]
                else if truthy (filename mediaRef)
                     then [stripExtension (show (filename mediaRef))]
                else [] in
      let baseNameComponents := List.app c1 c2 in
      let baseNameComponents :=
        match baseNameComponents with
        | [] =>
            let fileId :=
              show (or_else (fileId mediaRef)
                      (or_else (assetPointer mediaRef)
                         (or_else (canvasId mediaRef) (Some "file")))) in
            [show (type mediaRef) ++ "_" ++ stripProtocol fileId]
        | _ => baseNameComponents
        end in
      let baseName := join "_" baseNameComponents in
      let safeBaseName := if Nat.ltb 50 (String.length baseName)
                          then substring baseName 0 50 else baseName in
      safeBaseName ++ "." ++ show ext.

(** Printable ASCII (32-126) and tab, line feed, carriage return. *)
Definition is_text_byte (b : N) : bool :=
  (N.leb 32 b && N.leb b 126) || N.eqb b 9 || N.eqb b 10 || N.eqb b 13.

(** [isBinaryBlob(blob)].  The final test [textChars / (textChars +
    binaryChars) < 0.9] is over at most 32 bytes: no quotient of such
    counts rounds across the double nearest to 0.9, and [0 / 0] is [NaN],
    for which the comparison is false; so it is [10 * text < 9 * total]. *)
Definition isBinaryBlob (blob : Blob) : bool :=
  let ty := blob_type blob in
  if includes ty "image/" || includes ty "audio/" || includes ty "video/"
     || includes ty "application/pdf"
  then true
  else
    let bytes := firstn 32 (blob_bytes blob) in
    if at_is bytes 0 255 && at_is bytes 1 216 && at_is bytes 2 255 then true
    else if at_is bytes 0 137 && at_is bytes 1 80 && at_is bytes 2 78 && at_is bytes 3 71
      then true
    else if at_is bytes 0 71 && at_is bytes 1 73 && at_is bytes 2 70 && at_is bytes 3 56
      then true
    else if at_is bytes 0 123 then false
    else if at_is bytes 0 91 then false
    else
      let textChars := List.length (filter is_text_byte bytes) in
      let binaryChars := List.length (filter (fun b => negb (is_text_byte b)) bytes) in
      Nat.ltb (10 * textChars) (9 * (textChars + binaryChars)).

(** [fixFileExtension(filename, detectedType)] *)
Definition fixFileExtension (filename detectedType : option string) : option string :=
  if negb (truthy filename) || negb (truthy detectedType) then filename
  else
    let baseName := stripExtension (show filename) in
    let ext := getFileExtension detectedType "bin" in
    Some (baseName ++ "." ++ show ext).

End FileUtils.

(* ================================================================== *)
(** ** MediaUrlGenerator (the URL generator of modules/media-downloader.js) *)
(* ================================================================== *)

Module MediaUrlGenerator.
Import Js.

(** The fallback region list written in [generateAlternativeUrls]. *)
Definition defaultRegions : list string :=
  ["westus2"; "centralus"; "westus3"; "eastus2"; "eastus"; "northcentralus";
   "southcentralus"; "northeurope"; "westeurope"; "australiaeast";
   "southeastasia"; "eastasia"].

(** [window.ExportConfig && window.ExportConfig.sedimentRegions ? ... : [...]];
    an array, even an empty one, is truthy. *)
Definition regionsOf (cfg : option ExportConfig.t) : list string :=
  match cfg with
  | Some c =>
      match ExportConfig.sedimentRegions c with
      | Some rs => rs
      | None => defaultRegions
      end
  | None => defaultRegions
  end.

(** [`https://sdmntpr${region}.oaiusercontent.com/files/${uuid}/raw`] *)
Definition sedimentUrl (uuid region : string) : string :=
  "https://sdmntpr" ++ region ++ ".oaiusercontent.com/files/" ++ uuid ++ "/raw".

(** [id.split(sep)[1]], read only where [id.includes(sep)] holds. *)
Definition afterProtocol (id sep : string) : string :=
  nth 1 (split id sep) EmptyString.

Definition isDalleImageNew (fileId : string) : bool :=
  includes fileId "sediment://file_" || startsWith fileId "file_".
Definition isDalleImageOld (fileId : string) : bool :=
  includes fileId "sediment://" && negb (includes fileId "sediment://file_").
Definition isUserUpload (fileId : string) : bool :=
  includes fileId "file-service://" || includes fileId "file-".

Definition generateAlternativeUrls (cfg : option ExportConfig.t)
    (fileId domain : string) : list string :=
  let baseUrl := "https://" ++ domain in
  if isDalleImageNew fileId then
    let cleanId := if includes fileId "sediment://"
                   then afterProtocol fileId "sediment://" else fileId in
    let hasFilePrefix := startsWith cleanId "file_" in
    let withoutFilePrefix := if hasFilePrefix then substring_from cleanId 5 else cleanId in
    let withFilePrefix := if hasFilePrefix then cleanId else "file_" ++ cleanId in
    let fileUuid := if includes withoutFilePrefix "-" then withoutFilePrefix
                    else hyphenate withoutFilePrefix in
    List.app (map (sedimentUrl fileUuid) (regionsOf cfg))
     (List.app
        [ baseUrl ++ "/backend-api/sediment/content/" ++ withFilePrefix;
          baseUrl ++ "/backend-api/sediment/content/" ++ withoutFilePrefix;
          baseUrl ++ "/backend-api/sediment/files/" ++ withFilePrefix;
          baseUrl ++ "/backend-api/sediment/files/" ++ withoutFilePrefix ]
        [ "https://files.oaiusercontent.com/file/" ++ fileUuid;
          "https://files.oaiusercontent.com/file/" ++ withFilePrefix ])
  else if isDalleImageOld fileId then
    let cleanId := if includes fileId "sediment://"
                   then afterProtocol fileId "sediment://" else fileId in
    [ baseUrl ++ "/backend-api/sediment/content/" ++ cleanId;
      baseUrl ++ "/backend-api/sediment/files/" ++ cleanId;
      "https://files.oaiusercontent.com/file/" ++ cleanId;
      "https://cdn.oaistatic.com/images/" ++ cleanId ++ ".png";
      baseUrl ++ "/backend-api/images/generations/" ++ cleanId;
      baseUrl ++ "/backend-api/images/" ++ cleanId ++ "/content" ]
  else if isUserUpload fileId then
    let cleanId := if includes fileId "file-service://"
                   then afterProtocol fileId "file-service://" else fileId in
    [ baseUrl ++ "/backend-api/files/content/" ++ cleanId ++ "?format=binary";
      baseUrl ++ "/backend-api/files/download/content/" ++ cleanId;
      "https://files.oaiusercontent.com/file/" ++ cleanId;
      "https://files.oaiusercontent.com/file-" ++ cleanId ]
  else
    let cleanId := if includes fileId "://"
                   then afterProtocol fileId "://" else fileId in
    [ baseUrl ++ "/backend-api/files/content/" ++ cleanId ++ "?format=binary";
      "https://files.oaiusercontent.com/file/" ++ cleanId ].

End MediaUrlGenerator.

(* ================================================================== *)
(** ** The host: events, traces and the effect monad *)
(* ================================================================== *)

(** The conversation payload as the media code sees it: its
    [JSON.stringify] text and the folder name that
    [ConversationManager.createConversationFolderName] derives from it. *)
Record Conversation := {
  conv_json : string;
  conv_folder : string
}.

(** The result object of a download or of a fetch. *)
Record Result := {
  success : bool;
  res_fileId : option string;
  res_type : option string;
  contentType : option string;
  method : option string;
  res_renderedUrl : option string;
  res_blob : option Blob;
  res_filename : option string;
  originalName : option string;
  error : option string
}.

Module Host.

(** One call into the host, or one call of the URL generator. *)
Inductive event :=
| DirectDownload (url path : string)
    (* chrome.runtime.sendMessage({action: 'directDownload', ...}) *)
| ChromeDownload (url path : string)
    (* chrome.downloads.download({...}) *)
| BgDownloadMedia (fileId : string) (urls : list string) (token path : string)
    (* chrome.runtime.sendMessage({action: 'downloadMedia', ...}) *)
| BgFetchMedia (url token : string)
    (* chrome.runtime.sendMessage({action: 'fetchMedia', ...}) *)
| Fetch (url : string) (authorized : bool)
    (* fetch(url, ...) with or without the Authorization header *)
| FetchMetadata (fileId domain token : string)
    (* the info-endpoint requests of MediaFetcher.fetchMetadataForUrls *)
| GenerateAlternativeUrls (fileId domain : string)
    (* a call of MediaUrlGenerator.generateAlternativeUrls *)
| SaveBlob (b : Blob) (path : string)
    (* FileUtils.downloadBlobToPath(blob, path) *)
| Progress (message : string)
    (* progressCallback(message) *)
| Delay (ms : nat)
    (* await new Promise(resolve => setTimeout(resolve, ms)) *)
| FetchBlobBase64 (url : string)
    (* chrome.runtime.sendMessage({action: 'fetchBlobBase64', url}) *)
| ConsoleWarn (message : string)
| ConsoleError (message : string)
| ZipFile (name : string).
    (* mediaFolder.file(name, blob) *)

Definition trace := list event.

(** The answer to a [fetchMedia] message. *)
Inductive bg_response :=
| BgReject (msg : string)              (* the message fails, or has no usable answer *)
| BgData (mime : string) (bytes : list N)  (* success, with the decoded data URL *)
| BgError (err : string)               (* {success: false, error} *)
| BgNothing.                           (* {success: false} *)

(** The answer to a [fetch]. *)
Inductive fetch_response :=
| FetchReject (msg : string)
| FetchResp (status : nat) (contentTypeHeader : option string) (bytes : list N).

(** The host.  Every answer may depend on the trace of the calls made so
    far.  [jsonRedirect] is [FileUtils.tryParseJson] followed by
    [MediaUrlGenerator.parseJsonForFileUrl] on the parsed value; [metadata]
    is the list that the info-endpoint requests of [fetchMetadataForUrls]
    produce; [media_extractor] tells whether [window.MediaExtractor] is
    loaded, [page_images] are the [src] of the [img] elements of the page,
    [decodeURIComponent] is the builtin, [None] when it throws, and
    [blobDownload] is [chrome.downloads.download] on the object URL of a
    blob, answering with the message of [chrome.runtime.lastError] if
    there is one. *)
Record World := {
  chrome_runtime : bool;
  chrome_downloads : bool;
  hostname : string;
  config : ExportConfig.t;
  directDownload : trace -> string -> string -> bool;
  chromeDownload : trace -> string -> string -> bool;
  bgDownloadMedia : trace -> string -> list string -> string -> string -> bool;
  bgFetchMedia : trace -> string -> string -> bg_response;
  fetch : trace -> string -> bool -> fetch_response;
  metadata : trace -> string -> string -> string -> list string;
  jsonRedirect : list N -> option string;
  media_extractor : bool;
  page_images : list string;
  decodeURIComponent : string -> option string;
  blobDownload : trace -> Blob -> string -> option string
}.

(** A computation ends with a value, with a thrown [Error(msg)], or runs
    out of the fuel given to its unbounded loop. *)
Inductive outcome (A : Type) :=
| Ret (a : A)
| Raise (msg : string)
| OutOfFuel.
Arguments Ret {A} a.
Arguments Raise {A} msg.
Arguments OutOfFuel {A}.

Definition M (A : Type) : Type := trace -> outcome A * trace.

Definition ret {A} (a : A) : M A := fun tr => (Ret a, tr).
Definition raise {A} (msg : string) : M A := fun tr => (Raise msg, tr).
Definition diverge {A} : M A := fun tr => (OutOfFuel, tr).

Definition bind {A B} (m : M A) (k : A -> M B) : M B :=
  fun tr =>
    match m tr with
    | (Ret a, tr') => k a tr'
    | (Raise msg, tr') => (Raise msg, tr')
    | (OutOfFuel, tr') => (OutOfFuel, tr')
    end.

(** [try { m } catch (e) { handler(e.message) }] *)
Definition try_catch {A} (m : M A) (handler : string -> M A) : M A :=
  fun tr =>
    match m tr with
    | (Raise msg, tr') => handler msg tr'
    | other => other
    end.

(** Ask the host: the answer is computed from the trace so far, and the
    call is appended to the trace. *)
Definition ask {A} (answer : trace -> A) (e : event) : M A :=
  fun tr => (Ret (answer tr), List.app tr [e]).

Definition emit (e : event) : M unit :=
  fun tr => (Ret tt, List.app tr [e]).

End Host.

Declare Scope js_scope.
Notation "x <- m ;; k" := (Host.bind m (fun x => k))
  (at level 61, m at next level, right associativity) : js_scope.
Notation "m ;;; k" := (Host.bind m (fun _ => k))
  (at level 61, right associativity) : js_scope.

(* ================================================================== *)
(** ** MediaFetcher (the fetch strategies) *)
(* ================================================================== *)

Module MediaFetcher.
Import Js Host.
Local Open Scope js_scope.

(** What a fetch strategy hands back: [null], [{ redirectUrl }], or a
    result object with [success: true]. *)
Inductive Fetched :=
| Null
| RedirectTo (url : string)
| Downloaded (r : Result).

(** [response.ok] *)
Definition ok (status : nat) : bool := Nat.leb 200 status && Nat.leb status 299.

Definition fetched (fileId : string) (mediaRef : MediaRef) (ct : string)
    (bytes : list N) (how : string) : Result :=
  {| success := true;
     res_fileId := Some fileId;
     res_type := type mediaRef;
     contentType := Some ct;
     method := Some how;
     res_renderedUrl := None;
     res_blob := Some (newBlob bytes ct);
     res_filename := None;
     originalName := or_else (filename mediaRef) (or_else (customName mediaRef) None);
     error := None |}.

Section WithWorld.
Variable w : World.

(** The non-binary branch shared by the two fetchers: look for a
    redirect URL in the JSON body. *)
Definition redirectOrNull (bytes : list N) : Fetched :=
  match jsonRedirect w bytes with
  | Some u => if truthy (Some u) then RedirectTo u else Null
  | None => Null
  end.

Definition downloadViaBackgroundScript (fileId : string) (urlsToTry : list string)
    (token : string) (mediaRef : MediaRef) : M (option Result) :=
  if negb (chrome_runtime w) then ret None
  else
    let filename := FileUtils.createSuitableFilename mediaRef None in
    answer <- ask (fun tr => bgDownloadMedia w tr fileId urlsToTry token filename)
                  (BgDownloadMedia fileId urlsToTry token filename) ;;
    if (answer : bool) then
      ret (Some {| success := true;
                   res_fileId := Some fileId;
                   res_type := type mediaRef;
                   contentType := None;
                   method := Some "background_direct";
                   res_renderedUrl := None;
                   res_blob := None;
                   res_filename := Some filename;
                   originalName := None;
                   error := None |})
    else ret None.

Definition fetchMetadataForUrls (fileId domain token : string) : M (list string) :=
  if includes fileId "sediment://" || includes fileId "file_" || includes fileId "file-"
  then ask (fun tr => metadata w tr fileId domain token)
           (FetchMetadata fileId domain token)
  else ret [].

(** The check of [fetchViaBackgroundScript] on a fetched body: the blob
    carries the claimed type [mimeType]; a binary body is typed by its
    first 12 bytes, or keeps the claimed type when they say nothing. *)
Definition checkBackground (mimeType : string) (bytes : list N) (fileId : string)
    (mediaRef : MediaRef) : Fetched :=
  let blob := newBlob bytes mimeType in
  if negb (FileUtils.isBinaryBlob blob) then redirectOrNull bytes
  else
    match FileUtils.detectFileTypeFromBytes (firstn 12 bytes) with
    | Some detectedType =>
        Downloaded (fetched fileId mediaRef detectedType bytes "background_fetch")
    | None =>
        Downloaded (fetched fileId mediaRef mimeType bytes "background_fetch")
    end.

(** The check of [fetchDirectly] on a fetched body: the blob tested has
    no type; the header is the fallback of the byte signature, and the
    media type the fallback of both. *)
Definition checkDirect (contentTypeHeader : option string) (bytes : list N)
    (fileId : string) (mediaRef : MediaRef) : Fetched :=
  let tempBlob := newBlob bytes EmptyString in
  if negb (FileUtils.isBinaryBlob tempBlob) then redirectOrNull bytes
  else
    let detectedType := FileUtils.detectFileTypeFromBytes (firstn 12 bytes) in
    let contentType := or_else detectedType contentTypeHeader in
    let contentType :=
      if negb (truthy contentType)
         || equals contentType "application/octet-stream"
         || equals contentType "application/json"
      then if equals (type mediaRef) "image" then "image/jpeg"
           else if equals (type mediaRef) "audio" then "audio/mpeg"
           else if equals (type mediaRef) "video" then "video/mp4"
           else "application/octet-stream"
      else show contentType in
    Downloaded (fetched fileId mediaRef contentType bytes "direct_fetch").

Definition fetchViaBackgroundScript (url token fileId : string) (mediaRef : MediaRef)
  : M Fetched :=
  if negb (chrome_runtime w) then ret Null
  else
    backgroundResponse <- ask (fun tr => bgFetchMedia w tr url token)
                              (BgFetchMedia url token) ;;
    match backgroundResponse with
    | BgData mimeType bytes => ret (checkBackground mimeType bytes fileId mediaRef)
    | BgError err =>
        raise ("Error with background fetch for " ++ url ++ ": "
               ++ "Background fetch failed: " ++ err)
    | BgReject msg =>
        raise ("Error with background fetch for " ++ url ++ ": " ++ msg)
    | BgNothing => ret Null
    end.

Definition isPublicCdn (url : string) : bool :=
  includes url "cdn.oaistatic.com" || includes url "files.oaiusercontent.com".

Definition fetchDirectly (url token fileId : string) (mediaRef : MediaRef)
  : M Fetched :=
  response <- ask (fun tr => fetch w tr url true) (Fetch url true) ;;
  response <-
    match response with
    | FetchResp status _ _ =>
        if Nat.eqb status 401 && isPublicCdn url
        then ask (fun tr => fetch w tr url false) (Fetch url false)
        else ret response
    | FetchReject _ => ret response
    end ;;
  match response with
  | FetchReject msg => raise ("Error with direct fetch for " ++ url ++ ": " ++ msg)
  | FetchResp status contentTypeHeader bytes =>
      if ok status then ret (checkDirect contentTypeHeader bytes fileId mediaRef)
      else
        raise ("Error with direct fetch for " ++ url ++ ": "
               ++ "Direct fetch failed with status " ++ decimal status)
  end.

Definition fetchFromSignedUrl (url fileId : string) (mediaRef : MediaRef)
  : M (option Result) :=
  response <- ask (fun tr => fetch w tr url false) (Fetch url false) ;;
  match response with
  | FetchResp status contentTypeHeader bytes =>
      if ok status then
        let ct := show (or_else contentTypeHeader (Some "application/octet-stream")) in
        ret (Some (fetched fileId mediaRef ct bytes "signed_url_fetch"))
      else ret None
  | FetchReject _ => ret None
  end.

End WithWorld.

Definition retype (response : Result) (ct : string) : Result :=
  {| success := success response;
     res_fileId := res_fileId response;
     res_type := res_type response;
     contentType := Some ct;
     method := method response;
     res_renderedUrl := res_renderedUrl response;
     res_blob := match res_blob response with
                 | Some b => Some (newBlob (blob_bytes b) ct)
                 | None => None
                 end;
     res_filename := res_filename response;
     originalName := originalName response;
     error := error response |}.

(** [fixContentTypeIssues(response, mediaRef)]: the response, or the
    message of the [TypeError] thrown when a name with a [jpg], [jpeg]
    or [png] extension has [includes] called on an absent content
    type. *)
Definition fixContentTypeIssues (response : Result) (mediaRef : MediaRef)
  : string + Result :=
  match res_blob response with
  | None => inr response
  | Some _ =>
      let filename := FileUtils.createSuitableFilename mediaRef (contentType response) in
      let fileExt := toLowerCase (pop (split filename ".")) in
      match contentType response with
      | None =>
          if String.eqb fileExt "jpg" || String.eqb fileExt "jpeg"
             || String.eqb fileExt "png"
          then inl "Cannot read properties of undefined (reading 'includes')"
          else inr response
      | Some ct =>
          let response :=
            if (String.eqb fileExt "jpg" || String.eqb fileExt "jpeg")
               && (negb (includes ct "jpeg") || includes ct "json")
            then retype response "image/jpeg" else response in
          inr (if String.eqb fileExt "png"
                  && (negb (includes (show (contentType response)) "png")
                      || includes (show (contentType response)) "json")
               then retype response "image/png" else response)
      end
  end.

End MediaFetcher.

(* ================================================================== *)
(** ** The regular expressions of the downloader, as matchers *)
(* ================================================================== *)

Module Pattern.
Import Js.

Definition dquote : ascii := ascii_of_nat 34.
Definition squote : ascii := ascii_of_nat 39.

(** Longest prefix whose code units satisfy [p], and what follows it. *)
Fixpoint span (p : ascii -> bool) (s : string) : string * string :=
  match s with
  | EmptyString => (EmptyString, EmptyString)
  | String c s' =>
      if p c then let (a, b) := span p s' in (String c a, b)
      else (EmptyString, s)
  end.

(** [s] without the literal prefix [lit], if it starts with it. *)
Definition strip (lit s : string) : option string :=
  if startsWith s lit then Some (drop (String.length lit) s) else None.

(** [strip] for a literal matched under the [i] flag; [lit] is in lower
    case. *)
Definition strip_ci (lit s : string) : option string :=
  if String.eqb (toLowerCase_ascii (take (String.length lit) s)) lit
  then Some (drop (String.length lit) s) else None.

(** The scheme [http://] or [https://]. *)
Definition scheme (s : string) : option string :=
  match strip "http" s with
  | Some r =>
      match strip "s://" r with
      | Some r' => Some r'
      | None => strip "://" r
      end
  | None => None
  end.

(** The text up to the first line terminator: what a lookahead can run
    over. *)
Definition firstLine (s : string) : string :=
  fst (span (fun c => negb (N.eqb (code c) 10 || N.eqb (code c) 13)) s).

Definition lower_or_digit (c : ascii) : bool := is_lower c || is_digit c.
Definition hex_or_dash (c : ascii) : bool := is_hex c || is_char "-" c.
(** Any code unit but a quote, white space, a closing brace, parenthesis
    or bracket. *)
Definition url_char (c : ascii) : bool :=
  negb (Ascii.eqb c dquote || Ascii.eqb c squote || is_space c
        || is_char "}" c || is_char ")" c || is_char "]" c).
(** Any code unit but a double or single quote. *)
Definition not_quote (c : ascii) : bool :=
  negb (Ascii.eqb c dquote || Ascii.eqb c squote).

(** A match at the head of [s]: the value kept and the length matched. *)
Definition matched {A} (s rest : string) (a : string -> A) : option (A * nat) :=
  let n := String.length s - String.length rest in
  Some (a (take n s), n).

(** The expression of [findSedimentUrlsInJson], tried at the head of [s]:
    scheme, [sdmntpr], lower-case letters and digits,
    [.oaiusercontent.com/files/], a group of one or more hexadecimal
    digits and hyphens, [/raw?], four negative lookaheads (none of
    [/drvs/icon/], [/thumbnail/], [_thumb.], [_icon.] later on the line),
    then one or more [url_char].  The value is the pair of the group and
    the whole match. *)
Definition sedimentSas (s : string) : option ((string * string) * nat) :=
  match scheme s with
  | Some r1 =>
    match strip "sdmntpr" r1 with
    | Some r2 =>
      match strip ".oaiusercontent.com/files/" (snd (span lower_or_digit r2)) with
      | Some r3 =>
        let (uuid, r4) := span hex_or_dash r3 in
        match strip "/raw?" r4 with
        | Some r5 =>
            let line := firstLine r5 in
            let (tail, r6) := span url_char r5 in
            if negb (String.eqb uuid EmptyString)
               && negb (includes line "/drvs/icon/")
               && negb (includes line "/thumbnail/")
               && negb (includes line "_thumb.")
               && negb (includes line "_icon.")
               && negb (String.eqb tail EmptyString)
            then matched s r6 (fun whole => (uuid, whole))
            else None
        | None => None
        end
      | None => None
      end
    | None => None
    end
  | None => None
  end.

(** The sediment expression of [downloadAllMedia]: scheme, [sdmntpr],
    lower-case letters and digits, [.oaiusercontent.com/files/], one or
    more hexadecimal digits and hyphens, [/raw], then any run of
    [not_quote]. *)
Definition sedimentRaw (s : string) : option (string * nat) :=
  match scheme s with
  | Some r1 =>
    match strip "sdmntpr" r1 with
    | Some r2 =>
      match strip ".oaiusercontent.com/files/" (snd (span lower_or_digit r2)) with
      | Some r3 =>
        let (uuid, r4) := span hex_or_dash r3 in
        match strip "/raw" r4 with
        | Some r5 =>
            if negb (String.eqb uuid EmptyString)
            then matched s (snd (span not_quote r5)) (fun whole => whole)
            else None
        | None => None
        end
      | None => None
      end
    | None => None
    end
  | None => None
  end.

(** [oaiusercontent.com/] or [openaiusercontent.com/] *)
Definition usercontent (s : string) : option string :=
  match strip "oaiusercontent.com/" s with
  | Some r => Some r
  | None => strip "openaiusercontent.com/" s
  end.

(** The file-URL expression of [downloadAllMedia]: scheme, then [files]
    and digits or [sdmntpr] and lower-case letters and digits, a dot,
    [usercontent], then one or more [not_quote]. *)
Definition fileUrl (s : string) : option (string * nat) :=
  match scheme s with
  | Some r1 =>
      let host :=
        match strip "files" r1 with
        | Some r2 => Some (snd (span is_digit r2))
        | None =>
            match strip "sdmntpr" r1 with
            | Some r2 => Some (snd (span lower_or_digit r2))
            | None => None
            end
        end in
      match host with
      | Some r3 =>
          match strip "." r3 with
          | Some r4 =>
              match usercontent r4 with
              | Some r5 =>
                  let (tail, r6) := span not_quote r5 in
                  if negb (String.eqb tail EmptyString)
                  then matched s r6 (fun whole => whole)
                  else None
              | None => None
              end
          | None => None
          end
      | None => None
      end
  | None => None
  end.

(** All matches of a [g] expression, left to right, each search resuming
    where the previous match ended. *)
Fixpoint matchAll {A} (m : string -> option (A * nat)) (skip : nat) (s : string)
  : list A :=
  match s with
  | EmptyString => []
  | String _ s' =>
      match skip with
      | S k => matchAll m k s'
      | O =>
          match m s with
          | Some (a, n) => a :: matchAll m (n - 1) s'
          | None => matchAll m 0 s'
          end
      end
  end.

(** The first match of an expression without the [g] flag, searched from
    the left; the value is the group. *)
Fixpoint search (m : string -> option string) (s : string) : option string :=
  match m s with
  | Some g => Some g
  | None =>
      match s with
      | EmptyString => None
      | String _ s' => search m s'
      end
  end.

(** [/files/], a group of hexadecimal digits and hyphens, [/raw], at the
    head of [s]. *)
Definition filesRaw (s : string) : option string :=
  match strip "/files/" s with
  | Some r =>
      let (uuid, r') := span hex_or_dash r in
      if negb (String.eqb uuid EmptyString) && startsWith r' "/raw"
      then Some uuid else None
  | None => None
  end.

(** [filename%3D] under the [i] flag and a group of code units other than
    the ampersand, at the head of [s]. *)
Definition filenameParam (s : string) : option string :=
  match strip_ci "filename%3d" s with
  | Some r =>
      let g := fst (span (fun c => negb (is_char "&" c)) r) in
      if negb (String.eqb g EmptyString) then Some g else None
  | None => None
  end.

(** A slash, a group free of slash and question mark, and a question
    mark, at the head of [s]. *)
Definition lastSegment (s : string) : option string :=
  match strip "/" s with
  | Some r =>
      let (g, r') := span (fun c => negb (is_char "/" c || is_char "?" c)) r in
      if negb (String.eqb g EmptyString) && startsWith r' "?"
      then Some g else None
  | None => None
  end.

End Pattern.

(* ================================================================== *)
(** ** MediaExtractor.findRenderedImages (mediaExtractor.js) *)
(* ================================================================== *)

Module MediaExtractor.
Import Js.

(** [ref.fileId] without a leading [file_] and then without a leading
    [file-]; an absent id is searched for as the text [undefined]. *)
Definition searchId (ref : MediaRef) : string :=
  match fileId ref with
  | Some id =>
      if truthy (Some id) then
        let id := if startsWith id "file_" then substring_from id 5 else id in
        if truthy (Some id) && startsWith id "file-" then substring_from id 5 else id
      else id
  | None => "undefined"
  end.

Definition findRenderedImage (allImages : list string) (ref : MediaRef) : MediaRef :=
  if negb (equals (type ref) "image") then ref
  else
    match find (fun src => truthy (Some src) && includes src (searchId ref)) allImages with
    | Some src => set_renderedUrl ref (Some src)
    | None => ref
    end.

Definition findRenderedImages (allImages : list string) (mediaReferences : list MediaRef)
  : list MediaRef :=
  map (findRenderedImage allImages) mediaReferences.

(** *** MediaExtractor.extractMediaReferences *)

(** One element of [message.content.parts], as the extractor reads it:
    [content_type], [asset_pointer], the [asset_pointer] of
    [image_asset_pointer] when that member is present, and
    [metadata.dalle]. *)
Record Part := {
  content_type : option string;
  asset_pointer : option string;
  image_asset_pointer : option (option string);
  part_dalle : option DalleMeta
}.

(** [node.message]: its [id], [content.parts] when both are present, and
    [metadata.attachments], each attachment its [id] and [name], when it
    is an array. *)
Record Message := {
  msg_id : option string;
  parts : option (list Part);
  attachments : option (list (option string * option string))
}.

Record Node := { message : option Message }.

(** The conversation payload: its [JSON.stringify] text, its [title], and
    [Object.values(mapping)] when it has a mapping. *)
Record ConversationData := {
  json : string;
  data_title : option string;
  mapping : option (list Node)
}.

(** Lower-case letters, digits and the hyphen. *)
Definition label_char (c : ascii) : bool := is_lower c || is_digit c || is_char "-" c.

(** The expression of the JSON scan, tried at the head of [s]: scheme, one
    or more [label_char], [.oaiusercontent.com/files/], a group of one or
    more hexadecimal digits and hyphens, [/raw?], a negative lookahead (no
    [/drvs/icon/] later on the line), then one or more [url_char].  The
    value is the pair of the group and the whole match. *)
Definition dalleUrl (s : string) : option ((string * string) * nat) :=
  match Pattern.scheme s with
  | Some r1 =>
    let (host, r2) := Pattern.span label_char r1 in
    match Pattern.strip ".oaiusercontent.com/files/" r2 with
    | Some r3 =>
      let (uuid, r4) := Pattern.span Pattern.hex_or_dash r3 in
      match Pattern.strip "/raw?" r4 with
      | Some r5 =>
          let line := Pattern.firstLine r5 in
          let (tail, r6) := Pattern.span Pattern.url_char r5 in
          if negb (String.eqb host EmptyString)
             && negb (String.eqb uuid EmptyString)
             && negb (includes line "/drvs/icon/")
             && negb (String.eqb tail EmptyString)
          then Pattern.matched s r6 (fun whole => (uuid, whole))
          else None
      | None => None
      end
    | None => None
    end
  | None => None
  end.

(** The reference pushed for a match of the scan. *)
Definition scanned (id url : string) : MediaRef :=
  {| type := Some "image"; assetPointer := Some ("sediment://" ++ id);
     fileId := Some id; canvasId := None; customName := Some ("dalle_" ++ id);
     title := None; filename := None; mime_type := None; format := None;
     renderedUrl := Some url; download_url := None;
     messageId := Some "found_in_json"; dalle := None |}.

(** The body of the [while] over the matches:
    [if (!mediaReferences.some(r => r.fileId === fileId)) push]. *)
Definition pushScanned (mediaReferences : list MediaRef) (m : string * string)
  : list MediaRef :=
  if existsb (fun r => equals (fileId r) (fst m)) mediaReferences
  then mediaReferences
  else List.app mediaReferences [scanned (fst m) (snd m)].

Definition scan (jsonString : string) : list MediaRef :=
  fold_left pushScanned (Pattern.matchAll dalleUrl 0 jsonString) [].

(** [part.content_type === "image_asset_pointer" ||
     (part.image_asset_pointer && part.image_asset_pointer.asset_pointer)] *)
Definition isImagePointer (part : Part) : bool :=
  equals (content_type part) "image_asset_pointer"
  || match image_asset_pointer part with
     | Some p => truthy p
     | None => false
     end.

(** [part.asset_pointer || part.image_asset_pointer.asset_pointer];
    reading the member of an absent [image_asset_pointer] throws. *)
Definition pointerOf (part : Part) : string + option string :=
  if truthy (asset_pointer part) then inr (asset_pointer part)
  else match image_asset_pointer part with
       | Some p => inr p
       | None => inl "Cannot read properties of undefined (reading 'asset_pointer')"
       end.

(** The reference pushed for an image part. *)
Definition pointed (pointer : string) (id : option string) (d : option DalleMeta)
  : MediaRef :=
  {| type := Some "image"; assetPointer := Some pointer;
     fileId := Some (replace pointer "sediment://" EmptyString);
     canvasId := None; customName := None; title := None; filename := None;
     mime_type := None; format := None; renderedUrl := None;
     download_url := None; messageId := id; dalle := d |}.

(** [node.message.content.parts.forEach(part => { ... })] *)
Fixpoint forEachPart (id : option string) (ps : list Part)
    (mediaReferences : list MediaRef) : string + list MediaRef :=
  match ps with
  | [] => inr mediaReferences
  | part :: rest =>
      if isImagePointer part then
        match pointerOf part with
        | inl msg => inl msg
        | inr pointer =>
            forEachPart id rest
              (if truthy pointer
               then List.app mediaReferences [pointed (show pointer) id (part_dalle part)]
               else mediaReferences)
        end
      else forEachPart id rest mediaReferences
  end.

(** [Object.values(conversationData.mapping).forEach(node => { ... })] *)
Fixpoint forEachNode (nodes : list Node) (mediaReferences : list MediaRef)
  : string + list MediaRef :=
  match nodes with
  | [] => inr mediaReferences
  | node :: rest =>
      match message node with
      | None => forEachNode rest mediaReferences
      | Some msg =>
          match parts msg with
          | None => forEachNode rest mediaReferences
          | Some ps =>
              match forEachPart (msg_id msg) ps mediaReferences with
              | inl e => inl e
              | inr mediaReferences' => forEachNode rest mediaReferences'
              end
          end
      end
  end.

(** [extractMediaReferences(conversationData)]: the references, or the
    message of the [TypeError] thrown. *)
Definition extractMediaReferences (conversationData : option ConversationData)
  : string + list MediaRef :=
  match conversationData with
  | None => inr []
  | Some d =>
      match mapping d with
      | None => inr []
      | Some nodes => forEachNode nodes (scan (json d))
      end
  end.

End MediaExtractor.

(* ================================================================== *)
(** ** MediaDownloader.downloadMedia (the fetch strategy executor) *)
(* ================================================================== *)

Module MediaDownloader.
Import Js Host MediaFetcher.
Local Open Scope js_scope.

(** The fallback region list written in [downloadMedia]. *)
Definition fallbackRegions : list string :=
  ["westus2"; "eastus2"; "centralus"; "westus3"; "eastus"; "northcentralus";
   "southcentralus"; "northeurope"; "westeurope"; "australiaeast";
   "southeastasia"; "eastasia"].

(** [window.ExportConfig.sedimentRegions || [...]] *)
Definition regions (cfg : ExportConfig.t) : list string :=
  match ExportConfig.sedimentRegions cfg with
  | Some rs => rs
  | None => fallbackRegions
  end.

(** The folder of a download: [createConversationFolderName(conversationData)]
    when there is conversation data, [chatgpt_export] otherwise. *)
Definition downloadFolderName (conversationData : option Conversation) : string :=
  match conversationData with
  | Some c => conv_folder c
  | None => "chatgpt_export"
  end.

(** [id.startsWith('file_') ? id.substring(5) : id], then hyphens if needed. *)
Definition uuidWithHyphens (cleanId : string) : string :=
  let fileUuid := if startsWith cleanId "file_" then substring_from cleanId 5 else cleanId in
  if includes fileUuid "-" then fileUuid else hyphenate fileUuid.

(** The result object of the direct download strategies. *)
Definition direct (mediaRef : MediaRef) (ct how url : string) : Result :=
  {| success := true;
     res_fileId := or_else (fileId mediaRef) (assetPointer mediaRef);
     res_type := type mediaRef;
     contentType := Some ct;
     method := Some how;
     res_renderedUrl := Some url;
     res_blob := None;
     res_filename := None;
     originalName := None;
     error := None |}.

Definition failure (mediaRef : MediaRef) (msg : string) : Result :=
  {| success := false;
     res_fileId := or_else (fileId mediaRef) (assetPointer mediaRef);
     res_type := type mediaRef;
     contentType := None;
     method := None;
     res_renderedUrl := None;
     res_blob := None;
     res_filename := None;
     originalName := None;
     error := Some msg |}.

(** The signed-URL test on [renderedUrl]. *)
Definition hasSasUrl (mediaRef : MediaRef) : bool :=
  truthy (renderedUrl mediaRef)
  && includes (show (renderedUrl mediaRef)) "sdmntpr"
  && includes (show (renderedUrl mediaRef)) "/raw"
  && includes (show (renderedUrl mediaRef)) "sig=".

Definition isSediment (mediaRef : MediaRef) : bool :=
  truthy (assetPointer mediaRef)
  && includes (show (assetPointer mediaRef)) "sediment://".

(** The worklist of the third strategy and what it collects. *)
Record LoopState := {
  urlsToTry : list string;
  errorMessages : list string;
  jsonResponseUrls : list string
}.

Definition pushError (st : LoopState) (msg : string) : LoopState :=
  {| urlsToTry := urlsToTry st;
     errorMessages := List.app (errorMessages st) [msg];
     jsonResponseUrls := jsonResponseUrls st |}.

(** [jsonResponseUrls.push(u); if (!urlsToTry.includes(u)) urlsToTry.push(u)] *)
Definition noteRedirect (st : LoopState) (u : string) : LoopState :=
  {| urlsToTry := if arr_includes (urlsToTry st) u then urlsToTry st
                  else List.app (urlsToTry st) [u];
     errorMessages := errorMessages st;
     jsonResponseUrls := List.app (jsonResponseUrls st) [u] |}.

(** How one pass through the loop body ends. *)
Inductive Step :=
| Continue (st : LoopState)
| Break (st : LoopState) (successfulResponse : Result) (successfulUrl : string).

(** [for (...) { if (!arr.includes(x)) arr.unshift(x) }] *)
Definition unshiftNew (urls : list string) (xs : list string) : list string :=
  fold_left (fun acc x => if arr_includes acc x then acc else x :: acc) xs urls.

Section WithWorld.
Variable w : World.
Variable mediaRef : MediaRef.
Variable token : string.
Variable conversationData : option Conversation.

(** First branch: a sediment reference whose [renderedUrl] carries the
    SAS token is handed to the background script as it is.  The event
    records that the promise around [chrome.runtime.sendMessage] is
    awaited, and [directDownload] tells whether it yields a success; on
    a page without [chrome.runtime] the promise rejects before anything
    is sent, which is a host whose [directDownload] is [false]. *)
Definition sasDownload : M (option Result) :=
  if hasSasUrl mediaRef then
    let url := show (renderedUrl mediaRef) in
    let filename := FileUtils.createSuitableFilename mediaRef (Some "image/png") in
    let fullPath := downloadFolderName conversationData ++ "/media/" ++ filename in
    downloadResult <- ask (fun tr => directDownload w tr url fullPath)
                          (DirectDownload url fullPath) ;;
    if (downloadResult : bool)
    then ret (Some (direct mediaRef "image/png" "direct_sediment_download_with_sas" url))
    else ret None
  else ret None.

(** [for (const region of regions) { ... }] over the storage regions,
    with the same reading of the event and of [directDownload]. *)
Fixpoint tryRegions (uuid fullPath : string) (rs : list string) : M (option Result) :=
  match rs with
  | [] => ret None
  | region :: rest =>
      let sedimentUrl := MediaUrlGenerator.sedimentUrl uuid region in
      downloadResult <- ask (fun tr => directDownload w tr sedimentUrl fullPath)
                            (DirectDownload sedimentUrl fullPath) ;;
      if (downloadResult : bool)
      then ret (Some (direct mediaRef "image/png" "direct_sediment_download" sedimentUrl))
      else tryRegions uuid fullPath rest
  end.

Definition sedimentStage : M (option Result) :=
  if isSediment mediaRef then
    r <- sasDownload ;;
    match r with
    | Some _ => ret r
    | None =>
        let cleanId := replace (show (assetPointer mediaRef)) "sediment://" EmptyString in
        let filename := FileUtils.createSuitableFilename mediaRef (Some "image/png") in
        let fullPath := downloadFolderName conversationData ++ "/media/" ++ filename in
        tryRegions (uuidWithHyphens cleanId) fullPath (regions (config w))
    end
  else ret None.

(** Second branch: a rendered URL taken from the page. *)
Definition renderedStage : M (option Result) :=
  if truthy (renderedUrl mediaRef) && startsWith (show (renderedUrl mediaRef)) "http"
  then
    let url := show (renderedUrl mediaRef) in
    let ct := if includes url ".jpg" || includes url ".jpeg"
              then "image/jpeg" else "image/png" in
    let name := FileUtils.createSuitableFilename mediaRef (Some ct) in
    let filename := match conversationData with
                    | Some c => conv_folder c ++ "/media/" ++ name
                    | None => name
                    end in
    if chrome_runtime w && chrome_downloads w then
      downloadResult <- ask (fun tr => chromeDownload w tr url filename)
                            (ChromeDownload url filename) ;;
      if (downloadResult : bool)
      then ret (Some (direct mediaRef ct "chrome_downloads_direct" url))
      else
        downloadResult <- ask (fun tr => directDownload w tr url filename)
                              (DirectDownload url filename) ;;
        if (downloadResult : bool)
        then ret (Some (direct mediaRef ct "background_script_direct" url))
        else ret None
    else ret None
  else ret None.

(** The CDN guesses put in front of the generated lists. *)
Definition cdnUrls (fileId : string) : list string :=
  let cleanId := replace fileId "sediment://" EmptyString in
  let hasFilePrefix := startsWith cleanId "file_" in
  let actualId := if hasFilePrefix then substring_from cleanId 5 else cleanId in
  let withFilePrefix := if hasFilePrefix then cleanId else "file_" ++ cleanId in
  [ "https://files.oaiusercontent.com/file/" ++ actualId;
    "https://files.oaiusercontent.com/file/" ++ withFilePrefix;
    "https://files.oaiusercontent.com/file/" ++ cleanId;
    "https://files.oaiusercontent.com/file-" ++ actualId;
    "https://files.oaiusercontent.com/file-" ++ withFilePrefix;
    "https://files.oaiusercontent.com/file-" ++ cleanId;
    "https://cdn.oaistatic.com/" ++ actualId;
    "https://cdn.oaistatic.com/" ++ withFilePrefix;
    "https://cdn.oaistatic.com/" ++ cleanId;
    "https://cdn.oaistatic.com/images/" ++ actualId ++ ".png";
    "https://cdn.oaistatic.com/images/" ++ withFilePrefix ++ ".png";
    "https://cdn.oaistatic.com/images/" ++ cleanId ++ ".png" ].

(** The worklist before any fetch: CDN guesses, then the generated lists
    of the two domains, then, for sediment ids, the storage URLs of
    every region pushed onto the front. *)
Definition initialUrls (fileId : string) (primaryUrls secondaryUrls : list string)
  : list string :=
  let urlsToTry := List.app (cdnUrls fileId) (List.app primaryUrls secondaryUrls) in
  if includes fileId "sediment://" || startsWith fileId "file_" then
    let rawId := replace fileId "sediment://" EmptyString in
    unshiftNew urlsToTry
      (map (MediaUrlGenerator.sedimentUrl (uuidWithHyphens rawId)) (regions (config w)))
  else urlsToTry.

(** [try { result = await f(url) } catch (e) { ... }]: the thrown message
    or the value. *)
Definition caught (m : M Fetched) : M (string + Fetched) :=
  try_catch (x <- m ;; ret (inr x)) (fun msg => ret (inl msg)).

(** One pass through the body of [for (const url of urlsToTry)]. *)
Definition attempt (fileId : string) (st : LoopState) (url : string) : M Step :=
  r <- caught (fetchViaBackgroundScript w url token fileId mediaRef) ;;
  let st := match r with inl msg => pushError st msg | inr _ => st end in
  match r with
  | inr (RedirectTo redirectUrl) => ret (Continue (noteRedirect st redirectUrl))
  | inr (Downloaded result) => ret (Break st result url)
  | _ =>
      r <- caught (fetchDirectly w url token fileId mediaRef) ;;
      match r with
      | inl msg => ret (Continue (pushError st msg))
      | inr (RedirectTo redirectUrl) => ret (Continue (noteRedirect st redirectUrl))
      | inr (Downloaded result) => ret (Break st result url)
      | inr Null => ret (Continue st)
      end
  end.

(** [for (const url of urlsToTry) { ... }]: the array iterator reads
    position [i] of the array as it is at that moment, so URLs pushed
    during the loop are visited too. *)
Fixpoint tryUrls (fuel : nat) (fileId : string) (i : nat) (st : LoopState)
  : M (LoopState * option (Result * string)) :=
  match nth_error (urlsToTry st) i with
  | None => ret (st, None)
  | Some url =>
      match fuel with
      | O => diverge
      | S fuel' =>
          s <- attempt fileId st url ;;
          match s with
          | Continue st' => tryUrls fuel' fileId (S i) st'
          | Break st' result successfulUrl => ret (st', Some (result, successfulUrl))
          end
      end
  end.

(** Fourth strategy: the redirect URLs again, without credentials.  The
    [catch] of the loop body adds the message of an error thrown by
    [fixContentTypeIssues] to [errorMessages] and goes on. *)
Fixpoint trySigned (fileId : string) (errorMessages : list string) (urls : list string)
  : M (list string * option Result) :=
  match urls with
  | [] => ret (errorMessages, None)
  | url :: rest =>
      r <- fetchFromSignedUrl w url fileId mediaRef ;;
      match r with
      | Some result =>
          match fixContentTypeIssues result mediaRef with
          | inl message => trySigned fileId (List.app errorMessages [message]) rest
          | inr fixed => ret (errorMessages, Some fixed)
          end
      | None => trySigned fileId errorMessages rest
      end
  end.

Definition primaryDomain : string := "chat.openai.com".

Definition enumerate (fuel : nat) : M Result :=
  let secondaryDomain := hostname w in
  let fileId := or_else (assetPointer mediaRef)
                  (or_else (fileId mediaRef) (canvasId mediaRef)) in
  if negb (truthy fileId) then raise "No valid file identifier found"
  else
    let fileId := show fileId in
    emit (GenerateAlternativeUrls fileId primaryDomain) ;;;
    let primaryUrls :=
      MediaUrlGenerator.generateAlternativeUrls (Some (config w)) fileId primaryDomain in
    emit (GenerateAlternativeUrls fileId secondaryDomain) ;;;
    let secondaryUrls :=
      MediaUrlGenerator.generateAlternativeUrls (Some (config w)) fileId secondaryDomain in
    let urls := initialUrls fileId primaryUrls secondaryUrls in
    backgroundDownload <- downloadViaBackgroundScript w fileId urls token mediaRef ;;
    match backgroundDownload with
    | Some r => ret r
    | None =>
        additionalUrls <- fetchMetadataForUrls w fileId primaryDomain token ;;
        let urls := unshiftNew urls additionalUrls in
        found <- tryUrls fuel fileId 0
                   {| urlsToTry := urls; errorMessages := []; jsonResponseUrls := [] |} ;;
        match found with
        | (_, Some (successfulResponse, _)) =>
            match fixContentTypeIssues successfulResponse mediaRef with
            | inl message => raise message
            | inr fixed => ret fixed
            end
        | (st, None) =>
            r <- trySigned fileId (errorMessages st) (jsonResponseUrls st) ;;
            match r with
            | (_, Some result) => ret result
            | (errorMessages, None) =>
                raise ("All URL formats failed. Errors: "
                       ++ join "; " errorMessages)
            end
        end
    end.

Definition downloadMedia (fuel : nat) : M Result :=
  try_catch
    (r <- sedimentStage ;;
     match r with
     | Some result => ret result
     | None =>
         r <- renderedStage ;;
         match r with
         | Some result => ret result
         | None => enumerate fuel
         end
     end)
    (fun msg => ret (failure mediaRef msg)).

End WithWorld.

(** *** downloadAllMedia (the batch orchestrator) *)

(** One entry of [results.files]. *)
Inductive FileEntry :=
| DirectFile (filename url : string)
    (* { filename, result: { success: true, url, method: 'direct_chrome_download' } } *)
| MediaFile (media : MediaRef) (result : Result) (filename : string)
| FailedFile (media : MediaRef) (result : Result).

Record Results := {
  total : nat;
  completed : nat;
  failed : nat;
  files : list FileEntry
}.

(** [findSedimentUrlsInJson]: the matches that carry [sig=], as pairs of
    the uuid and the URL. *)
Definition findSedimentUrlsInJson (conversationData : Conversation)
  : list (string * string) :=
  filter (fun m => includes (snd m) "sig=")
    (Pattern.matchAll Pattern.sedimentSas 0 (conv_json conversationData)).

(** The callback of the first [forEach]: a sediment reference takes the
    signed URL found for its uuid. *)
Definition mapSedimentUrl (sedimentUrls : list (string * string)) (ref : MediaRef)
  : MediaRef :=
  if isSediment ref then
    let fileId := replace (show (assetPointer ref)) "sediment://" EmptyString in
    match find (fun item => String.eqb (fst item) (uuidWithHyphens fileId)) sedimentUrls with
    | Some item => if truthy (Some (snd item)) then set_renderedUrl ref (Some (snd item))
                   else ref
    | None => ref
    end
  else ref.

(** The short name made of a DALL-E prompt. *)
Definition shortPrompt (p : string) : string :=
  let promptWords := filter (fun word => Nat.ltb 3 (String.length word)) (split p " ") in
  toLowerCase
    (replace_class (fun c => negb (is_alnum c || is_char "_" c)) EmptyString
       (join "_" (firstn 5 promptWords))).

(** The body of the preparation loop: naming hints from the DALL-E
    metadata and from the title. *)
Definition enhance (media : MediaRef) : MediaRef :=
  let media :=
    match dalle media with
    | Some d =>
        if equals (type media) "image" then
          if truthy (prompt d) then
            if truthy (Some (shortPrompt (show (prompt d))))
            then set_customName media (Some ("dalle_" ++ shortPrompt (show (prompt d))))
            else set_customName media
                   (Some ("dalle_" ++ show (or_else (gen_id d) (fileId media))))
          else if truthy (gen_id d)
          then set_customName media (Some ("dalle_" ++ show (gen_id d)))
          else media
        else media
    | None => media
    end in
  if truthy (title media) && negb (truthy (customName media))
  then set_customName media
         (Some (toLowerCase (replace_class FileUtils.unsafe_char "_" (show (title media)))))
  else media.

(** [allUrlMatches]: the sediment matches, then the file matches not yet
    listed. *)
Definition allUrlMatches (jsonString : string) : list string :=
  fold_left (fun acc url => if arr_includes acc url then acc else List.app acc [url])
    (Pattern.matchAll Pattern.fileUrl 0 jsonString)
    (Pattern.matchAll Pattern.sedimentRaw 0 jsonString).

Section Batch.
Variable w : World.
Variable token : string.
Variable progressCallback : bool.
Variable conversationData : option Conversation.

(** The scan before the downloads, inside [if (window.MediaExtractor)].
    MediaExtractor defines no [findAllRenderedImages], so that branch
    of the scan never runs. *)
Definition correlate (mediaReferences : list MediaRef) : list MediaRef :=
  if media_extractor w then
    let mediaReferences :=
      match conversationData with
      | Some c =>
          match findSedimentUrlsInJson c with
          | [] => mediaReferences
          | sedimentUrls => map (mapSedimentUrl sedimentUrls) mediaReferences
          end
      | None => mediaReferences
      end in
    MediaExtractor.findRenderedImages (page_images w) mediaReferences
  else mediaReferences.

(** The name under which a URL found in the payload is saved; the
    builtin [decodeURIComponent] may throw. *)
Definition directFileName (i : nat) (directUrl : string) : M string :=
  let isSedimentUrl := includes directUrl "sdmntpr" && includes directUrl "/raw" in
  fileName <-
    (if isSedimentUrl then
       match Pattern.search Pattern.filesRaw directUrl with
       | Some uuid => ret ("dalle_" ++ uuid ++ ".png")
       | None => ret ("direct-file-" ++ decimal i)
       end
     else
       match Pattern.search Pattern.filenameParam directUrl with
       | Some g =>
           match decodeURIComponent w g with
           | Some name => ret name
           | None => raise "URI malformed"
           end
       | None =>
           match Pattern.search Pattern.lastSegment directUrl with
           | Some g => ret ("file-" ++ g)
           | None => ret ("direct-file-" ++ decimal i)
           end
       end) ;;
  let fileExt :=
    if isSedimentUrl then "png"
    else if includes directUrl "jpg" || includes directUrl "jpeg" then "jpg"
    else if includes directUrl "png" then "png"
    else if includes directUrl "pdf" then "pdf"
    else "bin" in
  ret (if includes fileName "." then fileName else fileName ++ "." ++ fileExt).

(** [for (let i = 0; i < allUrlMatches.length; i++)]: every URL found in
    the payload is handed to [chrome.downloads.download] and counted as
    completed, whatever the download reports. *)
Fixpoint downloadDirectUrls (folderName : string) (i : nat) (urls : list string)
    (results : Results) : M Results :=
  match urls with
  | [] => ret results
  | directUrl :: rest =>
      fileName <- directFileName i directUrl ;;
      results <-
        (if chrome_downloads w then
           ask (fun tr => chromeDownload w tr directUrl (folderName ++ "/media/" ++ fileName))
               (ChromeDownload directUrl (folderName ++ "/media/" ++ fileName)) ;;;
           ret {| total := total results;
                  completed := S (completed results);
                  failed := failed results;
                  files := List.app (files results) [DirectFile fileName directUrl] |}
         else ret results) ;;
      emit (Delay 500) ;;;
      downloadDirectUrls folderName (S i) rest results
  end.

(** [await FileUtils.downloadBlobToPath(blob, filePath)] as the loop below
    observes it: with [chrome.downloads] the promise returned rejects
    with the message of [chrome.runtime.lastError], and the [await]
    throws; the click on an anchor that replaces it never fails. *)
Definition downloadBlobToPath (b : Blob) (filePath : string) : M unit :=
  if chrome_downloads w then
    lastError <- ask (fun tr => blobDownload w tr b filePath) (SaveBlob b filePath) ;;
    match lastError with
    | Some message => raise message
    | None => ret tt
    end
  else emit (SaveBlob b filePath).

(** [for (let i = 0; i < mediaReferences.length; i++)]; the [await] of
    [downloadBlobToPath] stands outside any [try]. *)
Fixpoint downloadEach (fuel : nat) (folderName : string) (n i : nat)
    (refs : list MediaRef) (results : Results) : M Results :=
  match refs with
  | [] => ret results
  | media :: rest =>
      (if progressCallback
       then emit (Progress ("Downloading media " ++ decimal (S i) ++ "/"
                            ++ decimal n ++ "..."))
       else ret tt) ;;;
      result <- downloadMedia w media token conversationData fuel ;;
      results <-
        (if success result then
           let filename := FileUtils.createSuitableFilename media (contentType result) in
           (match res_blob result with
            | Some b => downloadBlobToPath b (folderName ++ "/media/" ++ filename)
            | None => ret tt
            end) ;;;
           emit (Delay 300) ;;;
           ret {| total := total results;
                  completed := S (completed results);
                  failed := failed results;
                  files := List.app (files results) [MediaFile media result filename] |}
         else
           ret {| total := total results;
                  completed := completed results;
                  failed := S (failed results);
                  files := List.app (files results) [FailedFile media result] |}) ;;
      downloadEach fuel folderName n (S i) rest results
  end.

Definition downloadAllMedia (fuel : nat) (mediaReferences : list MediaRef)
  : M Results :=
  let mediaReferences := correlate mediaReferences in
  let results := {| total := List.length mediaReferences; completed := 0;
                    failed := 0; files := [] |} in
  let folderName := downloadFolderName conversationData in
  let mediaReferences := map enhance mediaReferences in
  results <-
    match conversationData with
    | Some c =>
        if Nat.eqb (List.length mediaReferences) 0 || Nat.ltb 0 (failed results)
        then downloadDirectUrls folderName 0 (allUrlMatches (conv_json c)) results
        else ret results
    | None => ret results
    end ;;
  downloadEach fuel folderName (List.length mediaReferences) 0 mediaReferences results.

End Batch.

End MediaDownloader.

(* ================================================================== *)
(** ** ChatGPTHandler.extract: naming of the media of an archive *)
(* ================================================================== *)

Module ChatGPTHandler.
Import Js.

(** [fileIdToName], a [Map] from attachment ids to names; the binding
    set last for a key is the one read. *)
Definition NameMap := list (string * string).

Fixpoint get (m : NameMap) (k : string) : option string :=
  match m with
  | [] => None
  | (k', v) :: rest => if String.eqb k k' then Some v else get rest k
  end.
Definition has (m : NameMap) (k : string) : bool :=
  match get m k with Some _ => true | None => false end.
Definition set (m : NameMap) (k v : string) : NameMap := (k, v) :: m.

(** The callback over [msg.metadata.attachments] that fills the map;
    an attachment is its [id] and [name]. *)
Definition addAttachment (m : NameMap) (att : option string * option string) : NameMap :=
  let (id, name) := att in
  if truthy id && truthy name then
    let m := set m (show id) (show name) in
    if startsWith (show id) "file-"
    then set m (substring_from (show id) 5) (show name)
    else m
  else m.

Definition buildNameMap (attachments : list (option string * option string)) : NameMap :=
  fold_left addAttachment attachments [].

(** One entry of [media]. *)
Record Media := {
  media_url : string;
  media_filename : string;
  originalRef : MediaRef
}.

(** The URL to download, or [None] where the callback returns early. *)
Definition resolveUrl (ref : MediaRef) : option string :=
  if equals (type ref) "audio" then None
  else
    let url := or_else (renderedUrl ref) (or_else (download_url ref) (assetPointer ref)) in
    let url :=
      if truthy url && includes (show url) "file-service://"
      then Some ("https://chatgpt.com/backend-api/files/"
                 ++ MediaUrlGenerator.afterProtocol (show url) "file-service://"
                 ++ "/download")
      else url in
    if truthy url && startsWith (show url) "sediment://" && negb (truthy (renderedUrl ref))
    then None
    else
      let url := if truthy url && startsWith (show url) "sediment://"
                 then renderedUrl ref else url in
      if negb (truthy url) || negb (startsWith (show url) "http") then None
      else Some (show url).

Definition extension (ref : MediaRef) : string :=
  if truthy (mime_type ref) then
    let m := show (mime_type ref) in
    if includes m "png" then "png"
    else if includes m "webp" then "webp"
    else if includes m "pdf" then "pdf"
    else if includes m "text" then "txt"
    else if includes m "csv" then "csv"
    else if includes m "spreadsheet" || includes m "excel" then "xlsx"
    else if includes m "json" then "json"
    else "jpg"
  else "jpg".

(** The class [[^a-z0-9_\-\.\s\(\)]] under the [i] flag. *)
Definition unsafe_char (c : ascii) : bool :=
  negb (is_alnum c || is_char "_" c || is_char "-" c || is_char "." c
        || is_space c || is_char "(" c || is_char ")" c).

(** The base name of a reference before de-duplication. *)
Definition resolveBaseName (fileIdToName : NameMap) (index : nat) (ref : MediaRef)
  : string :=
  let ext := extension ref in
  let lookupId :=
    if negb (truthy (fileId ref)) && truthy (assetPointer ref)
    then Some (replace (replace (show (assetPointer ref)) "sediment://" EmptyString)
                 "file-service://" EmptyString)
    else fileId ref in
  let baseName :=
    if truthy lookupId then
      let id := show lookupId in
      if has fileIdToName id then show (get fileIdToName id)
      else if startsWith id "file-" && has fileIdToName (substring_from id 5)
      then show (get fileIdToName (substring_from id 5))
      else if startsWith id "file_" && has fileIdToName (substring_from id 5)
      then show (get fileIdToName (substring_from id 5))
      else EmptyString
    else EmptyString in
  let baseName :=
    if negb (truthy (Some baseName)) then
      let b := show (or_else (filename ref)
                       (or_else (customName ref) (Some ("file_" ++ decimal index)))) in
      if includes b "." then b else b ++ "." ++ ext
    else baseName in
  replace_class unsafe_char "_" baseName.

(** The name tried for a given counter: the suffix goes before the last
    dot, or at the end when there is none. *)
Definition suffixed (baseName : string) (counter : nat) : string :=
  match lastIndexOf baseName "."%char with
  | Some lastDot =>
      substring baseName 0 lastDot ++ "_" ++ decimal counter
        ++ substring_from baseName lastDot
  | None => baseName ++ "_" ++ decimal counter
  end.

(** [while (usedFilenames.has(finalName)) { ...; counter++ }], with the
    number of passes it may still make. *)
Fixpoint dedupe (fuel : nat) (usedFilenames : list string) (baseName : string)
    (counter : nat) (finalName : string) : option string :=
  if arr_includes usedFilenames finalName then
    match fuel with
    | O => None
    | S fuel' =>
        dedupe fuel' usedFilenames baseName (S counter) (suffixed baseName counter)
    end
  else Some finalName.

(** [refs.forEach((ref, index) => { ... })], threading [media] and
    [usedFilenames]. *)
Fixpoint forEachRef (fuel : nat) (fileIdToName : NameMap) (index : nat)
    (refs : list MediaRef) (media : list Media) (usedFilenames : list string)
  : option (list Media * list string) :=
  match refs with
  | [] => Some (media, usedFilenames)
  | ref :: rest =>
      match resolveUrl ref with
      | None => forEachRef fuel fileIdToName (S index) rest media usedFilenames
      | Some url =>
          let baseName := resolveBaseName fileIdToName index ref in
          match dedupe fuel usedFilenames baseName 1 baseName with
          | None => None
          | Some finalName =>
              forEachRef fuel fileIdToName (S index) rest
                (List.app media
                   [{| media_url := url; media_filename := finalName;
                       originalRef := ref |}])
                (List.app usedFilenames [finalName])
          end
      end
  end.

(** The media list and the registry that [extract] ends with. *)
Definition extractMedia (fuel : nat) (fileIdToName : NameMap) (refs : list MediaRef)
  : option (list Media * list string) :=
  forEachRef fuel fileIdToName 0 refs [] [].

(** *** ChatGPTHandler.extract, from the conversation payload *)

(** The attachments of all messages, in the order in which the two nested
    [forEach] visit them. *)
Definition allAttachments (data : MediaExtractor.ConversationData)
  : list (option string * option string) :=
  match MediaExtractor.mapping data with
  | Some nodes =>
      flat_map (fun node =>
                  match MediaExtractor.message node with
                  | Some msg =>
                      match MediaExtractor.attachments msg with
                      | Some atts => atts
                      | None => []
                      end
                  | None => []
                  end) nodes
  | None => []
  end.

(** What [extract] returns: [title] and [media]. *)
Record Export := {
  export_title : string;
  export_media : list Media
}.

(** [extract(statusCallback)] once the conversation [data] was fetched;
    [allImages] are the [src] of the [img] elements of the page. *)
Definition extract (fuel : nat) (allImages : list string)
    (data : MediaExtractor.ConversationData) : Host.outcome Export :=
  let fileIdToName := buildNameMap (allAttachments data) in
  match MediaExtractor.extractMediaReferences (Some data) with
  | inl msg => Host.Raise msg
  | inr refs =>
      let refs := MediaExtractor.findRenderedImages allImages refs in
      match extractMedia fuel fileIdToName refs with
      | Some (media, _) =>
          Host.Ret {| export_title :=
                        show (or_else (MediaExtractor.data_title data)
                                (Some "ChatGPT Export"));
                      export_media := media |}
      | None => Host.OutOfFuel
      end
  end.

End ChatGPTHandler.

(* ================================================================== *)
(** ** The content script: fetching and validating the media of the zip *)
(* ================================================================== *)

Module Content.
Import Js Host.
Local Open Scope js_scope.
Local Set Warnings "-register-all".

(** A parsed JSON value.  A number is kept as its rendering and its truth
    value, which is all the script observes of it. *)
Inductive json :=
| JNull
| JBool (b : bool)
| JNumber (rendering : string) (nonzero : bool)
| JString (s : string)
| JArray (items : list json)
| JObject (fields : list (string * json)).

(** [value.key]; [None] is [undefined].  Only objects have the members
    read here. *)
Fixpoint field (fields : list (string * json)) (key : string) : option json :=
  match fields with
  | [] => None
  | (k, v) :: rest => if String.eqb k key then Some v else field rest key
  end.
Definition member (v : json) (key : string) : option json :=
  match v with
  | JObject fields => field fields key
  | _ => None
  end.

Definition truthy_json (v : option json) : bool :=
  match v with
  | None | Some JNull => false
  | Some (JBool b) => b
  | Some (JNumber _ nz) => nz
  | Some (JString s) => negb (String.eqb s EmptyString)
  | Some (JArray _) | Some (JObject _) => true
  end.


(** A blob as the script observes it: [blob.size] and [await blob.text()]. *)
Record ZBlob := {
  size : nat;
  text : string
}.

(** A response as the script observes it: status, the [content-type]
    header, the result of [json()] ([None] when the body is not JSON, so
    that the call throws with [json_error]) and of [blob()]. *)
Record Response := {
  status : nat;
  content_type : option string;
  body_json : option json;
  json_error : string;
  body_blob : ZBlob
}.

Inductive fetched := Rejected (msg : string) | Responded (r : Response).

Record World := {
  fetch : trace -> string -> bool -> fetched;
  fetchBlobBase64 : trace -> string -> option ZBlob
}.

(** One item of [data.media]. *)
Record Item := {
  item_url : string;
  item_filename : string;
  isRemote : bool
}.

Definition dq : string := String Pattern.dquote EmptyString.

(** [json.status === s] *)
Definition statusIs (j : json) (s : string) : bool :=
  match member j "status" with
  | Some (JString x) => String.eqb x s
  | _ => false
  end.




Section WithWorld.
Variable w : World.
Variable authToken : option string.








End WithWorld.


(** *** The archive: its folder and its items *)

(** The class [[^a-z0-9_\-\s\.]] under the [i] flag. *)
Definition unsafe_title_char (c : ascii) : bool :=
  negb (is_alnum c || is_char "_" c || is_char "-" c || is_space c || is_char "." c).

(** [s.trim()] *)
Fixpoint trimStart (s : string) : string :=
  match s with
  | EmptyString => EmptyString
  | String c s' => if is_space c then trimStart s' else s
  end.
Fixpoint trimEnd (s : string) : string :=
  match s with
  | EmptyString => EmptyString
  | String c s' =>
      let t := trimEnd s' in
      if is_space c && String.eqb t EmptyString then EmptyString else String c t
  end.
Definition trim (s : string) : string := trimEnd (trimStart s).

(** [folderName] of [createAndDownloadZip]; the archive is saved as
    [`${folderName}.zip`]. *)
Definition folderName (title : option string) : string :=
  let safeTitle :=
    trim (replace_class unsafe_title_char "_"
            (show (or_else title (Some "Untitled Chat")))) in
  substring safeTitle 0 64.

Definition zipName (title : option string) : string := folderName title ++ ".zip".

(** An entry of [data.media] as [ChatGPTHandler.extract] builds it: it has
    no [isRemote] member. *)
Definition itemOf (m : ChatGPTHandler.Media) : Item :=
  {| item_url := ChatGPTHandler.media_url m;
     item_filename := ChatGPTHandler.media_filename m;
     isRemote := false |}.

End Content.

(* ================================================================== *)
(** ** AuthManager (modules/auth.js) *)
(* ================================================================== *)

Module AuthManager.

(** A token or key: its UTF-16 code units. *)
Definition jsstring := list N.

(** Every code unit is below 2^16. *)
Definition wf (s : jsstring) : Prop := Forall (fun c => (c < 65536)%N) s.

(** [key.charCodeAt(i % key.length)] as an operand of [^]: with an empty
    key the index is [NaN], the code unit read is [NaN], and [^] takes it
    as 0. *)
Definition keyUnit (key : jsstring) (i : nat) : N :=
  match key with
  | [] => 0%N
  | _ => nth (i mod List.length key) key 0%N
  end.

(** [String.fromCharCode(n)] keeps the low 16 bits. *)
Definition fromCharCode (n : N) : N := (n mod 65536)%N.

Fixpoint encryptFrom (i : nat) (token key : jsstring) : jsstring :=
  match token with
  | [] => []
  | c :: rest => fromCharCode (N.lxor c (keyUnit key i)) :: encryptFrom (S i) rest key
  end.
Definition encryptToken (token key : jsstring) : jsstring := encryptFrom 0 token key.

Fixpoint decryptFrom (i : nat) (token key : jsstring) : jsstring :=
  match token with
  | [] => []
  | c :: rest => fromCharCode (N.lxor c (keyUnit key i)) :: decryptFrom (S i) rest key
  end.
Definition decryptToken (token key : jsstring) : jsstring := decryptFrom 0 token key.

(** [sessionCache], after [initialize()] has set the key. *)
Record SessionCache := {
  token : option jsstring;
  expiry : option N;
  tokenEncryptionKey : jsstring
}.

(** The answer of the background script to [getAuthToken]. *)
Inductive BgAnswer :=
| BgNone                                        (* no answer, or [lastError] *)
| BgToken (ok : bool) (tok : option jsstring).  (* { success, token } *)

(** The answer of [/api/auth/session]. *)
Inductive SessionAnswer :=
| SessionReject (msg : string)
| SessionResp (status : nat) (accessToken : option jsstring).

Record World := {
  chrome_runtime : bool;
  background : BgAnswer;
  session : SessionAnswer
}.

Definition truthy (o : option jsstring) : bool :=
  match o with
  | Some (_ :: _) => true
  | _ => false
  end.

Definition store (c : SessionCache) (now : N) (tok : jsstring) : SessionCache :=
  {| token := Some (encryptToken tok (tokenEncryptionKey c));
     expiry := Some (now + 10 * 60 * 1000)%N;
     tokenEncryptionKey := tokenEncryptionKey c |}.

(** The part of [getAccessToken()] after a cache miss: the background
    script first, then [/api/auth/session]; a token obtained is cached. *)
Definition fetchToken (w : World) (now : N) (c : SessionCache)
  : (string + jsstring) * SessionCache :=
  match (if chrome_runtime w then background w else BgNone) with
  | BgToken true (Some (u :: tok)) => (inr (u :: tok), store c now (u :: tok))
  | _ =>
      match session w with
      | SessionReject msg => (inl msg, c)
      | SessionResp st acc =>
          if negb (MediaFetcher.ok st)
          then (inl ("Authentication failed with status " ++ Js.decimal st), c)
          else match acc with
               | Some (u :: tok) => (inr (u :: tok), store c now (u :: tok))
               | _ => (inl "No access token found in response", c)
               end
      end
  end.

(** [sessionCache.token && sessionCache.expiry && now < sessionCache.expiry] *)
Definition cacheValid (now : N) (c : SessionCache) : bool :=
  truthy (token c)
  && match expiry c with
     | Some e => negb (N.eqb e 0) && N.ltb now e
     | None => false
     end.

(** [getAccessToken()] at time [now = Date.now()]: the token, or the
    message of the error thrown, and the cache afterwards. *)
Definition getAccessToken (w : World) (now : N) (c : SessionCache)
  : (string + jsstring) * SessionCache :=
  if cacheValid now c
  then (inr (decryptToken (match token c with Some t => t | None => [] end)
               (tokenEncryptionKey c)), c)
  else fetchToken w now c.

(** [charset] of [generateRandomKey] *)
Definition charset : jsstring :=
  map N_of_ascii
    (list_ascii_of_string
       "abcdefghijklmnopqrstuvwxyzABCDEFGHIJKLMNOPQRSTUVWXYZ0123456789").

(** [generateRandomKey(length)], given the [Uint8Array] of that length
    after [crypto.getRandomValues] filled it. *)
Definition generateRandomKey (array : list N) : jsstring :=
  map (fun x => nth (N.to_nat x mod List.length charset) charset 0%N) array.

(** [initialize()] on [sessionCache.tokenEncryptionKey], [None] for
    [null]; [array] is the 32 random bytes the generator would draw. *)
Definition initialize (array : list N) (key : option jsstring) : option jsstring :=
  if truthy key then key else Some (generateRandomKey array).

(** [clearCachedToken()] *)
Definition clearCachedToken (c : SessionCache) : SessionCache :=
  {| token := None; expiry := None; tokenEncryptionKey := tokenEncryptionKey c |}.

End AuthManager.

(* ================================================================== *)
(** ** ConversationManager (modules/conversation.js) *)
(* ================================================================== *)

Module ConversationManager.
Import Js.

(** [\w] and the hyphen. *)
Definition word_or_dash (c : ascii) : bool :=
  is_alnum c || is_char "_" c || is_char "-" c.

(** [/c/] or [/chat/] at the head of [s]: what follows it. *)
Definition marker (s : string) : option string :=
  match Pattern.strip "/c/" s with
  | Some r => Some r
  | None => Pattern.strip "/chat/" s
  end.

(** The first pattern at the head of [s]: the marker and exactly 36
    [word_or_dash]; the group is the value. *)
Definition id36 (s : string) : option string :=
  match marker s with
  | Some r =>
      let g := take 36 r in
      if Nat.eqb (String.length g) 36 && all_chars word_or_dash g then Some g else None
  | None => None
  end.

(** The second pattern at the head of [s]: the marker and one or more
    [word_or_dash], as many as there are. *)
Definition idAny (s : string) : option string :=
  match marker s with
  | Some r =>
      let g := fst (Pattern.span word_or_dash r) in
      if negb (String.eqb g EmptyString) then Some g else None
  | None => None
  end.

(** [getConversationId()] on [window.location.pathname]. *)
Definition getConversationId (pathname : string) : option string :=
  match Pattern.search id36 pathname with
  | Some g => Some g
  | None => Pattern.search idAny pathname
  end.

(** [isValidChatGPTPage()] *)
Definition isValidChatGPTPage (hostname pathname : string) : bool :=
  if negb (arr_includes ExportConfig.domains hostname) then false
  else includes pathname "/c/" || includes pathname "/chat/".

(** The local calendar fields of a [Date]: [getFullYear()], [getMonth()]
    and [getDate()]. *)
Record Calendar := {
  getFullYear : Z;
  getMonth : nat;
  getDate : nat
}.

(** A time stamp of the payload as the function observes it: its truth
    value, and the local calendar of [new Date(t * 1000)], [None] when
    that date is invalid. *)
Record Stamp := {
  nonzero : bool;
  calendar : option Calendar
}.

(** The members of the payload that the folder name is made of. *)
Record Data := {
  title : option string;
  id : option string;
  conversation_id : option string;
  create_time : option Stamp;
  update_time : option Stamp
}.

(** Rendering of an integer inside a template literal. *)
Definition showZ (z : Z) : string :=
  if Z.ltb z 0 then "-" ++ decimal (Z.to_nat (Z.opp z)) else decimal (Z.to_nat z).

(** [s.padStart(2, '0')] *)
Definition padStart2 (s : string) : string :=
  string_of_list_ascii (repeat "0"%char (2 - String.length s)) ++ s.

(** [`${getFullYear()}-${String(getMonth() + 1).padStart(2, '0')}-${String(getDate()).padStart(2, '0')}`];
    every field of an invalid date is [NaN]. *)
Definition dateStr (date : option Calendar) : string :=
  match date with
  | Some d =>
      showZ (getFullYear d) ++ "-" ++ padStart2 (decimal (getMonth d + 1))
        ++ "-" ++ padStart2 (decimal (getDate d))
  | None => "NaN-NaN-NaN"
  end.

(** [s.replace(/_+/g, '_')]: every run of underscores becomes one. *)
Fixpoint squeeze (s : string) : string :=
  match s with
  | EmptyString => EmptyString
  | String c s' =>
      if is_char "_" c && startsWith s' "_" then squeeze s' else String c (squeeze s')
  end.

Definition stampTruthy (t : option Stamp) : bool :=
  match t with
  | Some x => nonzero x
  | None => false
  end.

(** [createConversationFolderName(conversationData)]; [today] is the
    calendar of [new Date()]. *)
Definition createConversationFolderName (today : Calendar)
    (conversationData : option Data) : string :=
  match conversationData with
  | None => "chatgpt_export"
  | Some d =>
      let title := if truthy (title d) then show (title d) else "Untitled Conversation" in
      let id := if truthy (id d) then show (id d)
                else if truthy (conversation_id d) then show (conversation_id d)
                else EmptyString in
      let date :=
        if stampTruthy (create_time d)
        then match create_time d with Some t => calendar t | None => None end
        else if stampTruthy (update_time d)
        then match update_time d with Some t => calendar t | None => None end
        else Some today in
      let safeTitle := squeeze (replace_class FileUtils.unsafe_char "_" title) in
      take 128
        (replace_class FileUtils.unsafe_char "_"
           (safeTitle ++ "_" ++ dateStr date ++ "_" ++ id))
  end.

End ConversationManager.

(* ================================================================== *)
(** ** FileUtils.downloadBlob and downloadBlobToPath: what is requested *)
(* ================================================================== *)

Module FileSaver.
Import Js.

(** [jsonData.status === 'error' || jsonData.error || jsonData.error_code]
    on the parsed text of the blob. *)
Definition isErrorData (jsonData : Content.json) : bool :=
  Content.statusIs jsonData "error"
  || Content.truthy_json (Content.member jsonData "error")
  || Content.truthy_json (Content.member jsonData "error_code").

(** [s] ends with [ext], letters compared without case; [ext] is in lower
    case. *)
Definition endsWith_ci (s ext : string) : bool :=
  Nat.leb (String.length ext) (String.length s)
  && String.eqb (toLowerCase_ascii (drop (String.length s - String.length ext) s)) ext.

(** The match of [/\.(jpg|jpeg|png|gif)$/i]: the number of code units
    matched, the dot included. *)
Definition imageExtension (name : string) : option nat :=
  if endsWith_ci name ".jpg" then Some 4
  else if endsWith_ci name ".jpeg" then Some 5
  else if endsWith_ci name ".png" then Some 4
  else if endsWith_ci name ".gif" then Some 4
  else None.

(** What the function asks of the host. *)
Inductive Request :=
| ChromeDownloads (filename : string)
    (* chrome.downloads.download({ url, filename, saveAs: false }) *)
| AnchorClick (download : string).
    (* link.download = ...; link.click() *)

(** The blob is not binary and its text parses to error data: the test
    under which a name is changed.  [parsed] is [JSON.parse(text)] of the
    text of the blob, [None] when reading or parsing throws; reading a
    member of [null] throws as well. *)
Definition holdsErrorData (blob : Blob) (parsed : option Content.json) : bool :=
  if negb (FileUtils.isBinaryBlob blob) then
    match parsed with
    | Some Content.JNull => false
    | Some jsonData => isErrorData jsonData
    | None => false
    end
  else false.

(** [downloadBlobToPath(blob, filePath)] *)
Definition downloadBlobToPath (chrome_downloads : bool) (parsed : option Content.json)
    (blob : Blob) (filePath : string) : Request :=
  let filePath :=
    if holdsErrorData blob parsed then
      match imageExtension filePath with
      | Some n => take (String.length filePath - n) filePath ++ ".json"
      | None => filePath
      end
    else filePath in
  if chrome_downloads then ChromeDownloads filePath
  else AnchorClick (pop (split filePath "/")).

(** [downloadBlob(blob, filename)] *)
Definition downloadBlob (parsed : option Content.json) (blob : Blob) (filename : string)
  : Request :=
  let filename :=
    if holdsErrorData blob parsed then
      match imageExtension filename with
      | Some _ => join "." (removelast (split filename ".")) ++ ".json"
      | None => filename
      end
    else filename in
  AnchorClick filename.

End FileSaver.

(* ================================================================== *)
(** ** The background script: downloadMedia *)
(* ================================================================== *)

Module Background.
Import Js Host.
Local Open Scope js_scope.

(** The host of the background script: [fetch] with or without the
    [Authorization] header, [chrome.downloads.download] answering with the
    message of [chrome.runtime.lastError] if there is one, and
    [URL.createObjectURL] on the bytes of a blob, which gives the URL or
    throws with a message. *)
Record World := {
  fetch : trace -> string -> bool -> fetch_response;
  download : trace -> string -> string -> option string;
  createObjectURL : trace -> list N -> string + string
}.

(** A response sent back: [{ success: true, ... }] or
    [{ success: false, error }]. *)
Inductive Answer :=
| Done
| Failed (error : string).

(** The one URL of [urlsToTry]. *)
Definition urlsToTry (url : string) : list string :=
  if includes url "file-service://"
  then ["https://chatgpt.com/backend-api/files/"
        ++ MediaUrlGenerator.afterProtocol url "file-service://" ++ "/download"]
  else [url].

(** Whether the request for [u] carries [Authorization: Bearer token]. *)
Definition authorized (token : option string) (u : string) : bool :=
  truthy token && negb (equals token "dummy")
  && negb (includes u "googleusercontent") && negb (includes u "oaiusercontent").

Section WithWorld.
Variable w : World.

Definition downloadFromUnsafeUrl (url filename : string) : M Answer :=
  lastError <- ask (fun tr => download w tr url filename) (ChromeDownload url filename) ;;
  match lastError with
  | Some message => ret (Failed message)
  | None => ret Done
  end.

(** [for (const u of urlsToTry) { ... }]: the bytes of the first answer
    that is [ok]. *)
Fixpoint firstBlob (token : option string) (urls : list string) : M (option (list N)) :=
  match urls with
  | [] => ret None
  | u :: rest =>
      resp <- ask (fun tr => fetch w tr u (authorized token u))
                  (Fetch u (authorized token u)) ;;
      match resp with
      | FetchResp status _ bytes =>
          if MediaFetcher.ok status then ret (Some bytes) else firstBlob token rest
      | FetchReject _ => firstBlob token rest
      end
  end.

(** [downloadMedia(url, token, filename)]; the [catch] turns a thrown
    error into [{ success: false, error }]. *)
Definition downloadMedia (url : string) (token : option string) (filename : string)
  : M Answer :=
  try_catch
    (blob <- firstBlob token (urlsToTry url) ;;
     match blob with
     | None => downloadFromUnsafeUrl (nth 0 (urlsToTry url) EmptyString) filename
     | Some bytes =>
         made <- (fun tr => (Ret (createObjectURL w tr bytes), tr)) ;;
         match made with
         | inl message => raise message
         | inr blobUrl =>
             lastError <- ask (fun tr => download w tr blobUrl filename)
                              (ChromeDownload blobUrl filename) ;;
             match lastError with
             | Some message => ret (Failed message)
             | None => ret Done
             end
         end
     end)
    (fun message => ret (Failed message)).

End WithWorld.

End Background.

(* ================================================================== *)
(** ** Observations on traces, and the fixtures of the examples *)
(* ================================================================== *)

Module Observe.
Import Host.

(** Number of calls of the URL generator recorded in a trace. *)
Definition generatorCalls (tr : trace) : nat :=
  List.length (filter (fun e => match e with
                                | GenerateAlternativeUrls _ _ => true
                                | _ => false
                                end) tr).



(** The [k]-th name of the pattern base, base_1, base_2, ... *)
Definition nthName (baseName : string) (k : nat) : string :=
  match k with
  | O => baseName
  | S _ => ChatGPTHandler.suffixed baseName k
  end.

(** The claimed type names a media type: the first test of
    [isBinaryBlob], on the type that a blob made with [ty] carries. *)
Definition claimsMedia (ty : string) : bool :=
  let t := blob_type (newBlob [] ty) in
  Js.includes t "image/" || Js.includes t "audio/" || Js.includes t "video/"
  || Js.includes t "application/pdf".

(** The verdict of a check: binary or not. *)
Definition isBinary (f : MediaFetcher.Fetched) : bool :=
  match f with
  | MediaFetcher.Downloaded _ => true
  | _ => false
  end.

(** The confirmed content type of a check, when it is binary. *)
Definition confirmedType (f : MediaFetcher.Fetched) : option string :=
  match f with
  | MediaFetcher.Downloaded r => contentType r
  | _ => None
  end.


(** A redirect, if the fetch ended on one, is among the URLs [U]. *)
Definition inU (U : list string) (f : MediaFetcher.Fetched) : Prop :=
  match f with
  | MediaFetcher.RedirectTo u => In u U
  | _ => True
  end.

Definition fetchOk (U : list string) (o : outcome MediaFetcher.Fetched) : Prop :=
  match o with
  | Ret f => inU U f
  | Raise _ => True
  | OutOfFuel => False
  end.

(** What a pass through the loop body may do to the worklist: leave it
    as it is, or push one URL of [U] that was not in it. *)
Definition stepOk (U : list string) (st : MediaDownloader.LoopState)
    (s : MediaDownloader.Step) : Prop :=
  match s with
  | MediaDownloader.Continue st' =>
      MediaDownloader.urlsToTry st' = MediaDownloader.urlsToTry st
      \/ exists u, In u U /\ ~ In u (MediaDownloader.urlsToTry st)
                   /\ MediaDownloader.urlsToTry st'
                      = List.app (MediaDownloader.urlsToTry st) [u]
  | MediaDownloader.Break st' _ _ =>
      MediaDownloader.urlsToTry st' = MediaDownloader.urlsToTry st
  end.

(** The URLs of [U], counted once each, that are not in the worklist. *)
Definition missing (U : list string) (q : list string) : nat :=
  List.length (filter (fun u => negb (Js.arr_includes q u)) (nodup string_dec U)).

(** The base name of a sediment image: the custom name when there is
    one, else [dalle_] and the last path segment of the id. *)
Definition sedimentBase (ref : MediaRef) : string :=
  if Js.truthy (customName ref) then Js.show (customName ref)
  else "dalle_"
       ++ Js.pop (Js.split
                    (if Js.truthy (fileId ref) then Js.show (fileId ref)
                     else Js.replace (Js.show (assetPointer ref)) "sediment://" EmptyString)
                    "/").

(** The file names given to a list of media. *)
Definition names (media : list ChatGPTHandler.Media) : list string :=
  map ChatGPTHandler.media_filename media.

(** A buffer that starts with the PNG signature 89 50 4E 47. *)
Definition png (rest : list N) : list N := 137%N :: 80%N :: 78%N :: 71%N :: rest.




(** The file names recorded in the tally for the references. *)
Definition fileNames (files : list MediaDownloader.FileEntry) : list string :=
  flat_map (fun f => match f with
                     | MediaDownloader.MediaFile _ _ filename => [filename]
                     | MediaDownloader.DirectFile filename _ => [filename]
                     | MediaDownloader.FailedFile _ _ => []
                     end) files.

(** An entry of the tally made for a downloaded reference bears the name
    that [createSuitableFilename] gives to the reference and the content
    type of its result. *)
Definition namedBySynthesizer (f : MediaDownloader.FileEntry) : Prop :=
  match f with
  | MediaDownloader.MediaFile media result filename =>
      filename = FileUtils.createSuitableFilename media (contentType result)
  | _ => True
  end.

(** The paths handed to the download subsystem, in order. *)
Definition dispatchedPaths (tr : trace) : list string :=
  flat_map (fun e => match e with
                     | DirectDownload _ path | ChromeDownload _ path
                     | SaveBlob _ path => [path]
                     | _ => []
                     end) tr.


End Observe.

Module Fixture.
Import Host.

Definition noRef : MediaRef :=
  {| type := None; assetPointer := None; fileId := None; canvasId := None;
     customName := None; title := None; filename := None; mime_type := None;
     format := None; renderedUrl := None; download_url := None;
     messageId := None; dalle := None |}.

(** The reference of the end-to-end scenario: a generated image with a
    title hint. *)
Definition foxRef : MediaRef :=
  {| type := Some "image"; assetPointer := Some "sediment://file_abcd1234";
     fileId := None; canvasId := None; customName := None;
     title := Some "a red fox"; filename := None; mime_type := None;
     format := None; renderedUrl := None; download_url := None;
     messageId := None; dalle := None |}.

(** The same reference with a signed storage URL seen in the page. *)
Definition signedRef : MediaRef :=
  set_renderedUrl foxRef
    (Some "https://sdmntprwestus2.oaiusercontent.com/files/abcd1234/raw?se=2025&sig=k3y").

(** A host on which every download and every fetch fails. *)
Definition deadWorld : World :=
  {| chrome_runtime := true;
     chrome_downloads := true;
     hostname := "chatgpt.com";
     config := ExportConfig.Config;
     directDownload := fun _ _ _ => false;
     chromeDownload := fun _ _ _ => false;
     bgDownloadMedia := fun _ _ _ _ _ => false;
     bgFetchMedia := fun _ _ _ => BgNothing;
     fetch := fun _ _ _ => FetchResp 404 None [];
     metadata := fun _ _ _ _ => [];
     jsonRedirect := fun _ => None;
     media_extractor := true;
     page_images := [];
     decodeURIComponent := fun s => Some s;
     blobDownload := fun _ _ _ => None |}.

(** A host on which every download succeeds. *)
Definition goodWorld : World :=
  {| chrome_runtime := true;
     chrome_downloads := true;
     hostname := "chatgpt.com";
     config := ExportConfig.Config;
     directDownload := fun _ _ _ => true;
     chromeDownload := fun _ _ _ => true;
     bgDownloadMedia := fun _ _ _ _ _ => true;
     bgFetchMedia := fun _ _ _ => BgNothing;
     fetch := fun _ _ _ => FetchResp 404 None [];
     metadata := fun _ _ _ _ => [];
     jsonRedirect := fun _ => None;
     media_extractor := true;
     page_images := [];
     decodeURIComponent := fun s => Some s;
     blobDownload := fun _ _ _ => None |}.

(** A host whose every answer is a JSON body naming a URL not seen
    before: the body grows with the number of requests made, and the
    redirect read from a body grows with the body. *)
Definition freshUrl (n : nat) : string :=
  "https://files.oaiusercontent.com/file-" ++ string_of_list_ascii (repeat "x"%char n).

Definition chainWorld : World :=
  {| chrome_runtime := true;
     chrome_downloads := true;
     hostname := "chatgpt.com";
     config := ExportConfig.Config;
     directDownload := fun _ _ _ => false;
     chromeDownload := fun _ _ _ => false;
     bgDownloadMedia := fun _ _ _ _ _ => false;
     bgFetchMedia := fun tr _ _ =>
                       BgData "application/json" (123%N :: repeat 120%N (List.length tr));
     fetch := fun _ _ _ => FetchResp 404 None [];
     metadata := fun _ _ _ _ => [];
     jsonRedirect := fun bytes => Some (freshUrl (List.length bytes));
     media_extractor := true;
     page_images := [];
     decodeURIComponent := fun s => Some s;
     blobDownload := fun _ _ _ => None |}.

(** A user upload whose image in the page is served from a signed
    storage URL. *)
Definition uploadRef : MediaRef :=
  {| type := Some "image"; assetPointer := Some "file-service://file-abc123";
     fileId := None; canvasId := None; customName := None; title := None;
     filename := None; mime_type := None; format := None;
     renderedUrl :=
       Some "https://sdmntprwestus2.oaiusercontent.com/files/abc123/raw?se=2025&sig=k3y";
     download_url := None; messageId := None; dalle := None |}.

(** A content script: every download succeeds, but [chrome.downloads] is
    not available to the page. *)
Definition pageWorld : World :=
  {| chrome_runtime := true;
     chrome_downloads := false;
     hostname := "chatgpt.com";
     config := ExportConfig.Config;
     directDownload := fun _ _ _ => true;
     chromeDownload := fun _ _ _ => true;
     bgDownloadMedia := fun _ _ _ _ _ => true;
     bgFetchMedia := fun _ _ _ => BgNothing;
     fetch := fun _ _ _ => FetchResp 404 None [];
     metadata := fun _ _ _ _ => [];
     jsonRedirect := fun _ => None;
     media_extractor := true;
     page_images := [];
     decodeURIComponent := fun s => Some s;
     blobDownload := fun _ _ _ => None |}.

(** A host whose every answer is a JSON body that points back to the
    URL the worklist starts with. *)
Definition loopWorld : World :=
  {| chrome_runtime := true;
     chrome_downloads := true;
     hostname := "chatgpt.com";
     config := ExportConfig.Config;
     directDownload := fun _ _ _ => false;
     chromeDownload := fun _ _ _ => false;
     bgDownloadMedia := fun _ _ _ _ _ => false;
     bgFetchMedia := fun _ _ _ => BgData "application/json" [123%N; 125%N];
     fetch := fun _ _ _ => FetchResp 404 None [];
     metadata := fun _ _ _ _ => [];
     jsonRedirect := fun _ => Some "https://cdn.oaistatic.com/abc";
     media_extractor := true;
     page_images := [];
     decodeURIComponent := fun s => Some s;
     blobDownload := fun _ _ _ => None |}.

Definition startState : MediaDownloader.LoopState :=
  {| MediaDownloader.urlsToTry := ["https://cdn.oaistatic.com/abc"];
     MediaDownloader.errorMessages := [];
     MediaDownloader.jsonResponseUrls := [] |}.










(** The bytes of the text [{"status":"error"}]. *)
Definition errorBytes : list N :=
  map N_of_ascii
    (list_ascii_of_string
       ("{" ++ Content.dq ++ "status" ++ Content.dq ++ ":" ++ Content.dq ++ "error"
        ++ Content.dq ++ "}")).

(** The worklist that [downloadMedia] builds for the id [abc]. *)
Definition abcQueue : list string :=
  MediaDownloader.initialUrls deadWorld "abc"
    (MediaUrlGenerator.generateAlternativeUrls (Some ExportConfig.Config)
       "abc" "chat.openai.com")
    (MediaUrlGenerator.generateAlternativeUrls (Some ExportConfig.Config)
       "abc" "chatgpt.com").

(** Two generated images with different pointers and the same custom
    name. *)
Definition sunsetA : MediaRef :=
  {| type := Some "image"; assetPointer := Some "sediment://file_aaaa1111";
     fileId := None; canvasId := None; customName := Some "sunset"; title := None;
     filename := None; mime_type := None; format := None; renderedUrl := None;
     download_url := None; messageId := None; dalle := None |}.
Definition sunsetB : MediaRef :=
  {| type := Some "image"; assetPointer := Some "sediment://file_bbbb2222";
     fileId := None; canvasId := None; customName := Some "sunset"; title := None;
     filename := None; mime_type := None; format := None; renderedUrl := None;
     download_url := None; messageId := None; dalle := None |}.

(** Three references that resolve to the same base name. *)
Definition twins : list MediaRef :=
  [ set_customName signedRef (Some "image_x.png");
    set_customName signedRef (Some "image_x.png");
    set_customName signedRef (Some "image_x.png") ].

(** A key, a token, an empty cache, and two hosts for the token cache:
    one whose session endpoint answers with the token, one that is
    offline. *)
Definition sampleKey : AuthManager.jsstring := [107; 51; 121]%N.
Definition sampleToken : AuthManager.jsstring := [101; 121; 74; 104; 98; 71]%N.
Definition emptyCache : AuthManager.SessionCache :=
  {| AuthManager.token := None; AuthManager.expiry := None;
     AuthManager.tokenEncryptionKey := sampleKey |}.
Definition sessionWorld : AuthManager.World :=
  {| AuthManager.chrome_runtime := false;
     AuthManager.background := AuthManager.BgNone;
     AuthManager.session := AuthManager.SessionResp 200 (Some sampleToken) |}.
Definition offlineWorld : AuthManager.World :=
  {| AuthManager.chrome_runtime := false;
     AuthManager.background := AuthManager.BgNone;
     AuthManager.session := AuthManager.SessionReject "Failed to fetch" |}.

End Fixture.

(** Further observations: the shapes of names, references and calls
    that the later properties speak of. *)
Module Shape.
Import Host.

(** Lower-case letters, digits and the hyphen: what a file extension is
    made of. *)
Definition plain_char (c : ascii) : bool :=
  Js.is_lower c || Js.is_digit c || Js.is_char "-" c.

(** No code unit of [s] is [c]. *)
Definition free_of (c : ascii) (s : string) : bool :=
  Js.all_chars (fun x => negb (Ascii.eqb x c)) s.

(** The extension that [createSuitableFilename] chooses for a reference
    that is not a sediment image. *)
Definition chosenExtension (ref : MediaRef) (contentType : option string)
  : option string :=
  FileUtils.getAppropriateFileExtension (type ref)
    (Js.or_else contentType (mime_type ref)) (filename ref) (format ref).

(** [s] without its hyphens. *)
Definition withoutHyphens (s : string) : string :=
  Js.replace_class (Js.is_char "-") EmptyString s.

(** The canonical form 8-4-4-4-12 of a run of 32 digits. *)
Definition canonical (u : string) : string :=
  Js.take 8 u ++ "-" ++ Js.take 4 (Js.drop 8 u) ++ "-" ++ Js.take 4 (Js.drop 12 u)
    ++ "-" ++ Js.take 4 (Js.drop 16 u) ++ "-" ++ Js.take 12 (Js.drop 20 u).

(** A request to the download subsystem through the background script. *)
Definition isDirectDownload (e : event) : bool :=
  match e with
  | DirectDownload _ _ => true
  | _ => false
  end.

(** A computation that ends with a value, whatever the value. *)
Definition returns {A : Type} (m : M A) (tr : trace) : Prop :=
  exists a tr', m tr = (Ret a, tr').

(** A computation that does not run out of fuel. *)
Definition halts {A : Type} (m : M A) (tr : trace) : Prop :=
  fst (m tr) <> OutOfFuel.

(** The fuel that the candidate loop of one reference needs at most, on a
    host whose info endpoints give at most [m] URLs and whose redirects
    are among [U]: the length of the longest work list and the number of
    distinct redirects. *)
Definition enoughFuel (w : World) (m : nat) (U : list string) : nat :=
  24 + 2 * List.length (MediaUrlGenerator.regionsOf (Some (config w)))
  + List.length (MediaDownloader.regions (config w)) + m
  + List.length (nodup string_dec U).

(** What [ChatGPTHandler.extract] lets through in a file name: letters,
    digits, underscore, hyphen, dot, white space and parentheses. *)
Definition name_char (c : ascii) : bool := negb (ChatGPTHandler.unsafe_char c).

(** What [extract] guarantees of an entry of [media], for the references
    [refs] it was given. *)
Definition exported (refs : list MediaRef) (m : ChatGPTHandler.Media) : Prop :=
  Js.startsWith (ChatGPTHandler.media_url m) "http" = true
  /\ Js.equals (type (ChatGPTHandler.originalRef m)) "audio" = false
  /\ In (ChatGPTHandler.originalRef m) refs
  /\ Js.all_chars name_char (ChatGPTHandler.media_filename m) = true
  /\ Js.includes (ChatGPTHandler.media_filename m) "/" = false.

(** A reference made by the JSON scan of [extractMediaReferences]: the
    id is a non-empty run of hexadecimal digits and hyphens, and the URL
    starts with [http] and holds the id between [/files/] and [/raw?]. *)
Definition scannedOk (r : MediaRef) : Prop :=
  exists id url,
    r = MediaExtractor.scanned id url
    /\ id <> EmptyString
    /\ Js.all_chars Pattern.hex_or_dash id = true
    /\ Js.startsWith url "http" = true
    /\ Js.includes url ("/files/" ++ id ++ "/raw?") = true.

(** A reference made for an image part of a message: an image with an
    asset pointer and no rendered URL. *)
Definition pointedOk (r : MediaRef) : Prop :=
  exists pointer id d, r = MediaExtractor.pointed pointer id d /\ pointer <> EmptyString.

(** The keys under which an attachment puts its name into the map of
    attachment names: its id and, for an id that starts with [file-],
    the id without that prefix; none when the id or the name is
    missing or empty. *)
Definition keysOf (att : option string * option string) : list string :=
  if Js.truthy (fst att) && Js.truthy (snd att) then
    Js.show (fst att)
    :: (if Js.startsWith (Js.show (fst att)) "file-"
        then [Js.substring_from (Js.show (fst att)) 5] else [])
  else [].

(** The name under which [extract] lists a generated image. *)
Definition generatedName (r : MediaRef) : string :=
  "dalle_" ++ Js.show (fileId r) ++ ".jpg".


(** The GIF signature 47 49 46 38. *)
Definition startsGif (bytes : list N) : bool :=
  FileUtils.at_is bytes 0 71 && FileUtils.at_is bytes 1 73
  && FileUtils.at_is bytes 2 70 && FileUtils.at_is bytes 3 56.

End Shape.

Module Sample.
Import Host.

(** A plain document reference. *)
Definition reportRef : MediaRef :=
  {| type := Some "file"; assetPointer := Some "file-service://file-Zq3"; fileId := None;
     canvasId := None; customName := None; title := Some "Quarterly report";
     filename := Some "report.final.PDF"; mime_type := Some "application/pdf";
     format := None; renderedUrl := None; download_url := None;
     messageId := None; dalle := None |}.




(** A conversation payload that holds the signed storage URL of a
    generated image, and a reference to that image. *)
Definition signedUrl : string :=
  "https://sdmntprwestus2.oaiusercontent.com/files/00000000-aaaa-bbbb-cccc-000000000001/raw?se=2025&sig=k3y".

Definition signedConversation : Conversation :=
  {| conv_json := "{" ++ Content.dq ++ "url" ++ Content.dq ++ ":" ++ Content.dq
                  ++ signedUrl ++ Content.dq ++ "}";
     conv_folder := "chat_2025-01-01_c1" |}.

Definition generatedRef : MediaRef :=
  {| type := Some "image";
     assetPointer := Some "sediment://file_00000000aaaabbbbcccc000000000001";
     fileId := None; canvasId := None; customName := None; title := None;
     filename := None; mime_type := None; format := None; renderedUrl := None;
     download_url := None; messageId := None; dalle := None |}.

(** A fetched PNG that was answered with a JSON content type. *)
Definition mistyped : Result :=
  MediaFetcher.fetched "file-abc" Fixture.uploadRef "application/json"
    (Observe.png []) "signed_url_fetch".

(** The same bytes in a response that has no content type. *)
Definition untyped : Result :=
  {| success := true; res_fileId := Some "file-abc"; res_type := Some "image";
     contentType := None; method := Some "signed_url_fetch"; res_renderedUrl := None;
     res_blob := Some (newBlob (Observe.png []) EmptyString); res_filename := None;
     originalName := None; error := None |}.

(** What [fetchDirectly] makes of the same bytes. *)
Definition directPng : Result :=
  MediaFetcher.fetched "file-abc" Fixture.uploadRef "image/png"
    (Observe.png []) "direct_fetch".

(** References of three kinds: a voice clip, an upload, and a generated
    image whose rendered URL was found. *)
Definition voiceRef : MediaRef :=
  {| type := Some "audio"; assetPointer := Some "sediment://file_0a"; fileId := None;
     canvasId := None; customName := None; title := None; filename := None;
     mime_type := None; format := None;
     renderedUrl := Some "https://files.oaiusercontent.com/file-0a"; download_url := None;
     messageId := None; dalle := None |}.

Definition mixedRefs : list MediaRef :=
  [ voiceRef; Fixture.uploadRef; set_customName Fixture.signedRef (Some "a/b\c.png") ].

(** A conversation with a generated image in its text and an uploaded
    photo in a message. *)
Definition photoPart : MediaExtractor.Part :=
  {| MediaExtractor.content_type := Some "image_asset_pointer";
     MediaExtractor.asset_pointer := Some "file-service://file-Zq3";
     MediaExtractor.image_asset_pointer := None;
     MediaExtractor.part_dalle := None |}.

Definition photoNode : MediaExtractor.Node :=
  {| MediaExtractor.message :=
       Some {| MediaExtractor.msg_id := Some "m1";
               MediaExtractor.parts := Some [photoPart];
               MediaExtractor.attachments := Some [(Some "file-Zq3", Some "holiday.png")] |} |}.

Definition pictureData : MediaExtractor.ConversationData :=
  {| MediaExtractor.json := conv_json signedConversation;
     MediaExtractor.data_title := Some "Pictures";
     MediaExtractor.mapping := Some [photoNode] |}.

(** A body that is error data, and the blob that holds its text. *)
Definition notFound : Content.json :=
  Content.JObject [("status", Content.JString "error");
                   ("error_code", Content.JString "file_not_found")].

Definition notFoundBlob : Blob := newBlob Fixture.errorBytes "application/json".

End Sample.

(* ================================================================== *)
(** * Properties *)
(* ================================================================== *)

(** ** Strings and lists *)

Section StringFacts.
Import Js.


Lemma startsWith_refl_app (p s : string) : startsWith (p ++ s) p = true.
Proof.
  induction p as [|c p IH]; simpl.
  - destruct s; reflexivity.
  - rewrite Ascii.eqb_refl. exact IH.
Qed.



Lemma append_assoc (a b c : string) : (a ++ b) ++ c = a ++ (b ++ c).
Proof. induction a as [|x a IH]; simpl; [reflexivity | now rewrite IH]. Qed.

Lemma append_nil_r (a : string) : a ++ EmptyString = a.
Proof. induction a as [|x a IH]; simpl; [reflexivity | now rewrite IH]. Qed.

Lemma length_append (a b : string) :
  String.length (a ++ b) = String.length a + String.length b.
Proof. induction a as [|x a IH]; simpl; [reflexivity | now rewrite IH]. Qed.

Lemma append_inv_head (a b c : string) : a ++ b = a ++ c -> b = c.
Proof.
  induction a as [|x a IH]; simpl; intros H; [exact H|].
  injection H as H. auto.
Qed.

Lemma append_inv_tail (a b c : string) : a ++ c = b ++ c -> a = b.
Proof.
  revert b. induction a as [|x a IH]; intros [|y b] H; simpl in H.
  - reflexivity.
  - apply (f_equal String.length) in H. simpl in H. rewrite length_append in H. lia.
  - apply (f_equal String.length) in H. simpl in H. rewrite length_append in H. lia.
  - injection H as Hx H. subst y. f_equal. apply IH. exact H.
Qed.

Lemma take_drop (n : nat) (s : string) : take n s ++ drop n s = s.
Proof.
  revert s. induction n as [|n IH]; intros [|c s]; simpl; try reflexivity.
  now rewrite IH.
Qed.

Lemma take_length_le (n : nat) (s : string) : String.length (take n s) <= n.
Proof.
  revert s. induction n as [|n IH]; intros [|c s]; simpl; try lia.
  specialize (IH s). lia.
Qed.

Lemma take_all (n : nat) (s : string) : String.length s <= n -> take n s = s.
Proof.
  revert s. induction n as [|n IH]; intros [|c s] H; simpl in *;
    try reflexivity; try lia.
  f_equal. apply IH. lia.
Qed.

Lemma length_string_of_list (l : list ascii) :
  String.length (string_of_list_ascii l) = List.length l.
Proof. induction l as [|c l IH]; simpl; [reflexivity | now rewrite IH]. Qed.

Lemma arr_includes_In (l : list string) (x : string) :
  arr_includes l x = true <-> In x l.
Proof.
  unfold arr_includes. rewrite existsb_exists. split.
  - intros [y [Hy E]]. apply String.eqb_eq in E. now subst.
  - intros H. exists x. split; [exact H | apply String.eqb_refl].
Qed.

Lemma arr_includes_not_In (l : list string) (x : string) :
  arr_includes l x = false <-> ~ In x l.
Proof.
  rewrite <- arr_includes_In. destruct (arr_includes l x); split; intros H;
    congruence || (exfalso; apply H; reflexivity) || discriminate.
Qed.

Lemma decimal_inj (a b : nat) : decimal a = decimal b -> a = b.
Proof.
  unfold decimal. intros H.
  apply (f_equal NilEmpty.uint_of_string) in H.
  rewrite !NilEmpty.usu in H. injection H as H.
  apply (f_equal Nat.of_uint) in H.
  now rewrite !DecimalNat.Unsigned.of_to in H.
Qed.

End StringFacts.

Section FilterFacts.
Context {A : Type}.

Lemma filter_length_mono (f g : A -> bool) (l : list A) :
  (forall x, f x = true -> g x = true) ->
  List.length (filter f l) <= List.length (filter g l).
Proof.
  intros H. induction l as [|x l IH]; simpl; [lia|].
  destruct (f x) eqn:Ef.
  - rewrite (H x Ef). simpl. lia.
  - destruct (g x); simpl; lia.
Qed.

Lemma filter_length_lt (f g : A -> bool) (l : list A) (u : A) :
  (forall x, f x = true -> g x = true) ->
  In u l -> g u = true -> f u = false ->
  List.length (filter f l) < List.length (filter g l).
Proof.
  intros H Hin Hg Hf. induction l as [|x l IH]; simpl; [destruct Hin|].
  destruct Hin as [-> | Hin].
  - rewrite Hf, Hg. simpl. pose proof (filter_length_mono f g l H). lia.
  - specialize (IH Hin). destruct (f x) eqn:Ef.
    + rewrite (H x Ef). simpl. lia.
    + destruct (g x); simpl; lia.
Qed.

End FilterFacts.

(** ** More on strings *)

Section MoreStringFacts.
Import Js.

Lemma all_chars_impl (p q : ascii -> bool) (s : string) :
  (forall c, p c = true -> q c = true) -> all_chars p s = true -> all_chars q s = true.
Proof.
  intros H. induction s as [|c s IH]; simpl; [reflexivity|].
  intros E. apply andb_true_iff in E as [E1 E2]. now rewrite (H c E1), IH.
Qed.

Lemma all_chars_app (p : ascii -> bool) (a b : string) :
  all_chars p (a ++ b) = all_chars p a && all_chars p b.
Proof.
  induction a as [|c a IH]; simpl; [reflexivity|]. now rewrite IH, andb_assoc.
Qed.

Lemma all_chars_take (p : ascii -> bool) (n : nat) (s : string) :
  all_chars p s = true -> all_chars p (take n s) = true.
Proof.
  revert s. induction n as [|n IH]; intros [|c s]; simpl; try reflexivity.
  intros E. apply andb_true_iff in E as [E1 E2]. now rewrite E1, IH.
Qed.

Lemma all_chars_drop (p : ascii -> bool) (n : nat) (s : string) :
  all_chars p s = true -> all_chars p (drop n s) = true.
Proof.
  revert s. induction n as [|n IH]; intros [|c s]; simpl; try reflexivity; auto.
  intros E. apply andb_true_iff in E as [E1 E2]. now apply IH.
Qed.

Lemma take_app_length (a b : string) : take (String.length a) (a ++ b) = a.
Proof. induction a as [|c a IH]; simpl; [now destruct b | now rewrite IH]. Qed.

Lemma drop_app_length (a b : string) : drop (String.length a) (a ++ b) = b.
Proof. induction a as [|c a IH]; simpl; [reflexivity | exact IH]. Qed.

Lemma substring_0 (s : string) (n : nat) : substring s 0 n = take n s.
Proof. unfold substring. now rewrite Nat.max_0_l, Nat.min_0_l, Nat.sub_0_r. Qed.

Lemma length_take (n : nat) (s : string) :
  String.length (take n s) = Nat.min n (String.length s).
Proof.
  revert s. induction n as [|n IH]; intros [|c s]; simpl; try reflexivity.
  now rewrite IH.
Qed.

Lemma includes_startsWith (s p : string) :
  startsWith s p = true -> includes s p = true.
Proof. intros H. destruct s; cbn [includes]; rewrite H; reflexivity. Qed.

Lemma includes_mid (a d b : string) : includes (a ++ d ++ b) d = true.
Proof.
  induction a as [|c a IH].
  - apply includes_startsWith. exact (startsWith_refl_app d b).
  - simpl. rewrite IH. apply orb_true_r.
Qed.

Lemma startsWith_split (s p : string) :
  startsWith s p = true -> s = p ++ drop (String.length p) s.
Proof.
  revert s. induction p as [|c p IH]; intros [|d s]; simpl; try reflexivity;
    try discriminate.
  intros E. apply andb_true_iff in E as [E1 E2]. apply Ascii.eqb_eq in E1. subst d.
  f_equal. now apply IH.
Qed.

Lemma includes_split (s p : string) :
  includes s p = true -> exists a b, s = a ++ p ++ b.
Proof.
  induction s as [|c s IH]; simpl.
  - rewrite orb_false_r. intros E. exists EmptyString, EmptyString.
    destruct p; [reflexivity | discriminate E].
  - intros E. apply orb_true_iff in E as [E | E].
    + exists EmptyString, (drop (String.length p) (String c s)).
      now apply (startsWith_split (String c s) p).
    + destruct (IH E) as [a [b ->]]. now exists (String c a), b.
Qed.

Lemma includes_free (c : ascii) (s : string) :
  all_chars (fun x => negb (Ascii.eqb x c)) s = true ->
  includes s (String c EmptyString) = false.
Proof.
  induction s as [|d s IH]; simpl; [reflexivity|].
  intros E. apply andb_true_iff in E as [E1 E2]. rewrite (IH E2).
  apply negb_true_iff in E1. rewrite Ascii.eqb_sym, E1. reflexivity.
Qed.

Lemma includes_free_inv (c : ascii) (s : string) :
  includes s (String c EmptyString) = false ->
  all_chars (fun x => negb (Ascii.eqb x c)) s = true.
Proof.
  induction s as [|d s IH]; cbn [includes all_chars startsWith]; [reflexivity|].
  intros E. apply orb_false_iff in E as [E1 E2].
  rewrite (IH E2), andb_true_r.
  destruct (Ascii.eqb_spec d c) as [-> | N]; [|reflexivity].
  rewrite Ascii.eqb_refl in E1. destruct s; discriminate E1.
Qed.

Lemma lastIndexOf_from_free (c : ascii) (s : string) (i : nat) (acc : option nat) :
  all_chars (fun x => negb (Ascii.eqb x c)) s = true ->
  lastIndexOf_from s c i acc = acc.
Proof.
  revert i acc. induction s as [|d s IH]; intros i acc; simpl; [reflexivity|].
  intros E. apply andb_true_iff in E as [E1 E2]. apply negb_true_iff in E1.
  rewrite E1. now apply IH.
Qed.

Lemma lastIndexOf_from_app (c : ascii) (a s : string) (i : nat) (acc : option nat) :
  lastIndexOf_from (a ++ s) c i acc
  = lastIndexOf_from s c (i + String.length a) (lastIndexOf_from a c i acc).
Proof.
  revert i acc. induction a as [|d a IH]; intros i acc; simpl.
  - now rewrite Nat.add_0_r.
  - rewrite IH. f_equal. lia.
Qed.

Lemma lastIndexOf_last (c : ascii) (a e : string) :
  all_chars (fun x => negb (Ascii.eqb x c)) e = true ->
  lastIndexOf (a ++ String c e) c = Some (String.length a).
Proof.
  intros E. unfold lastIndexOf. rewrite lastIndexOf_from_app. simpl.
  rewrite Ascii.eqb_refl. now apply lastIndexOf_from_free.
Qed.

Lemma length_toLowerCase (s : string) : String.length (toLowerCase s) = String.length s.
Proof. induction s as [|c s IH]; simpl; [reflexivity | now rewrite IH]. Qed.

Lemma truthy_nonempty (s : string) : truthy (Some s) = true <-> s <> EmptyString.
Proof.
  unfold truthy. destruct (String.eqb_spec s EmptyString); simpl; split; intros H;
    congruence.
Qed.

Lemma truthy_app_r (a b : string) : b <> EmptyString -> truthy (Some (a ++ b)) = true.
Proof.
  intros H. apply truthy_nonempty. intros E. apply (f_equal String.length) in E.
  rewrite length_append in E. destruct b; [congruence | simpl in E; lia].
Qed.

End MoreStringFacts.

(** ** The candidate list of the URL generator *)

Section CandidateUrls.
Import Js MediaUrlGenerator Observe.



End CandidateUrls.

(** ** The fetch strategy executor *)

Section SignedUrl.
Import Js Host MediaFetcher MediaDownloader Observe.

Lemma generatorCalls_app (a b : trace) :
  generatorCalls (List.app a b) = generatorCalls a + generatorCalls b.
Proof. unfold generatorCalls. now rewrite filter_app, length_app. Qed.

(** C2, as the code has it.  For a sediment reference whose [renderedUrl]
    has the signed form ([sdmntpr], [/raw], [sig=]), if the background
    script reports that the download of that URL succeeded, then
    [downloadMedia] returns success with content type [image/png] by the
    method [direct_sediment_download_with_sas], after exactly that one
    download request and without any call of the URL generator. *)
Theorem C2_signed_url_download_skips_generator
    (w : World) (ref : MediaRef) (token : string) (conv : option Conversation)
    (fuel : nat) (tr : trace) :
  let url := show (renderedUrl ref) in
  let path := downloadFolderName conv ++ "/media/"
              ++ FileUtils.createSuitableFilename ref (Some "image/png") in
  isSediment ref = true ->
  hasSasUrl ref = true ->
  directDownload w tr url path = true ->
  exists r,
    downloadMedia w ref token conv fuel tr
      = (Ret r, List.app tr [DirectDownload url path])
    /\ success r = true
    /\ contentType r = Some "image/png"
    /\ method r = Some "direct_sediment_download_with_sas"
    /\ generatorCalls (List.app tr [DirectDownload url path]) = generatorCalls tr.
Proof.
  intros url path Hsed Hsas Hok.
  eexists. split.
  - unfold downloadMedia, try_catch, bind, sedimentStage, sasDownload, bind, ask.
    rewrite Hsed, Hsas. fold url. fold path. rewrite Hok. reflexivity.
  - repeat split. rewrite generatorCalls_app. apply Nat.add_0_r.
Qed.

Lemma C2_witness :
  exists r,
    downloadMedia Fixture.goodWorld Fixture.signedRef "token" None 0 []
      = (Ret r,
         [DirectDownload (show (renderedUrl Fixture.signedRef))
            "chatgpt_export/media/dalle_file_abcd1234.png"])
    /\ success r = true
    /\ contentType r = Some "image/png"
    /\ method r = Some "direct_sediment_download_with_sas"
    /\ generatorCalls [DirectDownload (show (renderedUrl Fixture.signedRef))
                         "chatgpt_export/media/dalle_file_abcd1234.png"] = 0.
Proof.
  apply (C2_signed_url_download_skips_generator
           Fixture.goodWorld Fixture.signedRef "token" None 0 []); reflexivity.
Defined.

(** C2 fails as stated, twice.  A sediment reference carries a signed
    [renderedUrl], the download of it is refused (and so is every later
    attempt): the executor goes on to call the URL generator, twice, and
    returns failure.  A user upload carries a signed [renderedUrl] and
    every download would succeed: the signed URL is never handed to the
    background script, and the generator is called twice before the
    first download. *)
Lemma C2_counterexample :
  (hasSasUrl Fixture.signedRef = true
   /\ ~ (exists r tr',
           downloadMedia Fixture.deadWorld Fixture.signedRef "token" None 200 []
             = (Ret r, tr')
           /\ success r = true /\ generatorCalls tr' = 0))
  /\ (hasSasUrl Fixture.uploadRef = true
      /\ ~ (exists r tr',
              downloadMedia Fixture.pageWorld Fixture.uploadRef "token" None 200 []
                = (Ret r, tr')
              /\ success r = true /\ generatorCalls tr' = 0)).
Proof.
  split; (split; [reflexivity|]); intros [r [tr' [H [Hs Hg]]]].
  - assert (E : generatorCalls
                  (snd (downloadMedia Fixture.deadWorld Fixture.signedRef
                          "token" None 200 []))
                = 2) by (vm_compute; reflexivity).
    rewrite H in E. simpl in E. congruence.
  - assert (E : generatorCalls
                  (snd (downloadMedia Fixture.pageWorld Fixture.uploadRef
                          "token" None 200 []))
                = 2) by (vm_compute; reflexivity).
    rewrite H in E. simpl in E. congruence.
Qed.

End SignedUrl.

Section CandidateLoop.
Import Js Host MediaFetcher MediaDownloader Observe.

Variable w : World.
Variable ref : MediaRef.
Variable token fileId : string.
Variable U : list string.
Hypothesis HU : forall bytes u, jsonRedirect w bytes = Some u -> In u U.

Lemma redirectOrNull_inU (bytes : list N) : inU U (redirectOrNull w bytes).
Proof.
  unfold redirectOrNull.
  destruct (jsonRedirect w bytes) as [u|] eqn:E; simpl; [|exact I].
  destruct (negb (u =? EmptyString)%string); simpl; [eauto | exact I].
Qed.

Lemma checkBackground_inU (mime : string) (bytes : list N) :
  inU U (checkBackground w mime bytes fileId ref).
Proof.
  unfold checkBackground. destruct (negb _); [apply redirectOrNull_inU|].
  destruct (FileUtils.detectFileTypeFromBytes _); exact I.
Qed.

Lemma checkDirect_inU (h : option string) (bytes : list N) :
  inU U (checkDirect w h bytes fileId ref).
Proof.
  unfold checkDirect. destruct (negb _); [apply redirectOrNull_inU | exact I].
Qed.

Lemma fetchViaBackgroundScript_ok (url : string) (tr : trace) :
  fetchOk U (fst (fetchViaBackgroundScript w url token fileId ref tr)).
Proof.
  unfold fetchViaBackgroundScript. destruct (chrome_runtime w); simpl; [|exact I].
  unfold bind, ask. destruct (bgFetchMedia w tr url token); simpl; try exact I.
  apply checkBackground_inU.
Qed.

Lemma fetchDirectly_ok (url : string) (tr : trace) :
  fetchOk U (fst (fetchDirectly w url token fileId ref tr)).
Proof.
  unfold fetchDirectly, bind, ask.
  destruct (fetch w tr url true) as [msg | st h bytes]; simpl; [exact I|].
  destruct (Nat.eqb st 401 && isPublicCdn url); simpl.
  - destruct (fetch w _ url false) as [msg | st' h' bytes']; simpl; [exact I|].
    destruct (ok st'); simpl; [apply checkDirect_inU | exact I].
  - destruct (ok st); simpl; [apply checkDirect_inU | exact I].
Qed.

Lemma noteRedirect_ok (st0 st : LoopState) (u : string) :
  urlsToTry st = urlsToTry st0 -> In u U ->
  stepOk U st0 (Continue (noteRedirect st u)).
Proof.
  intros E Hu. simpl. rewrite E.
  destruct (arr_includes (urlsToTry st0) u) eqn:Ei.
  - now left.
  - right. exists u. repeat split; auto. now apply arr_includes_not_In.
Qed.

(** A pass through the loop body always ends, and pushes at most one
    URL, which is new to the worklist. *)
Lemma attempt_ok (st : LoopState) (url : string) (tr : trace) :
  exists s tr', attempt w ref token fileId st url tr = (Ret s, tr') /\ stepOk U st s.
Proof.
  unfold attempt, caught, try_catch, bind.
  pose proof (fetchViaBackgroundScript_ok url tr) as H1.
  destruct (fetchViaBackgroundScript w url token fileId ref tr) as [o1 tr1].
  simpl in H1.
  assert (D : forall st1 tr1, urlsToTry st1 = urlsToTry st ->
            exists s tr',
              match
                match
                  match fetchDirectly w url token fileId ref tr1 with
                  | (Ret a, tr') => ret (inr a : string + Fetched) tr'
                  | (Raise msg, tr') => (Raise msg, tr')
                  | (OutOfFuel, tr') => (OutOfFuel, tr')
                  end
                with
                | (Raise msg, tr') => ret (inl msg) tr'
                | other => other
                end
              with
              | (Ret a, tr') =>
                  match a with
                  | inl msg => ret (Continue (pushError st1 msg))
                  | inr Null => ret (Continue st1)
                  | inr (RedirectTo redirectUrl) =>
                      ret (Continue (noteRedirect st1 redirectUrl))
                  | inr (Downloaded result) => ret (Break st1 result url)
                  end tr'
              | (Raise msg, tr') => (Raise msg, tr')
              | (OutOfFuel, tr') => (OutOfFuel, tr')
              end = (Ret s, tr') /\ stepOk U st s).
  { intros st1 tr2 E.
    pose proof (fetchDirectly_ok url tr2) as H2.
    destruct (fetchDirectly w url token fileId ref tr2) as [o2 tr3]. simpl in H2.
    destruct o2 as [f | msg |]; simpl; [| |destruct H2].
    - destruct f as [| u | r]; simpl; eexists; eexists; (split; [reflexivity|]).
      + now left.
      + now apply noteRedirect_ok.
      + exact E.
    - eexists; eexists; split; [reflexivity|]. left. exact E. }
  destruct o1 as [f | msg |]; simpl; [| |destruct H1].
  - destruct f as [| u | r]; simpl.
    + apply D. reflexivity.
    + eexists; eexists; split; [reflexivity|]. now apply noteRedirect_ok.
    + eexists; eexists; split; [reflexivity|]. reflexivity.
  - apply D. reflexivity.
Qed.

Lemma missing_le (q : list string) : missing U q <= List.length (nodup string_dec U).
Proof. apply filter_length_le. Qed.

Lemma missing_push (q : list string) (u : string) :
  In u U -> ~ In u q -> missing U (List.app q [u]) < missing U q.
Proof.
  intros Hu Hq. unfold missing.
  apply (filter_length_lt _ _ _ u).
  - intros x Hx. apply negb_true_iff in Hx. apply negb_true_iff.
    apply arr_includes_not_In. apply arr_includes_not_In in Hx.
    intros Hin. apply Hx. apply in_or_app. now left.
  - now apply nodup_In.
  - apply negb_true_iff. now apply arr_includes_not_In.
  - apply negb_false_iff. apply arr_includes_In. apply in_or_app. right. now left.
Qed.

(** The loop ends within as many passes as there are URLs left in the
    worklist plus known URLs not yet in it. *)
Lemma tryUrls_terminates (fuel : nat) : forall i st tr,
  missing U (urlsToTry st) + (List.length (urlsToTry st) - i) <= fuel ->
  exists st' found tr' extra,
    tryUrls w ref token fuel fileId i st tr = (Ret (st', found), tr')
    /\ urlsToTry st' = List.app (urlsToTry st) extra
    /\ NoDup extra
    /\ (forall u, In u extra -> In u U /\ ~ In u (urlsToTry st)).
Proof.
  induction fuel as [|fuel IH]; intros i st tr Hm.
  - assert (Hn : nth_error (urlsToTry st) i = None) by (apply nth_error_None; lia).
    simpl. rewrite Hn. exists st, None, tr, [].
    rewrite app_nil_r. repeat split; try constructor; simpl in *; contradiction.
  - simpl. destruct (nth_error (urlsToTry st) i) as [url|] eqn:Hn.
    + assert (Hi : i < List.length (urlsToTry st))
        by (apply nth_error_Some; congruence).
      unfold bind.
      destruct (attempt_ok st url tr) as [s [tr1 [Ea Hs]]]. rewrite Ea.
      destruct s as [st1 | st1 r u1]; simpl in Hs.
      * destruct Hs as [E | [u [HuU [Hnot E]]]].
        -- destruct (IH (S i) st1 tr1)
             as [st' [found [tr' [extra [Er [Eq [Hnd Hex]]]]]]].
           { rewrite E. lia. }
           exists st', found, tr', extra. rewrite Er, Eq, E.
           repeat split; auto; apply Hex in H; rewrite E in H; tauto.
        -- destruct (IH (S i) st1 tr1)
             as [st' [found [tr' [extra [Er [Eq [Hnd Hex]]]]]]].
           { rewrite E. pose proof (missing_push _ _ HuU Hnot).
             rewrite length_app. simpl. lia. }
           exists st', found, tr', (u :: extra). rewrite Er, Eq, E.
           rewrite <- app_assoc. simpl. repeat split.
           ++ constructor; [|exact Hnd].
              intros Hin. apply Hex in Hin. destruct Hin as [_ Hin].
              apply Hin. rewrite E. apply in_or_app. right. now left.
           ++ destruct H as [<- | H]; [exact HuU | now apply Hex in H].
           ++ destruct H as [<- | H]; [exact Hnot|].
              apply Hex in H. destruct H as [_ H]. intros Hin. apply H.
              rewrite E. apply in_or_app. now left.
      * exists st1, (Some (r, u1)), tr1, []. rewrite Hs, app_nil_r.
        repeat split; try constructor; simpl in *; contradiction.
    + exists st, None, tr, []. rewrite app_nil_r.
      repeat split; try constructor; simpl in *; contradiction.
Qed.

(** C3, as the code has it.  Suppose every redirect URL that a JSON body
    can yield belongs to a finite list [U].  Then the candidate loop,
    started on any worklist, ends within as many passes as the worklist
    is long plus the number of distinct URLs of [U]; the worklist it
    ends with is the initial one followed by redirect URLs of [U] that
    were not in it, each pushed once; so its length never exceeds the
    initial length plus the number of distinct URLs of [U].  A redirect
    to a URL already in the worklist pushes nothing. *)
Theorem C3_redirects_queued_once_and_loop_ends
    (fuel : nat) (st : LoopState) (tr : trace) :
  List.length (urlsToTry st) + List.length (nodup string_dec U) <= fuel ->
  exists st' found tr' extra,
    tryUrls w ref token fuel fileId 0 st tr = (Ret (st', found), tr')
    /\ urlsToTry st' = List.app (urlsToTry st) extra
    /\ NoDup extra
    /\ (forall u, In u extra -> In u U /\ ~ In u (urlsToTry st))
    /\ List.length (urlsToTry st')
       <= List.length (urlsToTry st) + List.length (nodup string_dec U).
Proof.
  intros Hf.
  destruct (tryUrls_terminates fuel 0 st tr)
    as [st' [found [tr' [extra [E [Eq [Hnd Hex]]]]]]].
  { pose proof (missing_le (urlsToTry st)). lia. }
  exists st', found, tr', extra. repeat split; auto; try (now apply Hex).
  rewrite Eq, length_app. apply Nat.add_le_mono_l.
  apply NoDup_incl_length; [exact Hnd|].
  intros x Hx. apply nodup_In. now apply Hex.
Qed.

End CandidateLoop.

Section RedirectChains.
Import Js Host MediaFetcher MediaDownloader Observe.

Lemma C3_witness :
  exists st' found tr' extra,
    tryUrls Fixture.loopWorld Fixture.foxRef "token" 2 "sediment://file_abcd1234" 0
      Fixture.startState [] = (Ret (st', found), tr')
    /\ urlsToTry st' = List.app (urlsToTry Fixture.startState) extra
    /\ NoDup extra
    /\ (forall u, In u extra ->
          In u ["https://cdn.oaistatic.com/abc"]
          /\ ~ In u (urlsToTry Fixture.startState))
    /\ List.length (urlsToTry st')
       <= List.length (urlsToTry Fixture.startState)
          + List.length (nodup string_dec ["https://cdn.oaistatic.com/abc"]).
Proof.
  apply (C3_redirects_queued_once_and_loop_ends
           Fixture.loopWorld Fixture.foxRef "token" "sediment://file_abcd1234"
           ["https://cdn.oaistatic.com/abc"]).
  - intros bytes u H. simpl in H. injection H as <-. simpl. auto.
  - simpl. lia.
Defined.

Lemma freshUrl_length (n : nat) : String.length (Fixture.freshUrl n) = 38 + n.
Proof.
  unfold Fixture.freshUrl. simpl.
  rewrite length_string_of_list, repeat_length. reflexivity.
Qed.

Lemma json_body_not_binary (rest : list N) :
  FileUtils.isBinaryBlob (newBlob (123%N :: rest) "application/json") = false.
Proof. reflexivity. Qed.

Lemma fetch_chain (ref : MediaRef) (token fileId url : string) (tr : trace) :
  fetchViaBackgroundScript Fixture.chainWorld url token fileId ref tr
  = (Ret (RedirectTo (Fixture.freshUrl (S (List.length tr)))),
     List.app tr [BgFetchMedia url token]).
Proof.
  unfold fetchViaBackgroundScript, bind, ask.
  change (chrome_runtime Fixture.chainWorld) with true.
  cbv beta iota. unfold negb at 1. cbv beta iota.
  change (bgFetchMedia Fixture.chainWorld tr url token)
    with (BgData "application/json" (123%N :: repeat 120%N (List.length tr))).
  cbv beta iota. unfold ret, checkBackground. cbv zeta.
  rewrite json_body_not_binary. unfold negb. cbv iota.
  unfold redirectOrNull.
  change (jsonRedirect Fixture.chainWorld (123%N :: repeat 120%N (List.length tr)))
    with (Some (Fixture.freshUrl
                  (List.length (123%N :: repeat 120%N (List.length tr))))).
  cbv iota beta. simpl List.length. rewrite repeat_length.
  reflexivity.
Qed.

Lemma attempt_chain (ref : MediaRef) (token fileId : string)
    (st : LoopState) (url : string) (tr : trace) :
  attempt Fixture.chainWorld ref token fileId st url tr
  = (Ret (Continue (noteRedirect st (Fixture.freshUrl (S (List.length tr))))),
     List.app tr [BgFetchMedia url token]).
Proof.
  unfold attempt, caught, try_catch, bind. rewrite fetch_chain. reflexivity.
Qed.

(** On a host that answers every request with a redirect to a URL not
    seen before, the loop is always one URL short of finishing. *)
Lemma chain_diverges (ref : MediaRef) (token fileId : string) (fuel : nat) :
  forall i st tr,
    List.length (urlsToTry st) = S i ->
    (forall x, In x (urlsToTry st) -> String.length x <= 38 + List.length tr) ->
    fst (tryUrls Fixture.chainWorld ref token fuel fileId i st tr) = OutOfFuel.
Proof.
  induction fuel as [|fuel IH]; intros i st tr Hl Hb.
  - simpl. destruct (nth_error (urlsToTry st) i) eqn:E; [reflexivity|].
    apply nth_error_None in E. lia.
  - simpl. destruct (nth_error (urlsToTry st) i) as [url|] eqn:E.
    + unfold bind. rewrite attempt_chain.
      assert (Hn : arr_includes (urlsToTry st)
                     (Fixture.freshUrl (S (List.length tr))) = false).
      { apply arr_includes_not_In. intros Hin. apply Hb in Hin.
        rewrite freshUrl_length in Hin. lia. }
      apply IH.
      * simpl. rewrite Hn, length_app. simpl. lia.
      * simpl. rewrite Hn. intros x Hx. rewrite length_app. simpl.
        apply in_app_or in Hx. destruct Hx as [Hx | [<- | []]].
        -- apply Hb in Hx. lia.
        -- rewrite freshUrl_length. lia.
    + apply nth_error_None in E. lia.
Qed.

(** C3 fails as stated.  The loop does not end for every input: on a
    host whose JSON answers always name a URL not seen before, it runs
    out of any number of passes.  And the worklist is not bounded by the
    number of distinct URLs: the one built for the id [abc] already holds
    the same URL several times before any fetch. *)
Lemma C3_counterexample :
  (forall fuel,
     fst (tryUrls Fixture.chainWorld Fixture.foxRef "token" fuel
            "sediment://file_abcd1234" 0 Fixture.startState []) = OutOfFuel)
  /\ List.length (nodup string_dec Fixture.abcQueue) < List.length Fixture.abcQueue.
Proof.
  split.
  - intros fuel. apply chain_diverges; [reflexivity|].
    intros x [<- | []]. simpl. lia.
  - vm_compute. lia.
Qed.

End RedirectChains.

(** ** File names *)

Section SedimentNames.
Import Js FileUtils MediaDownloader Observe.

Lemma cap200 (s : string) :
  (if Nat.ltb 200 (String.length s) then substring s 0 200 else s) = take 200 s.
Proof.
  destruct (Nat.ltb 200 (String.length s)) eqn:E.
  - reflexivity.
  - apply Nat.ltb_ge in E. symmetry. now apply take_all.
Qed.

(** C4, as the code has it.  For every sediment reference and every
    content type, [createSuitableFilename] returns a name with the
    extension [.png], made of the custom name, or else of [dalle_] and
    the last path segment of the id, cut to 200 code units.  The
    reference with pointer [sediment://file_abcd1234] and title
    [a red fox] is named [dalle_file_abcd1234.png]; once the batch
    orchestrator has copied the sanitized title into the custom name, it
    is named [a_red_fox.png]. *)
Theorem C4_sediment_images_are_named_png (ref : MediaRef) (ct : option string) :
  isSediment ref = true ->
  createSuitableFilename ref ct = take 200 (sedimentBase ref) ++ ".png"
  /\ String.length (take 200 (sedimentBase ref)) <= 200
  /\ createSuitableFilename Fixture.foxRef ct = "dalle_file_abcd1234.png"
  /\ createSuitableFilename (enhance Fixture.foxRef) ct = "a_red_fox.png".
Proof.
  intros H. unfold isSediment in H. repeat split.
  - unfold createSuitableFilename. rewrite H. cbv zeta. rewrite cap200. reflexivity.
  - apply take_length_le.
Qed.

Lemma C4_witness :
  createSuitableFilename Fixture.foxRef (Some "image/jpeg")
  = take 200 (sedimentBase Fixture.foxRef) ++ ".png"
  /\ String.length (take 200 (sedimentBase Fixture.foxRef)) <= 200
  /\ createSuitableFilename Fixture.foxRef (Some "image/jpeg") = "dalle_file_abcd1234.png"
  /\ createSuitableFilename (enhance Fixture.foxRef) (Some "image/jpeg") = "a_red_fox.png".
Proof.
  apply (C4_sediment_images_are_named_png Fixture.foxRef (Some "image/jpeg")).
  reflexivity.
Defined.

(** C4 fails as stated: the reference of the scenario is not named
    [abcd1234-a_red_fox.png], neither as it is extracted nor after the
    orchestrator has prepared it. *)
Lemma C4_counterexample :
  isSediment Fixture.foxRef = true
  /\ createSuitableFilename Fixture.foxRef (Some "image/png") <> "abcd1234-a_red_fox.png"
  /\ createSuitableFilename (enhance Fixture.foxRef) (Some "image/png")
     <> "abcd1234-a_red_fox.png".
Proof. repeat split; vm_compute; discriminate. Qed.

End SedimentNames.

Section Registry.
Import Js ChatGPTHandler Observe.

(** A suffixed name is the base name with [_k] inserted at a place that
    does not depend on [k]. *)
Lemma suffixed_shape (b : string) :
  exists pre post,
    b = pre ++ post /\ forall k, suffixed b k = pre ++ "_" ++ decimal k ++ post.
Proof.
  unfold suffixed. destruct (lastIndexOf b ".") as [i|].
  - exists (substring b 0 i), (substring_from b i). split.
    + unfold substring, substring_from. simpl. rewrite Nat.sub_0_r.
      symmetry. apply take_drop.
    + reflexivity.
  - exists b, EmptyString. split.
    + now rewrite append_nil_r.
    + intros k. now rewrite append_nil_r.
Qed.

Lemma suffixed_inj (b : string) (j k : nat) : suffixed b j = suffixed b k -> j = k.
Proof.
  destruct (suffixed_shape b) as [pre [post [_ H]]]. rewrite !H. intros E.
  apply append_inv_head in E. simpl in E. injection E as E.
  apply append_inv_tail in E. now apply decimal_inj.
Qed.

Lemma suffixed_longer (b : string) (k : nat) :
  String.length b < String.length (suffixed b k).
Proof.
  destruct (suffixed_shape b) as [pre [post [Hb H]]]. rewrite H.
  rewrite Hb at 1. rewrite !length_append. simpl. lia.
Qed.

Lemma nthName_inj (b : string) (j k : nat) : nthName b j = nthName b k -> j = k.
Proof.
  destruct j as [|j], k as [|k]; simpl; intros E.
  - reflexivity.
  - pose proof (suffixed_longer b (S k)). rewrite <- E in H. lia.
  - pose proof (suffixed_longer b (S j)). rewrite E in H. lia.
  - now apply (suffixed_inj b).
Qed.

(** The loop gives up only when every name it tried is taken. *)
Lemma dedupe_none (fuel : nat) : forall used b c fin,
  dedupe fuel used b c fin = None ->
  In fin used /\ forall j, j < fuel -> In (suffixed b (c + j)) used.
Proof.
  induction fuel as [|fuel IH]; intros used b c fin H; simpl in H.
  - destruct (arr_includes used fin) eqn:E; [|discriminate].
    split; [now apply arr_includes_In | intros j Hj; lia].
  - destruct (arr_includes used fin) eqn:E; [|discriminate].
    apply IH in H. destruct H as [H0 H]. split; [now apply arr_includes_In|].
    intros [|j] Hj.
    + now rewrite Nat.add_0_r.
    + replace (c + S j) with (S c + j) by lia. apply H. lia.
Qed.

(** With more passes than names in the registry, the loop finds a name. *)
Lemma dedupe_total (fuel : nat) (used : list string) (b : string) (c : nat)
    (fin : string) :
  List.length used < fuel -> exists name, dedupe fuel used b c fin = Some name.
Proof.
  intros Hl. destruct (dedupe fuel used b c fin) as [name|] eqn:E; [eauto|].
  exfalso. apply dedupe_none in E. destruct E as [_ E].
  assert (Hnd : NoDup (map (suffixed b) (seq c fuel))).
  { apply Injective_map_NoDup; [|apply seq_NoDup].
    intros x y. apply suffixed_inj. }
  assert (Hin : incl (map (suffixed b) (seq c fuel)) used).
  { intros x Hx. apply in_map_iff in Hx. destruct Hx as [k [<- Hk]].
    apply in_seq in Hk. replace k with (c + (k - c)) by lia. apply E. lia. }
  pose proof (NoDup_incl_length Hnd Hin) as Hlen.
  rewrite length_map, length_seq in Hlen. lia.
Qed.

(** The name found is not in the registry. *)
Lemma dedupe_fresh (fuel : nat) : forall used b c fin name,
  dedupe fuel used b c fin = Some name -> ~ In name used.
Proof.
  induction fuel as [|fuel IH]; intros used b c fin name H; simpl in H;
    destruct (arr_includes used fin) eqn:E; try discriminate.
  - injection H as <-. now apply arr_includes_not_In.
  - eapply IH; eauto.
  - injection H as <-. now apply arr_includes_not_In.
Qed.

(** With the names [0..k) of the pattern taken, the loop that has reached
    name [c] ends on name [k]. *)
Lemma dedupe_pattern (b : string) (k : nat) : forall d c fuel,
  d = k - c -> c <= k -> d <= fuel ->
  dedupe fuel (map (nthName b) (seq 0 k)) b (S c) (nthName b c)
  = Some (nthName b k).
Proof.
  induction d as [|d IH]; intros c fuel Hd Hc Hf.
  - assert (c = k) by lia. subst c.
    assert (E : arr_includes (map (nthName b) (seq 0 k)) (nthName b k) = false).
    { apply arr_includes_not_In. intros Hin. apply in_map_iff in Hin.
      destruct Hin as [j [Ej Hj]]. apply nthName_inj in Ej. apply in_seq in Hj. lia. }
    destruct fuel; simpl; now rewrite E.
  - destruct fuel as [|fuel]; [lia|]. simpl.
    assert (E : arr_includes (map (nthName b) (seq 0 k)) (nthName b c) = true).
    { apply arr_includes_In. apply in_map. apply in_seq. lia. }
    rewrite E. apply (IH (S c) fuel); lia.
Qed.

(** The registry is the list of the names given, without repetition. *)
Lemma forEachRef_spec (fuel : nat) (m : NameMap) (refs : list MediaRef) :
  forall index media used,
    List.length used + List.length refs < fuel ->
    used = names media -> NoDup used ->
    exists media' used',
      forEachRef fuel m index refs media used = Some (media', used')
      /\ used' = names media' /\ NoDup used'.
Proof.
  induction refs as [|ref refs IH]; intros index media used Hf Hu Hnd; simpl.
  - eauto.
  - destruct (resolveUrl ref) as [url|].
    + destruct (dedupe_total fuel used (resolveBaseName m index ref) 1
                  (resolveBaseName m index ref)) as [name Hn]; [simpl in Hf; lia|].
      rewrite Hn. apply IH.
      * rewrite length_app. simpl in *. lia.
      * unfold names. rewrite map_app. simpl. now rewrite Hu.
      * apply NoDup_app; [exact Hnd | repeat constructor; intros [] | ].
        intros x Hx [<- | []]. apply dedupe_fresh in Hn. contradiction.
    + apply IH; auto. simpl in Hf. lia.
Qed.

(** References that all resolve to the base name [b] are named after the
    pattern, in order. *)
Lemma forEachRef_pattern (fuel : nat) (m : NameMap) (b : string)
    (refs : list MediaRef) :
  forall index media,
    List.length media + List.length refs < fuel ->
    names media = map (nthName b) (seq 0 (List.length media)) ->
    (forall k ref, nth_error refs k = Some ref ->
       resolveUrl ref <> None /\ resolveBaseName m (index + k) ref = b) ->
    exists media',
      forEachRef fuel m index refs media (names media)
        = Some (media', names media')
      /\ names media'
         = map (nthName b) (seq 0 (List.length media + List.length refs)).
Proof.
  induction refs as [|ref refs IH]; intros index media Hf Hm Hall; simpl.
  - exists media. now rewrite Nat.add_0_r.
  - destruct (Hall 0 ref eq_refl) as [Hurl Hb]. rewrite Nat.add_0_r in Hb.
    destruct (resolveUrl ref) as [url|]; [|congruence]. rewrite Hb.
    assert (Ed : dedupe fuel (names media) b 1 b
                 = Some (nthName b (List.length media))).
    { rewrite Hm.
      apply (dedupe_pattern b (List.length media) (List.length media) 0 fuel);
        simpl in Hf; lia. }
    rewrite Ed.
    set (media1 := List.app media
                     [{| media_url := url;
                         media_filename := nthName b (List.length media);
                         originalRef := ref |}]).
    assert (Hn1 : names media1 = map (nthName b) (seq 0 (List.length media1))).
    { unfold media1, names. rewrite map_app, length_app. simpl.
      rewrite Nat.add_1_r, seq_S, map_app. simpl. unfold names in Hm. now rewrite Hm. }
    replace (List.app (names media) [nthName b (List.length media)])
      with (names media1)
      by (unfold media1, names; now rewrite map_app).
    destruct (IH (S index) media1) as [media' [E1 E2]].
    + unfold media1. rewrite length_app. simpl in *. lia.
    + exact Hn1.
    + intros k r Hk. specialize (Hall (S k) r Hk).
      replace (S index + k) with (index + S k) by lia. exact Hall.
    + exists media'. split; [exact E1|]. rewrite E2. unfold media1.
      rewrite length_app. simpl. f_equal. f_equal. lia.
Qed.

(** The suffix goes before the last dot of the base name, or at its
    end when it has no dot. *)
Lemma suffixed_dot (stem ext : string) (k : nat) :
  includes ext "." = false ->
  suffixed (stem ++ "." ++ ext) k = stem ++ "_" ++ decimal k ++ "." ++ ext.
Proof.
  intros H. apply (includes_free_inv "."%char) in H. unfold suffixed.
  change (stem ++ "." ++ ext) with (stem ++ String "."%char ext).
  rewrite (lastIndexOf_last "."%char stem ext H), substring_0.
  unfold substring_from. now rewrite take_app_length, drop_app_length.
Qed.

Lemma suffixed_nodot (b : string) (k : nat) :
  includes b "." = false -> suffixed b k = b ++ "_" ++ decimal k.
Proof.
  intros H. apply (includes_free_inv "."%char) in H. unfold suffixed, lastIndexOf.
  now rewrite (lastIndexOf_from_free "."%char b 0 None H).
Qed.

(** The names that the download path records are those of
    [createSuitableFilename]: no registry is consulted. *)
Lemma downloadDirectUrls_names (w : Host.World) (folder : string) (urls : list string) :
  forall i results tr r tr',
    Forall namedBySynthesizer (MediaDownloader.files results) ->
    MediaDownloader.downloadDirectUrls w folder i urls results tr = (Host.Ret r, tr') ->
    Forall namedBySynthesizer (MediaDownloader.files r).
Proof.
  induction urls as [|u urls IH]; intros i results tr r tr' F;
    cbn [MediaDownloader.downloadDirectUrls].
  - intros [= <- _]. exact F.
  - unfold Host.bind at 1.
    destruct (MediaDownloader.directFileName w i u tr) as [[name | msg |] tr1];
      try discriminate.
    destruct (Host.chrome_downloads w);
      unfold Host.bind, Host.ask, Host.emit, Host.ret; cbv beta iota; apply IH; auto.
    cbn [MediaDownloader.files]. apply Forall_app. split; [exact F|].
    repeat constructor.
Qed.

Lemma downloadEach_names (w : Host.World) (token : string) (progressCallback : bool)
    (conv : option Conversation) (fuel : nat) (folder : string) (n : nat)
    (refs : list MediaRef) :
  forall i results tr r tr',
    Forall namedBySynthesizer (MediaDownloader.files results) ->
    MediaDownloader.downloadEach w token progressCallback conv fuel folder n i refs
      results tr = (Host.Ret r, tr') ->
    Forall namedBySynthesizer (MediaDownloader.files r).
Proof.
  induction refs as [|media refs IH]; intros i results tr r tr' F;
    cbn [MediaDownloader.downloadEach].
  - intros [= <- _]. exact F.
  - unfold Host.bind at 1.
    assert (P : exists tr1,
               (if progressCallback
                then Host.emit (Host.Progress ("Downloading media " ++ decimal (S i)
                                               ++ "/" ++ decimal n ++ "..."))
                else Host.ret tt) tr = (Host.Ret tt, tr1))
      by (destruct progressCallback; eexists; reflexivity).
    destruct P as [tr1 ->]. unfold Host.bind at 1.
    destruct (MediaDownloader.downloadMedia w media token conv fuel tr1)
      as [[result | msg |] tr2]; try discriminate.
    unfold Host.bind at 1. destruct (success result).
    + unfold Host.bind at 1.
      match goal with
      | |- context [match ?m tr2 with _ => _ end] =>
          destruct (m tr2) as [[[] | msg |] tr3]; try discriminate
      end.
      unfold Host.bind at 1, Host.emit at 1. cbn [Host.ret]. apply IH.
      cbn [MediaDownloader.files]. apply Forall_app. split; [exact F|].
      repeat constructor.
    + cbn [Host.ret]. apply IH.
      cbn [MediaDownloader.files]. apply Forall_app. split; [exact F|].
      repeat constructor.
Qed.

(** C5, as the code has it.  [ChatGPTHandler.extract] names any batch of
    references without repetition: given more passes of its [while]
    loop than there are references, it returns, the file names of the
    media are pairwise distinct, and each of them is in the registry
    [usedFilenames], which holds nothing else.  When all references
    resolve to the same base name, the first keeps it and the [k]-th
    after it gets [_k]: before the extension, [stem_k.ext], when the
    base name is [stem.ext] with no dot in [ext], and at the end when
    the base name has no dot.  The download path has no registry: every
    name that [downloadAllMedia] records for a downloaded reference is
    the one that [createSuitableFilename] gives to that reference and
    the content type of its result, whatever names were given before. *)
Theorem C5_colliding_names_get_numeric_suffixes
    (fuel : nat) (fileIdToName : NameMap) (refs : list MediaRef) :
  List.length refs < fuel ->
  (exists media usedFilenames,
     extractMedia fuel fileIdToName refs = Some (media, usedFilenames)
     /\ NoDup (map media_filename media)
     /\ usedFilenames = map media_filename media
     /\ forall baseName,
          (forall k ref, nth_error refs k = Some ref ->
             resolveUrl ref <> None /\ resolveBaseName fileIdToName k ref = baseName) ->
          (forall stem ext,
             baseName = stem ++ "." ++ ext -> includes ext "." = false ->
             map media_filename media
             = map (fun k => match k with
                             | O => stem ++ "." ++ ext
                             | S _ => stem ++ "_" ++ decimal k ++ "." ++ ext
                             end) (seq 0 (List.length refs)))
          /\ (includes baseName "." = false ->
              map media_filename media
              = map (fun k => match k with
                              | O => baseName
                              | S _ => baseName ++ "_" ++ decimal k
                              end) (seq 0 (List.length refs))))
  /\ forall w token progressCallback conv tr results tr',
       MediaDownloader.downloadAllMedia w token progressCallback conv fuel refs tr
       = (Host.Ret results, tr') ->
       Forall namedBySynthesizer (MediaDownloader.files results).
Proof.
  intros Hf. split.
  - unfold extractMedia.
    destruct (forEachRef_spec fuel fileIdToName refs 0 [] [])
      as [media [used [E [Hu Hnd]]]];
      [simpl; lia | reflexivity | constructor |].
    exists media, used. rewrite E. split; [reflexivity|].
    split; [unfold names in Hu; now rewrite <- Hu|]. split; [exact Hu|].
    intros b Hall.
    assert (P : map media_filename media = map (nthName b) (seq 0 (List.length refs))).
    { destruct (forEachRef_pattern fuel fileIdToName b refs 0 []) as [media' [E1 E2]];
        [simpl; lia | reflexivity | exact Hall |].
      simpl in E1. rewrite E in E1. injection E1 as -> _. exact E2. }
    rewrite P. split.
    + intros stem ext -> Hext. apply map_ext. intros [|k]; [reflexivity|].
      cbn [nthName]. now apply suffixed_dot.
    + intros Hb. apply map_ext. intros [|k]; [reflexivity|].
      cbn [nthName]. now apply suffixed_nodot.
  - intros w token progressCallback conv tr results tr'.
    unfold MediaDownloader.downloadAllMedia. cbv zeta. unfold Host.bind at 1.
    match goal with
    | |- context [match ?m tr with _ => _ end] =>
        destruct (m tr) as [[r0 | msg |] tr0] eqn:E0; try discriminate
    end.
    apply downloadEach_names.
    destruct conv as [c|].
    + match type of E0 with
      | (if ?c then _ else _) _ = _ => destruct c
      end.
      * apply downloadDirectUrls_names in E0; [exact E0 | constructor].
      * injection E0 as <- _. constructor.
    + injection E0 as <- _. constructor.
Qed.

Lemma C5_witness :
  exists media usedFilenames,
    extractMedia 4 [] Fixture.twins = Some (media, usedFilenames)
    /\ NoDup (map media_filename media)
    /\ usedFilenames = map media_filename media
    /\ map media_filename media = ["image_x.png"; "image_x_1.png"; "image_x_2.png"].
Proof.
  assert (L : List.length Fixture.twins < 4) by (simpl; lia).
  destruct (proj1 (C5_colliding_names_get_numeric_suffixes 4 [] Fixture.twins L))
    as [media [used [E [N [U P]]]]].
  exists media, used. split; [exact E|]. split; [exact N|]. split; [exact U|].
  assert (A : forall k ref, nth_error Fixture.twins k = Some ref ->
                resolveUrl ref <> None /\ resolveBaseName [] k ref = "image_x.png").
  { intros k ref H. destruct k as [|[|[|k]]]; cbn in H;
      try (injection H as <-; split; [discriminate | reflexivity]).
    destruct k; discriminate H. }
  apply (proj1 (P "image_x.png" A) "image_x" "png" eq_refl eq_refl).
Defined.

(** C5 fails as stated for the names of the download path:
    [createSuitableFilename] keeps no registry, and [downloadAllMedia]
    hands two different references with colliding names to the download
    subsystem under the same path and records the same name twice. *)
Lemma C5_counterexample :
  Fixture.sunsetA <> Fixture.sunsetB
  /\ FileUtils.createSuitableFilename Fixture.sunsetA (Some "image/png") = "sunset.png"
  /\ FileUtils.createSuitableFilename Fixture.sunsetB (Some "image/png") = "sunset.png"
  /\ let run := MediaDownloader.downloadAllMedia Fixture.goodWorld "token" false None 10
                  [Fixture.sunsetA; Fixture.sunsetB] [] in
     (exists r, fst run = Host.Ret r
                /\ MediaDownloader.completed r = 2
                /\ fileNames (MediaDownloader.files r) = ["sunset.png"; "sunset.png"])
     /\ dispatchedPaths (snd run)
        = ["chatgpt_export/media/sunset.png"; "chatgpt_export/media/sunset.png"].
Proof.
  split; [discriminate|]. split; [reflexivity|]. split; [reflexivity|].
  vm_compute. split; [eexists; repeat split | reflexivity].
Qed.

(** Three references with the base name [image_x.png]. *)
Example twins_names :
  option_map (fun r => map media_filename (fst r)) (extractMedia 4 [] Fixture.twins)
  = Some ["image_x.png"; "image_x_1.png"; "image_x_2.png"].
Proof. reflexivity. Qed.

End Registry.

(** ** Content checks *)

Section ByteSignatures.
Import Js Host FileUtils MediaFetcher Observe.

Lemma png_is_binary (claimed : string) (rest : list N) :
  isBinaryBlob (newBlob (png rest) claimed) = true.
Proof.
  unfold isBinaryBlob. cbv zeta.
  destruct (includes _ "image/" || _ || _ || _); reflexivity.
Qed.

Lemma png_detected (rest : list N) :
  detectFileTypeFromBytes (firstn 12 (png rest)) = Some "image/png".
Proof. reflexivity. Qed.

(** C6.  A buffer that starts with the PNG signature 89 50 4E 47 is
    judged binary and typed [image/png] by the byte classifier and by the
    checks of both fetchers, whatever type the blob or the header
    claims. *)
Theorem C6_png_signature_overrides_claimed_type
    (w : World) (claimed : string) (header : option string) (rest : list N)
    (fileId : string) (ref : MediaRef) :
  isBinary (checkBackground w claimed (png rest) fileId ref) = true
  /\ confirmedType (checkBackground w claimed (png rest) fileId ref) = Some "image/png"
  /\ isBinary (checkDirect w header (png rest) fileId ref) = true
  /\ confirmedType (checkDirect w header (png rest) fileId ref) = Some "image/png"
  /\ detectFileTypeFromBytes (png rest) = Some "image/png".
Proof.
  unfold checkBackground, checkDirect. cbv zeta.
  rewrite !png_is_binary, png_detected. repeat split.
Qed.

Lemma detected_truthy (bytes : list N) (t : string) :
  detectFileTypeFromBytes bytes = Some t -> truthy (Some t) = true.
Proof.
  unfold detectFileTypeFromBytes.
  repeat match goal with
         | |- context [if ?c then _ else _] => destruct c
         end;
    try destruct (firstNonWhitespace bytes);
    repeat match goal with
           | |- context [if ?c then _ else _] => destruct c
           end;
    intros H; try discriminate H; injection H as <-; reflexivity.
Qed.

Lemma isBinaryBlob_untyped (ty : string) (bytes : list N) :
  claimsMedia ty = false ->
  isBinaryBlob (newBlob bytes ty) = isBinaryBlob (newBlob bytes EmptyString).
Proof.
  unfold claimsMedia, isBinaryBlob, newBlob. cbv zeta. cbn [blob_type blob_bytes].
  intros ->. reflexivity.
Qed.

(** C9, as the code has it.  For two payloads with the same bytes.  In
    the direct fetch the binary judgment is the same whatever the headers
    say, and when the byte signature is recognised the whole result is
    the same.  In the background fetch the binary judgment is the same
    when neither claimed type names a media type ([image/], [audio/],
    [video/], [application/pdf]), and a claimed media type makes the
    judgment binary whatever the bytes are.  When the background fetch
    judges a payload binary and its byte signature is recognised, the
    confirmed type is the detected one, so that two payloads both judged
    binary get the same result; a payload judged binary whose bytes have
    no recognised signature is confirmed under the claimed type. *)
Theorem C9_verdict_follows_bytes_unless_media_type_claimed
    (w : World) (ct1 ct2 : string) (h1 h2 : option string) (bytes : list N)
    (fileId : string) (ref : MediaRef) :
  isBinary (checkDirect w h1 bytes fileId ref)
  = isBinary (checkDirect w h2 bytes fileId ref)
  /\ (detectFileTypeFromBytes (firstn 12 bytes) <> None ->
      checkDirect w h1 bytes fileId ref = checkDirect w h2 bytes fileId ref)
  /\ (claimsMedia ct1 = false -> claimsMedia ct2 = false ->
      isBinary (checkBackground w ct1 bytes fileId ref)
      = isBinary (checkBackground w ct2 bytes fileId ref))
  /\ (claimsMedia ct1 = true ->
      isBinaryBlob (newBlob bytes ct1) = true
      /\ isBinary (checkBackground w ct1 bytes fileId ref) = true)
  /\ (forall t,
        detectFileTypeFromBytes (firstn 12 bytes) = Some t ->
        isBinary (checkBackground w ct1 bytes fileId ref) = true ->
        confirmedType (checkBackground w ct1 bytes fileId ref) = Some t)
  /\ (detectFileTypeFromBytes (firstn 12 bytes) <> None ->
      isBinary (checkBackground w ct1 bytes fileId ref) = true ->
      isBinary (checkBackground w ct2 bytes fileId ref) = true ->
      checkBackground w ct1 bytes fileId ref = checkBackground w ct2 bytes fileId ref)
  /\ (detectFileTypeFromBytes (firstn 12 bytes) = None ->
      isBinary (checkBackground w ct1 bytes fileId ref) = true ->
      confirmedType (checkBackground w ct1 bytes fileId ref) = Some ct1).
Proof.
  assert (Hm : forall ct, claimsMedia ct = true ->
                 isBinaryBlob (newBlob bytes ct) = true).
  { intros ct Hct. unfold isBinaryBlob, newBlob. cbv zeta.
    unfold claimsMedia, newBlob in Hct. cbn [blob_type] in *. now rewrite Hct. }
  assert (Hr : forall bs, isBinary (redirectOrNull w bs) = false).
  { intros bs. unfold redirectOrNull. destruct (jsonRedirect w bs) as [u|]; [|reflexivity].
    destruct (truthy (Some u)); reflexivity. }
  unfold checkBackground, checkDirect. cbv zeta.
  remember (detectFileTypeFromBytes (firstn 12 bytes)) as d eqn:Ed.
  split; [|split; [|split; [|split; [|split; [|split]]]]].
  - destruct (isBinaryBlob (newBlob bytes EmptyString)); reflexivity.
  - intros Hd. destruct (isBinaryBlob (newBlob bytes EmptyString)); cbn [negb];
      [|reflexivity].
    destruct d as [t|]; [|congruence].
    unfold or_else. rewrite (detected_truthy _ _ (eq_sym Ed)). reflexivity.
  - intros H1 H2.
    rewrite (isBinaryBlob_untyped ct1), (isBinaryBlob_untyped ct2) by assumption.
    destruct (isBinaryBlob (newBlob bytes EmptyString)); cbn [negb];
      [destruct d; reflexivity | reflexivity].
  - intros H1. rewrite (Hm ct1 H1). cbn [negb]. split; [reflexivity|].
    destruct d; reflexivity.
  - intros t [= ->]. destruct (isBinaryBlob (newBlob bytes ct1)); cbn [negb].
    + reflexivity.
    + rewrite Hr. discriminate.
  - intros Hd. destruct d as [t|]; [|congruence].
    destruct (isBinaryBlob (newBlob bytes ct1)); cbn [negb];
      [|rewrite Hr; discriminate].
    destruct (isBinaryBlob (newBlob bytes ct2)); cbn [negb];
      [reflexivity | rewrite Hr; discriminate].
  - intros ->. destruct (isBinaryBlob (newBlob bytes ct1)); cbn [negb].
    + reflexivity.
    + rewrite Hr. discriminate.
Qed.

Lemma C9_witness :
  isBinary (checkDirect Fixture.deadWorld (Some "application/json") Fixture.errorBytes
              "file-abc" Fixture.foxRef)
  = isBinary (checkDirect Fixture.deadWorld (Some "image/png") Fixture.errorBytes
                "file-abc" Fixture.foxRef)
  /\ isBinary (checkBackground Fixture.deadWorld "application/json" Fixture.errorBytes
                 "file-abc" Fixture.foxRef)
     = isBinary (checkBackground Fixture.deadWorld "text/plain" Fixture.errorBytes
                   "file-abc" Fixture.foxRef)
  /\ confirmedType (checkBackground Fixture.deadWorld "application/json" (png [])
                      "file-abc" Fixture.foxRef) = Some "image/png"
  /\ confirmedType (checkBackground Fixture.deadWorld "application/zip" [0; 1; 2; 3]%N
                      "file-abc" Fixture.foxRef) = Some "application/zip".
Proof.
  destruct (C9_verdict_follows_bytes_unless_media_type_claimed
              Fixture.deadWorld "application/json" "text/plain"
              (Some "application/json") (Some "image/png") Fixture.errorBytes
              "file-abc" Fixture.foxRef) as [D [_ [B _]]].
  destruct (C9_verdict_follows_bytes_unless_media_type_claimed
              Fixture.deadWorld "application/json" "text/plain" None None (png [])
              "file-abc" Fixture.foxRef) as [_ [_ [_ [_ [T _]]]]].
  destruct (C9_verdict_follows_bytes_unless_media_type_claimed
              Fixture.deadWorld "application/zip" "text/plain" None None [0; 1; 2; 3]%N
              "file-abc" Fixture.foxRef) as [_ [_ [_ [_ [_ [_ K]]]]]].
  split; [exact D|]. split; [apply B; reflexivity|].
  split; [apply T; reflexivity | apply K; reflexivity].
Defined.

(** C9 fails as stated: the same JSON bytes are judged binary under the
    claimed type [image/png] and not binary under [application/json];
    and the same unrecognised bytes are confirmed as whatever type was
    claimed. *)
Lemma C9_counterexample :
  isBinaryBlob (newBlob Fixture.errorBytes "image/png")
  <> isBinaryBlob (newBlob Fixture.errorBytes "application/json")
  /\ confirmedType (checkBackground Fixture.deadWorld "application/zip"
                      [0; 1; 2; 3]%N "file-abc" Fixture.foxRef)
     <> confirmedType (checkBackground Fixture.deadWorld "application/x-tar"
                         [0; 1; 2; 3]%N "file-abc" Fixture.foxRef).
Proof. split; vm_compute; discriminate. Qed.

End ByteSignatures.

Section ZipValidation.
Import Js Host Content Observe.




End ZipValidation.

(** ** The batch orchestrator *)

Section EmptyBatch.
Import Js Host MediaDownloader Observe.







End EmptyBatch.

(** ** The token cache *)

Section TokenCache.
Import AuthManager.

Lemma unit_roundtrip (c k : N) :
  (c < 65536)%N ->
  fromCharCode (N.lxor (fromCharCode (N.lxor c k)) k) = c.
Proof.
  intros Hc. unfold fromCharCode. change 65536%N with (2 ^ 16)%N.
  apply N.bits_inj. intros n.
  destruct (N.lt_ge_cases n 16) as [Hn | Hn].
  - rewrite N.mod_pow2_bits_low by exact Hn.
    rewrite N.lxor_spec, N.mod_pow2_bits_low by exact Hn.
    rewrite N.lxor_spec. destruct (N.testbit c n), (N.testbit k n); reflexivity.
  - rewrite N.mod_pow2_bits_high by exact Hn.
    symmetry. rewrite <- (N.mod_small c (2 ^ 16)) by exact Hc.
    apply N.mod_pow2_bits_high. exact Hn.
Qed.

Lemma decryptFrom_encryptFrom (key tok : jsstring) :
  wf tok -> forall i, decryptFrom i (encryptFrom i tok key) key = tok.
Proof.
  induction 1 as [|c tok Hc _ IH]; intros i; simpl; [reflexivity|].
  rewrite unit_roundtrip by exact Hc. now rewrite IH.
Qed.

(** A call that misses the cache and returns a token leaves that token,
    encrypted, in the cache, with an expiry ten minutes later. *)
Lemma fetchToken_stores (w : World) (now : N) (c : SessionCache) (tok : jsstring) :
  fst (fetchToken w now c) = inr tok ->
  tok <> [] /\ snd (fetchToken w now c) = store c now tok.
Proof.
  unfold fetchToken.
  destruct (if chrome_runtime w then background w else BgNone) as [|[|] [[|u t]|]];
    try (simpl; intros H; injection H as <-; split; [discriminate | reflexivity]);
    destruct (session w) as [msg | st [[|u' t']|]]; simpl;
    try discriminate;
    destruct (negb (MediaFetcher.ok st)); simpl;
    try discriminate; intros H; injection H as <-; split;
    discriminate || reflexivity.
Qed.

(** C10.  For every token of 16-bit code units and every key, empty or
    not, decrypting the encrypted token with the same key gives the
    token back.  Consequently, after a call of [getAccessToken] that
    missed the cache and returned a token, any call made less than ten
    minutes later returns that same token from the cache, whatever the
    network would answer, and leaves the cache as it is. *)
Theorem C10_token_obfuscation_is_an_involution (tok key : jsstring) :
  wf tok ->
  decryptToken (encryptToken tok key) key = tok
  /\ forall (w w' : World) (now later : N) (c : SessionCache),
       tokenEncryptionKey c = key ->
       cacheValid now c = false ->
       fst (getAccessToken w now c) = inr tok ->
       (later < now + 600000)%N ->
       getAccessToken w' later (snd (getAccessToken w now c))
       = (inr tok, snd (getAccessToken w now c)).
Proof.
  intros Hwf. split.
  - apply decryptFrom_encryptFrom. exact Hwf.
  - intros w w' now later c Hkey Hmiss Hget Hlater.
    unfold getAccessToken in *. rewrite Hmiss in *.
    destruct (fetchToken_stores w now c tok Hget) as [Hne Hs]. rewrite Hs.
    assert (Hv : cacheValid later (store c now tok) = true).
    { unfold cacheValid, store. cbn [token expiry]. unfold truthy, encryptToken.
      destruct tok as [|u t]; [congruence|]. cbn [encryptFrom andb].
      apply andb_true_intro. split.
      - apply negb_true_iff. apply N.eqb_neq. lia.
      - apply N.ltb_lt. lia. }
    rewrite Hv. cbn [token tokenEncryptionKey store].
    rewrite Hkey. unfold decryptToken, encryptToken.
    now rewrite decryptFrom_encryptFrom.
Qed.

Lemma C10_witness :
  decryptToken (encryptToken Fixture.sampleToken Fixture.sampleKey) Fixture.sampleKey
  = Fixture.sampleToken
  /\ getAccessToken Fixture.offlineWorld 1599999
       (snd (getAccessToken Fixture.sessionWorld 1000000 Fixture.emptyCache))
     = (inr Fixture.sampleToken,
        snd (getAccessToken Fixture.sessionWorld 1000000 Fixture.emptyCache)).
Proof.
  destruct (C10_token_obfuscation_is_an_involution
              Fixture.sampleToken Fixture.sampleKey) as [Hinv Hhit].
  - repeat constructor.
  - split; [exact Hinv|].
    apply (Hhit Fixture.sessionWorld Fixture.offlineWorld); reflexivity.
Defined.

End TokenCache.

(** ** File types and file names *)

Section FileTypes.
Import Js FileUtils Shape.

Lemma assoc_In (k : string) (l : list (string * string)) (e : string) :
  ExportConfig.assoc k l = Some e -> In (k, e) l.
Proof.
  induction l as [|[k' v] l IH]; simpl; [discriminate|].
  destruct (String.eqb_spec k k') as [-> | N].
  - intros [= ->]. now left.
  - intros E. right. auto.
Qed.

Lemma plain_lower (c : ascii) :
  (is_alnum c || is_char "-" c) = true -> plain_char (lower_char c) = true.
Proof.
  destruct c as [[] [] [] [] [] [] [] []]; vm_compute; intros E;
    (reflexivity || discriminate E).
Qed.

Lemma plain_toLowerCase (g : string) :
  all_chars (fun x => is_alnum x || is_char "-" x) g = true ->
  all_chars plain_char (toLowerCase g) = true.
Proof.
  induction g as [|c g IH]; simpl; [reflexivity|].
  intros E. apply andb_true_iff in E as [E1 E2]. now rewrite plain_lower, IH.
Qed.

Lemma mimeTail_chars (s g : string) :
  mimeTail s = Some g ->
  all_chars (fun x => is_alnum x || is_char "-" x) g = true.
Proof.
  induction s as [|c s IH]; cbn [mimeTail]; [discriminate|].
  match goal with |- (if ?c then _ else _) = _ -> _ => destruct c eqn:E end.
  - intros [= <-]. now apply andb_true_iff in E as [_ E].
  - exact IH.
Qed.

Lemma fileTypes_plain (k e : string) :
  In (k, e) ExportConfig.fileTypes -> all_chars plain_char e = true.
Proof.
  intros H.
  assert (F : forallb (fun kv => all_chars plain_char (snd kv)) ExportConfig.fileTypes = true)
    by reflexivity.
  rewrite forallb_forall in F. exact (F _ H).
Qed.

Lemma plain_free_dot (e : string) :
  all_chars plain_char e = true -> free_of "."%char e = true.
Proof.
  apply all_chars_impl. intros c.
  destruct c as [[] [] [] [] [] [] [] []]; vm_compute; intros E;
    (reflexivity || discriminate E).
Qed.

(** X1.  Every type that the byte signatures can report has a row in the
    table of file types: its extension is read from the table, for any
    fallback, and [fixFileExtension] gives a name that extension. *)
Theorem X1_detected_types_have_table_extensions (bytes : list N) (t : string) :
  detectFileTypeFromBytes bytes = Some t ->
  exists e,
    In (t, e) ExportConfig.fileTypes
    /\ (forall fallbackType, getFileExtension (Some t) fallbackType = Some e)
    /\ forall name, name <> EmptyString ->
         fixFileExtension (Some name) (Some t) = Some (stripExtension name ++ "." ++ e).
Proof.
  unfold detectFileTypeFromBytes.
  repeat match goal with
         | |- (if ?c then _ else _) = Some _ -> _ => destruct c
         | |- match ?x with Some _ => _ | None => _ end = Some _ -> _ => destruct x
         end;
    try discriminate; intros [= <-]; eexists; (split; [|split]);
    try (intros fb; reflexivity);
    try (intros name Hn; unfold fixFileExtension;
         apply truthy_nonempty in Hn; rewrite Hn; reflexivity);
    simpl; tauto.
Qed.

Lemma X1_witness :
  exists e,
    In ("image/png", e) ExportConfig.fileTypes
    /\ (forall fallbackType, getFileExtension (Some "image/png") fallbackType = Some e)
    /\ forall name, name <> EmptyString ->
         fixFileExtension (Some name) (Some "image/png")
         = Some (stripExtension name ++ "." ++ e).
Proof.
  apply (X1_detected_types_have_table_extensions (Observe.png [13; 10; 26; 10]%N)).
  reflexivity.
Defined.

(** X2.  [getFileExtension] gives [undefined] exactly for the twelve
    property names that the table inherits from [Object.prototype]; for
    every other type, and for an absent one, it gives a string. *)
Theorem X2_getFileExtension_undefined_only_for_inherited_names
    (mimeType : option string) (fallbackType : string) :
  getFileExtension mimeType fallbackType = None
  <-> In (show mimeType) ExportConfig.inherited.
Proof.
  unfold getFileExtension, ExportConfig.lookup.
  destruct (ExportConfig.assoc (show mimeType) ExportConfig.fileTypes) eqn:A.
  - split; [discriminate|]. intros H. exfalso.
    simpl in H. repeat destruct H as [H | H]; try contradiction;
      rewrite <- H in A; discriminate A.
  - destruct (arr_includes ExportConfig.inherited (show mimeType)) eqn:I.
    + split; [intros _|reflexivity]. now apply arr_includes_In.
    + apply arr_includes_not_In in I. split; [|contradiction].
      destruct mimeType as [m|]; [|discriminate].
      destruct (mimeTail m); [|discriminate].
      destruct (_ && _); discriminate.
Qed.

Lemma getFileExtension_plain (mimeType : option string) (fallbackType e : string) :
  all_chars plain_char fallbackType = true ->
  getFileExtension mimeType fallbackType = Some e ->
  all_chars plain_char e = true.
Proof.
  intros Hfb. unfold getFileExtension, ExportConfig.lookup.
  destruct (ExportConfig.assoc (show mimeType) ExportConfig.fileTypes) eqn:A.
  - intros [= <-]. apply assoc_In in A. exact (fileTypes_plain _ _ A).
  - destruct (arr_includes _ _); [discriminate|].
    destruct mimeType as [m|]; [|now intros [= <-]].
    destruct (mimeTail m) as [g|] eqn:T; [|now intros [= <-]].
    destruct (_ && _); intros [= <-]; [|exact Hfb].
    apply plain_toLowerCase. exact (mimeTail_chars _ _ T).
Qed.

(** X3.  An extension given by [getFileExtension] is made of lower-case
    letters, digits and hyphens only, whenever the fallback is: it holds
    no dot, no slash and no upper-case letter, whatever the type says. *)
Theorem X3_extensions_are_plain
    (mimeType : option string) (fallbackType e : string) :
  all_chars plain_char fallbackType = true ->
  getFileExtension mimeType fallbackType = Some e ->
  all_chars plain_char e = true
  /\ includes e "." = false /\ includes e "/" = false.
Proof.
  intros Hfb H.
  pose proof (getFileExtension_plain _ _ _ Hfb H) as P.
  split; [exact P|]. split.
  - apply (includes_free "."%char). now apply plain_free_dot.
  - apply (includes_free "/"%char). revert P. apply all_chars_impl. intros c.
    destruct c as [[] [] [] [] [] [] [] []]; vm_compute; intros E;
      (reflexivity || discriminate E).
Qed.

Lemma X3_witness :
  all_chars plain_char "x-tar" = true
  /\ includes "x-tar" "." = false /\ includes "x-tar" "/" = false.
Proof.
  apply (X3_extensions_are_plain (Some "Application/X-TAR") "bin" "x-tar");
    reflexivity.
Defined.

Lemma show_extension_free (mimeType : option string) :
  free_of "."%char (show (getFileExtension mimeType "bin")) = true.
Proof.
  destruct (getFileExtension mimeType "bin") as [e|] eqn:E; [|reflexivity].
  apply plain_free_dot.
  now apply (getFileExtension_plain mimeType "bin" e).
Qed.

End FileTypes.

Section FileNames.
Import Js FileUtils Shape.

Lemma stripExtension_app (a e : string) :
  free_of "."%char e = true -> stripExtension (a ++ "." ++ e) = a.
Proof.
  intros E. unfold stripExtension.
  rewrite (includes_mid a "." e).
  change (a ++ "." ++ e) with (a ++ String "."%char e).
  rewrite (lastIndexOf_last "."%char a e E), substring_0.
  apply take_app_length.
Qed.

(** X4.  [fixFileExtension] is idempotent: fixing a name that was already
    fixed for the same detected type changes nothing, whatever dots the
    base name holds. *)
Theorem X4_fixFileExtension_is_idempotent (filename detectedType : option string) :
  fixFileExtension (fixFileExtension filename detectedType) detectedType
  = fixFileExtension filename detectedType.
Proof.
  unfold fixFileExtension.
  destruct (truthy filename) eqn:F; cbn [negb orb]; [|now rewrite F].
  destruct (truthy detectedType) eqn:T; cbn [negb orb];
    [|rewrite F; reflexivity].
  cbv zeta.
  rewrite truthy_app_r by discriminate. cbn [negb orb show].
  rewrite stripExtension_app; [reflexivity|].
  apply show_extension_free.
Qed.

Lemma fileTypes_short (k e : string) :
  In (k, e) ExportConfig.fileTypes -> String.length e <= 4.
Proof.
  intros H.
  assert (F : forallb (fun kv => Nat.leb (String.length (snd kv)) 4)
                ExportConfig.fileTypes = true) by reflexivity.
  rewrite forallb_forall in F. apply Nat.leb_le. exact (F _ H).
Qed.

Lemma getFileExtension_short (mimeType : option string) :
  String.length (show (getFileExtension mimeType "bin")) <= 9.
Proof.
  unfold getFileExtension, ExportConfig.lookup.
  destruct (ExportConfig.assoc (show mimeType) ExportConfig.fileTypes) eqn:A.
  - apply assoc_In, fileTypes_short in A. simpl. lia.
  - destruct (arr_includes _ _); [simpl; lia|].
    destruct mimeType as [m|]; [|simpl; lia].
    destruct (mimeTail m) as [g|]; [|simpl; lia].
    destruct (Nat.ltb 1 (String.length g) && Nat.ltb (String.length g) 10) eqn:L;
      [|simpl; lia].
    apply andb_true_iff in L as [_ L]. apply Nat.ltb_lt in L.
    simpl. rewrite length_toLowerCase. lia.
Qed.

Lemma chosenExtension_short (mediaType mimeType filename format : option string) :
  String.length (show (getAppropriateFileExtension mediaType mimeType filename format))
  <= 9.
Proof.
  unfold getAppropriateFileExtension.
  destruct (truthy format && short_ext (show format)) eqn:E1.
  - apply andb_true_iff in E1 as [_ E1]. unfold short_ext in E1.
    apply andb_true_iff in E1 as [_ E1]. apply Nat.ltb_lt in E1.
    cbn [show]. rewrite length_toLowerCase. lia.
  - cbv zeta.
    destruct (truthy filename && includes (show filename) "."
              && short_ext (toLowerCase (pop (split (show filename) ".")))) eqn:E2.
    + apply andb_true_iff in E2 as [_ E2]. unfold short_ext in E2.
      apply andb_true_iff in E2 as [_ E2]. apply Nat.ltb_lt in E2. cbn [show]. lia.
    + destruct (equals mediaType "image").
      * match goal with |- context [if ?c then Some "jpg" else _] => destruct c end;
          cbn [show String.length]; lia.
      * match goal with
        | |- context [if ?c then getFileExtension _ _ else _] => destruct c
        end; [apply getFileExtension_short|].
        unfold ExportConfig.lookup.
        destruct (ExportConfig.assoc (show mediaType) ExportConfig.defaultFileTypes) eqn:A.
        -- simpl in A.
           repeat match type of A with
                  | (if ?c then _ else _) = _ => destruct c
                  end; try discriminate; injection A as <-; simpl; lia.
        -- destruct (arr_includes _ _); simpl; lia.
Qed.

Lemma cap_length (n : nat) (s : string) :
  String.length (if Nat.ltb n (String.length s) then substring s 0 n else s) <= n.
Proof.
  destruct (Nat.ltb_spec n (String.length s)) as [L | L].
  - rewrite substring_0. apply take_length_le.
  - exact L.
Qed.

(** X5.  The names of [createSuitableFilename] are bounded where the code
    cuts them: a sediment image gets at most 204 code units (a base of at
    most 200 and [.png]), and a reference whose extension is not [png]
    gets at most 60 (a base of at most 50, a dot, and an extension of at
    most 9). *)
Theorem X5_file_names_are_bounded (ref : MediaRef) (contentType : option string) :
  (MediaDownloader.isSediment ref = true ->
   String.length (createSuitableFilename ref contentType) <= 204)
  /\ (MediaDownloader.isSediment ref = false ->
      equals (chosenExtension ref contentType) "png" = false ->
      String.length (createSuitableFilename ref contentType) <= 60).
Proof.
  unfold MediaDownloader.isSediment, chosenExtension, createSuitableFilename.
  split.
  - intros S. rewrite S. cbv zeta. rewrite length_append.
    match goal with
    | |- String.length (if Nat.ltb 200 (String.length ?b) then _ else _)
         + String.length ?y <= _ =>
        pose proof (cap_length 200 b) as L; change (String.length y) with 4
    end.
    lia.
  - intros S P. rewrite S. cbv zeta. rewrite P.
    change (?a ++ "." ++ ?b) with (a ++ String "."%char b).
    rewrite length_append. cbn [String.length].
    match goal with
    | |- String.length (if Nat.ltb 50 (String.length ?b) then _ else _) + _ <= _ =>
        pose proof (cap_length 50 b) as L
    end.
    pose proof (chosenExtension_short (type ref) (or_else contentType (mime_type ref))
                  (filename ref) (format ref)).
    lia.
Qed.

Lemma X5_witness :
  String.length (createSuitableFilename Fixture.foxRef None) <= 204
  /\ String.length (createSuitableFilename Sample.reportRef None) <= 60.
Proof.
  split.
  - apply (proj1 (X5_file_names_are_bounded Fixture.foxRef None)). reflexivity.
  - apply (proj2 (X5_file_names_are_bounded Sample.reportRef None)); reflexivity.
Defined.

End FileNames.

Section TextBlobs.
Import Js FileUtils Shape Observe.

Lemma at_is_firstn (n : nat) (bytes : list N) (i : nat) (v : N) :
  i < n -> at_is (firstn n bytes) i v = at_is bytes i v.
Proof.
  intros L. unfold at_is. now rewrite nth_error_firstn, (proj2 (Nat.ltb_lt i n) L).
Qed.

Lemma at_is_text (bytes : list N) (i : nat) (v : N) :
  Forall (fun b => is_text_byte b = true) bytes ->
  is_text_byte v = false -> at_is bytes i v = false.
Proof.
  intros F V. unfold at_is. destruct (nth_error bytes i) as [b|] eqn:E; [|reflexivity].
  apply nth_error_In in E. rewrite Forall_forall in F. specialize (F b E).
  destruct (N.eqb_spec b v); [congruence | reflexivity].
Qed.

Lemma filter_all {A : Type} (f : A -> bool) (l : list A) :
  Forall (fun x => f x = true) l ->
  filter f l = l /\ filter (fun x => negb (f x)) l = [].
Proof.
  induction 1 as [|x l Hx _ [IH1 IH2]]; simpl; [split; reflexivity|].
  rewrite Hx. simpl. now rewrite IH1, IH2.
Qed.

(** X6.  A blob whose first 32 bytes are all printable ASCII, tab, line
    feed or carriage return is never judged binary, unless its type claims
    a media type or it starts with the GIF signature (which is text too);
    this covers the empty blob. *)
Theorem X6_text_blobs_are_not_binary (ty : string) (bytes : list N) :
  claimsMedia ty = false ->
  Forall (fun b => is_text_byte b = true) (firstn 32 bytes) ->
  startsGif bytes = false ->
  isBinaryBlob (newBlob bytes ty) = false.
Proof.
  intros C F G. rewrite (isBinaryBlob_untyped ty bytes C).
  unfold isBinaryBlob. cbn [blob_type blob_bytes newBlob all_chars toLowerCase_ascii].
  cbn [includes startsWith orb]. cbv zeta.
  rewrite (at_is_text _ 0 255 F eq_refl), (at_is_text _ 0 137 F eq_refl).
  cbn [andb].
  unfold startsGif in G. rewrite !at_is_firstn by lia. rewrite G.
  destruct (at_is bytes 0 123); [reflexivity|].
  destruct (at_is bytes 0 91); [reflexivity|].
  destruct (filter_all is_text_byte _ F) as [-> ->]. simpl List.length.
  apply Nat.ltb_ge. lia.
Qed.

Lemma X6_witness :
  isBinaryBlob (newBlob Fixture.errorBytes "text/plain") = false
  /\ isBinaryBlob (newBlob [] EmptyString) = false.
Proof.
  split.
  - apply X6_text_blobs_are_not_binary; [reflexivity | | reflexivity].
    vm_compute. repeat constructor.
  - apply X6_text_blobs_are_not_binary; [reflexivity | constructor | reflexivity].
Defined.

End TextBlobs.

(** ** Saving a blob *)

Section SavedNames.
Import Js FileSaver Shape.

Lemma free_of_includes (c : ascii) (s : string) :
  includes s (String c EmptyString) = false -> free_of c s = true.
Proof.
  unfold free_of. induction s as [|d s IH]; cbn [includes all_chars startsWith];
    [reflexivity|].
  intros E. apply orb_false_iff in E as [E1 E2].
  rewrite (IH E2), andb_true_r.
  destruct (Ascii.eqb_spec d c) as [-> | N]; [|reflexivity].
  rewrite Ascii.eqb_refl in E1. destruct s; discriminate E1.
Qed.

(** Splitting at a one-character separator. *)
Lemma split_free (c : ascii) (s cur : string) :
  free_of c s = true ->
  split_aux (String c EmptyString) 0 cur s = [cur ++ s].
Proof.
  unfold free_of. revert cur. induction s as [|d s IH]; intros cur; cbn [split_aux all_chars].
  - now rewrite append_nil_r.
  - intros E. apply andb_true_iff in E as [E1 E2]. apply negb_true_iff in E1.
    cbn [startsWith]. rewrite Ascii.eqb_sym, E1. cbn [andb].
    rewrite (IH _ E2), append_assoc. reflexivity.
Qed.

Lemma pop_split_free (c : ascii) (s : string) :
  free_of c s = true -> pop (split s (String c EmptyString)) = s.
Proof. intros E. unfold split, pop. now rewrite split_free. Qed.

Lemma join_cons (sep x : string) (l : list string) :
  l <> [] -> join sep (x :: l) = x ++ sep ++ join sep l.
Proof. destruct l; [congruence | reflexivity]. Qed.

Lemma split_last (c : ascii) (e : string) :
  free_of c e = true ->
  forall a cur,
    exists l,
      split_aux (String c EmptyString) 0 cur (a ++ String c e) = List.app l [e]
      /\ l <> [] /\ join (String c EmptyString) l = cur ++ a.
Proof.
  intros E. induction a as [|d a IH]; intros cur.
  - exists [cur]. cbn [append split_aux startsWith]. rewrite Ascii.eqb_refl.
    destruct e; cbn [andb String.length Nat.sub];
      (split; [|split; [discriminate | now rewrite append_nil_r]]).
    + reflexivity.
    + now rewrite (split_free c _ EmptyString E).
  - cbn [append split_aux startsWith].
    assert (S : startsWith (a ++ String c e) EmptyString = true)
      by (destruct (a ++ String c e); reflexivity).
    rewrite S, andb_true_r. cbn [String.length Nat.sub].
    destruct (Ascii.eqb_spec c d) as [<- | N].
    + destruct (IH EmptyString) as [l [H1 [H2 H3]]].
      exists (cur :: l). rewrite H1. split; [reflexivity|]. split; [discriminate|].
      rewrite (join_cons _ _ _ H2), H3. reflexivity.
    + destruct (IH (cur ++ String d EmptyString)) as [l [H1 [H2 H3]]].
      exists l. rewrite H1, H3, append_assoc. repeat split. exact H2.
Qed.

Lemma join_removelast_split (c : ascii) (a e : string) :
  free_of c e = true ->
  join (String c EmptyString) (removelast (split (a ++ String c e) (String c EmptyString)))
  = a.
Proof.
  intros E. unfold split.
  destruct (split_last c e E a EmptyString) as [l [H1 [_ H3]]].
  now rewrite H1, removelast_last, H3.
Qed.

(** Folding of the [i] flag, one code unit at a time. *)
Lemma lower_dot (c : ascii) :
  Ascii.eqb (if is_upper c then ascii_of_N (code c + 32) else c) "."%char
  = Ascii.eqb c "."%char.
Proof. destruct c as [[] [] [] [] [] [] [] []]; reflexivity. Qed.

Lemma free_of_lower (s : string) :
  free_of "."%char (toLowerCase_ascii s) = free_of "."%char s.
Proof.
  unfold free_of. induction s as [|c s IH]; cbn [toLowerCase_ascii all_chars];
    [reflexivity|].
  now rewrite lower_dot, IH.
Qed.

Lemma length_toLowerCase_ascii (s : string) :
  String.length (toLowerCase_ascii s) = String.length s.
Proof. induction s as [|c s IH]; simpl; [reflexivity | now rewrite IH]. Qed.

(** What a match of the image extension says about the name. *)
Lemma imageExtension_spec (name : string) (n : nat) :
  imageExtension name = Some n ->
  exists base e,
    name = base ++ String "."%char e
    /\ base = take (String.length name - n) name
    /\ free_of "."%char e = true
    /\ In (toLowerCase_ascii (String "."%char e)) [".jpg"; ".jpeg"; ".png"; ".gif"].
Proof.
  assert (K : forall ext,
            endsWith_ci name ext = true ->
            In ext [".jpg"; ".jpeg"; ".png"; ".gif"] ->
            exists base e,
              name = base ++ String "."%char e
              /\ base = take (String.length name - String.length ext) name
              /\ free_of "."%char e = true
              /\ In (toLowerCase_ascii (String "."%char e))
                   [".jpg"; ".jpeg"; ".png"; ".gif"]).
  { intros ext E I. unfold endsWith_ci in E.
    apply andb_true_iff in E as [_ E]. apply String.eqb_eq in E.
    set (k := String.length name - String.length ext) in *.
    destruct (drop k name) as [|c e] eqn:D.
    - exfalso. simpl in E. subst ext. simpl in I. intuition discriminate.
    - assert (C : c = "."%char).
      { apply Ascii.eqb_eq. rewrite <- lower_dot.
        cbn [toLowerCase_ascii] in E. rewrite <- E in I.
        simpl in I. destruct I as [I | [I | [I | [I | []]]]];
          injection I as I _; rewrite <- I; reflexivity. }
      subst c. exists (take k name), e.
      split; [now rewrite <- D, take_drop|]. split; [reflexivity|]. split.
      + rewrite <- free_of_lower.
        cbn [toLowerCase_ascii] in E. rewrite <- E in I.
        simpl in I. destruct I as [I | [I | [I | [I | []]]]];
          injection I as I; unfold free_of; rewrite <- I; reflexivity.
      + rewrite E. exact I. }
  unfold imageExtension.
  destruct (endsWith_ci name ".jpg") eqn:E1;
    [intros [= <-]; apply (K ".jpg" E1); simpl; tauto|].
  destruct (endsWith_ci name ".jpeg") eqn:E2;
    [intros [= <-]; apply (K ".jpeg" E2); simpl; tauto|].
  destruct (endsWith_ci name ".png") eqn:E3;
    [intros [= <-]; apply (K ".png" E3); simpl; tauto|].
  destruct (endsWith_ci name ".gif") eqn:E4;
    [intros [= <-]; apply (K ".gif" E4); simpl; tauto|].
  discriminate.
Qed.

Lemma toLowerCase_ascii_app (a b : string) :
  toLowerCase_ascii (a ++ b) = toLowerCase_ascii a ++ toLowerCase_ascii b.
Proof. induction a as [|c a IH]; simpl; [reflexivity | now rewrite IH]. Qed.

(** Of two tails of the same string, the shorter is a tail of the
    longer. *)
Lemma suffix_tail (b y : string) : forall a x,
  a ++ x = b ++ y -> String.length x <= String.length y -> exists p, y = p ++ x.
Proof.
  induction b as [|c b IH]; intros a x E L.
  - cbn [append] in E. exists a. now symmetry.
  - destruct a as [|c' a]; cbn [append] in E.
    + exfalso. apply (f_equal String.length) in E. cbn [String.length] in E.
      rewrite length_append in E. lia.
    + injection E as _ E. now apply (IH a x).
Qed.

Lemma endsWith_ci_intro (b e x : string) :
  toLowerCase_ascii e = x -> endsWith_ci (b ++ e) x = true.
Proof.
  intros <-. unfold endsWith_ci. rewrite length_toLowerCase_ascii, length_append.
  replace (String.length b + String.length e - String.length e)
    with (String.length b) by lia.
  rewrite drop_app_length, String.eqb_refl, andb_true_r. apply Nat.leb_le. lia.
Qed.

Lemma endsWith_ci_elim (s x : string) :
  endsWith_ci s x = true ->
  exists b e, s = b ++ e /\ toLowerCase_ascii e = x.
Proof.
  unfold endsWith_ci. intros E. apply andb_true_iff in E as [_ E].
  apply String.eqb_eq in E.
  exists (take (String.length s - String.length x) s),
         (drop (String.length s - String.length x) s).
  split; [symmetry; apply take_drop | exact E].
Qed.

Lemma image_extensions_apart (y x p : string) :
  In y [".jpg"; ".jpeg"; ".png"; ".gif"] -> In x [".jpg"; ".jpeg"; ".png"; ".gif"] ->
  y = p ++ x -> y = x.
Proof.
  intros Iy Ix E.
  destruct p as [|c [|c' p]]; [exact E | |].
  - exfalso. cbn [append] in E.
    destruct Iy as [<- | [<- | [<- | [<- | []]]]];
      destruct Ix as [<- | [<- | [<- | [<- | []]]]]; discriminate E.
  - exfalso. apply (f_equal String.length) in E. cbn [append String.length] in E.
    rewrite length_append in E.
    destruct Iy as [<- | [<- | [<- | [<- | []]]]];
      destruct Ix as [<- | [<- | [<- | [<- | []]]]]; cbn [String.length] in E; lia.
Qed.

(** A name can end with one of the four extensions only. *)
Lemma endsWith_ci_unique (base ext y : string) :
  In (toLowerCase_ascii ext) [".jpg"; ".jpeg"; ".png"; ".gif"] ->
  In y [".jpg"; ".jpeg"; ".png"; ".gif"] ->
  endsWith_ci (base ++ ext) y = true -> y = toLowerCase_ascii ext.
Proof.
  intros Ix Iy E. destruct (endsWith_ci_elim _ _ E) as [b [e [S L]]].
  destruct (le_lt_dec (String.length ext) (String.length e)) as [Le | Le].
  - destruct (suffix_tail b e base ext S Le) as [p ->].
    rewrite toLowerCase_ascii_app in L.
    apply (image_extensions_apart y _ (toLowerCase_ascii p)); auto.
  - symmetry in S. destruct (suffix_tail base ext b e S) as [p P]; [lia|].
    symmetry. rewrite P, toLowerCase_ascii_app, L in *.
    apply (image_extensions_apart _ y (toLowerCase_ascii p)); auto.
Qed.

(** The expression matches every name that ends with one of the four
    extensions, and what it matches is that extension. *)
Lemma imageExtension_complete (base ext : string) :
  In (toLowerCase_ascii ext) [".jpg"; ".jpeg"; ".png"; ".gif"] ->
  imageExtension (base ++ ext) = Some (String.length ext).
Proof.
  intros I. pose proof (endsWith_ci_intro base ext _ eq_refl) as P.
  pose proof (length_toLowerCase_ascii ext) as Len.
  unfold imageExtension.
  destruct (endsWith_ci (base ++ ext) ".jpg") eqn:E1.
  { apply (endsWith_ci_unique base ext) in E1; [|exact I | simpl; tauto].
    rewrite <- E1 in Len. now rewrite <- Len. }
  destruct (endsWith_ci (base ++ ext) ".jpeg") eqn:E2.
  { apply (endsWith_ci_unique base ext) in E2; [|exact I | simpl; tauto].
    rewrite <- E2 in Len. now rewrite <- Len. }
  destruct (endsWith_ci (base ++ ext) ".png") eqn:E3.
  { apply (endsWith_ci_unique base ext) in E3; [|exact I | simpl; tauto].
    rewrite <- E3 in Len. now rewrite <- Len. }
  destruct (endsWith_ci (base ++ ext) ".gif") eqn:E4.
  { apply (endsWith_ci_unique base ext) in E4; [|exact I | simpl; tauto].
    rewrite <- E4 in Len. now rewrite <- Len. }
  exfalso. destruct I as [I | [I | [I | [I | []]]]]; rewrite <- I in P; congruence.
Qed.

(** X7.  [downloadBlobToPath] asks for the path it was given, with one
    exception: when the blob is not binary and its text parses to error
    data (a value other than [null] with [status] equal to [error], or a
    truthy [error] or [error_code]), a path that ends with [.jpg],
    [.jpeg], [.png] or [.gif] (in any case) has that extension replaced
    by [.json], and nothing before the extension changes, so the folder
    is kept.  In every other case, and for every binary blob, the path
    is unchanged.  Without [chrome.downloads] the anchor gets the last
    segment of the final path. *)
Theorem X7_saved_path_changes_only_its_image_extension
    (parsed : option Content.json) (blob : Blob) (filePath : string) :
  exists final,
    downloadBlobToPath true parsed blob filePath = ChromeDownloads final
    /\ downloadBlobToPath false parsed blob filePath = AnchorClick (pop (split final "/"))
    /\ (forall base ext jsonData,
          filePath = base ++ ext ->
          In (toLowerCase_ascii ext) [".jpg"; ".jpeg"; ".png"; ".gif"] ->
          FileUtils.isBinaryBlob blob = false ->
          parsed = Some jsonData -> jsonData <> Content.JNull ->
          isErrorData jsonData = true ->
          final = base ++ ".json")
    /\ (final <> filePath ->
        FileUtils.isBinaryBlob blob = false
        /\ (exists jsonData,
              parsed = Some jsonData /\ jsonData <> Content.JNull
              /\ isErrorData jsonData = true)
        /\ exists base ext,
             filePath = base ++ ext /\ final = base ++ ".json"
             /\ In (toLowerCase_ascii ext) [".jpg"; ".jpeg"; ".png"; ".gif"]).
Proof.
  unfold downloadBlobToPath.
  assert (H : holdsErrorData blob parsed = true <->
              FileUtils.isBinaryBlob blob = false
              /\ exists jsonData, parsed = Some jsonData /\ jsonData <> Content.JNull
                                  /\ isErrorData jsonData = true).
  { unfold holdsErrorData. destruct (FileUtils.isBinaryBlob blob); cbn [negb].
    - split; [discriminate | intros [X _]; discriminate X].
    - destruct parsed as [j|].
      + split.
        * intros E. split; [reflexivity|]. exists j. split; [reflexivity|].
          destruct j; try discriminate E; split; try exact E; discriminate.
        * intros [_ [j' [[= <-] [N E]]]]. destruct j; exact E.
      + split; [discriminate | intros [_ [j [X _]]]; discriminate X]. }
  destruct (holdsErrorData blob parsed) eqn:D.
  - destruct (proj1 H eq_refl) as [B J]. clear H.
    destruct (imageExtension filePath) as [n|] eqn:I.
    + eexists. split; [reflexivity|]. split; [reflexivity|].
      destruct (imageExtension_spec _ _ I) as [base [e [H1 [H2 [_ H4]]]]].
      rewrite <- H2. split.
      * intros base' ext' j F Ie _ _ _ _.
        rewrite F, (imageExtension_complete base' ext' Ie) in I. injection I as <-.
        rewrite H2, F, length_append.
        replace (String.length base' + String.length ext' - String.length ext')
          with (String.length base') by lia.
        now rewrite take_app_length.
      * intros _. split; [exact B|]. split; [exact J|].
        exists base, (String "."%char e). auto.
    + eexists. split; [reflexivity|]. split; [reflexivity|]. split.
      * intros base ext j F Ie _ _ _ _.
        rewrite F, (imageExtension_complete base ext Ie) in I. discriminate I.
      * intros N. congruence.
  - eexists. split; [reflexivity|]. split; [reflexivity|]. split.
    + intros base ext j F Ie B P N E. exfalso.
      assert (X : false = true); [|discriminate X].
      apply H. split; [exact B|]. now exists j.
    + intros N. congruence.
Qed.

Lemma X7_witness :
  downloadBlobToPath true (Some (Content.JObject [("status", Content.JString "error")]))
    Sample.notFoundBlob "chat_2025-01-01_c1/media/fox.PNG"
  = ChromeDownloads "chat_2025-01-01_c1/media/fox.json"
  /\ downloadBlobToPath false (Some (Content.JObject [("status", Content.JString "error")]))
       Sample.notFoundBlob "chat_2025-01-01_c1/media/fox.PNG"
     = AnchorClick "fox.json".
Proof.
  destruct (X7_saved_path_changes_only_its_image_extension
              (Some (Content.JObject [("status", Content.JString "error")]))
              Sample.notFoundBlob "chat_2025-01-01_c1/media/fox.PNG")
    as [final [E1 [E2 [R _]]]].
  rewrite E1, E2.
  rewrite (R "chat_2025-01-01_c1/media/fox" ".PNG" _ eq_refl
             ltac:(right; right; left; reflexivity) eq_refl eq_refl
             ltac:(discriminate) eq_refl).
  split; reflexivity.
Defined.

(** X8.  [downloadBlob] and [downloadBlobToPath] rename alike: for a name
    without a slash, the anchor of [downloadBlobToPath] (taken when
    [chrome.downloads] is missing) gets the very name that [downloadBlob]
    uses, although one cuts the extension with a regular expression and
    the other with [split], [pop] and [join]. *)
Theorem X8_downloadBlob_agrees_with_downloadBlobToPath
    (parsed : option Content.json) (blob : Blob) (filename : string) :
  includes filename "/" = false ->
  downloadBlobToPath false parsed blob filename = downloadBlob parsed blob filename.
Proof.
  intros S. apply (free_of_includes "/"%char) in S.
  unfold downloadBlobToPath, downloadBlob.
  destruct (holdsErrorData blob parsed).
  - destruct (imageExtension filename) as [n|] eqn:I.
    + destruct (imageExtension_spec _ _ I) as [base [e [H1 [H2 [H3 _]]]]].
      rewrite <- H2. f_equal.
      rewrite pop_split_free.
      * rewrite H1. now rewrite (join_removelast_split "."%char base e H3).
      * unfold free_of in *. rewrite all_chars_app. rewrite H2.
        now rewrite all_chars_take.
    + now rewrite pop_split_free.
  - now rewrite pop_split_free.
Qed.

Lemma X8_witness :
  downloadBlobToPath false (Some Sample.notFound) Sample.notFoundBlob "my.fox.Jpeg"
  = downloadBlob (Some Sample.notFound) Sample.notFoundBlob "my.fox.Jpeg"
  /\ downloadBlob (Some Sample.notFound) Sample.notFoundBlob "my.fox.Jpeg"
     = AnchorClick "my.fox.json".
Proof.
  split; [|reflexivity].
  apply X8_downloadBlob_agrees_with_downloadBlobToPath. reflexivity.
Defined.

End SavedNames.

(** ** Identifiers and the work list *)

Section Uuids.
Import Js MediaDownloader Shape.

Lemma replace_class_app (cls : ascii -> bool) (rep a b : string) :
  replace_class cls rep (a ++ b) = replace_class cls rep a ++ replace_class cls rep b.
Proof.
  induction a as [|c a IH]; simpl; [reflexivity|]. now rewrite IH, append_assoc.
Qed.

Lemma drop_drop (n m : nat) (s : string) : drop n (drop m s) = drop (m + n) s.
Proof.
  revert s. induction m as [|m IH]; intros s; simpl; [reflexivity|].
  destruct s as [|c s]; [now destruct n | apply IH].
Qed.

Lemma cut_8_4_4_4_12 (s : string) :
  take 8 s ++ take 4 (drop 8 s) ++ take 4 (drop 12 s) ++ take 4 (drop 16 s)
    ++ take 12 (drop 20 s) ++ drop 32 s = s.
Proof.
  transitivity (take 8 s ++ drop 8 s); [|apply take_drop]. f_equal.
  transitivity (take 4 (drop 8 s) ++ drop 4 (drop 8 s)); [|apply take_drop]. f_equal.
  rewrite drop_drop. cbn [Nat.add].
  transitivity (take 4 (drop 12 s) ++ drop 4 (drop 12 s)); [|apply take_drop]. f_equal.
  rewrite drop_drop. cbn [Nat.add].
  transitivity (take 4 (drop 16 s) ++ drop 4 (drop 16 s)); [|apply take_drop]. f_equal.
  rewrite drop_drop. cbn [Nat.add].
  transitivity (take 12 (drop 20 s) ++ drop 12 (drop 20 s)); [|apply take_drop]. f_equal.
  now rewrite drop_drop.
Qed.

Lemma hyphenate_unfold (s : string) :
  hyphenate s
  = if hex32 s then
      take 8 s ++ "-" ++ take 4 (drop 8 s) ++ "-" ++ take 4 (drop 12 s) ++ "-"
        ++ take 4 (drop 16 s) ++ "-" ++ take 12 (drop 20 s) ++ drop 32 s
    else match s with
         | EmptyString => EmptyString
         | String c s' => String c (hyphenate s')
         end.
Proof. destruct s; reflexivity. Qed.

Lemma withoutHyphens_hyphenate (s : string) :
  withoutHyphens (hyphenate s) = withoutHyphens s.
Proof.
  induction s as [|c s IH]; rewrite hyphenate_unfold.
  - destruct (hex32 EmptyString) eqn:E; [discriminate E | reflexivity].
  - destruct (hex32 (String c s)).
    + unfold withoutHyphens. rewrite !replace_class_app.
      change (replace_class (is_char "-") EmptyString "-") with EmptyString.
      cbn [append]. rewrite <- !replace_class_app. f_equal.
      apply cut_8_4_4_4_12.
    + unfold withoutHyphens in *. cbn [replace_class]. now rewrite IH.
Qed.

Lemma hex_not_i (c : ascii) : is_hex c = true -> Ascii.eqb "i"%char c = false.
Proof.
  destruct c as [[] [] [] [] [] [] [] []]; vm_compute; intros E;
    (reflexivity || discriminate E).
Qed.

Lemma hex_not_dash (c : ascii) : is_hex c = true -> negb (Ascii.eqb c "-"%char) = true.
Proof.
  destruct c as [[] [] [] [] [] [] [] []]; vm_compute; intros E;
    (reflexivity || discriminate E).
Qed.

(** X9.  Putting hyphens into an identifier changes nothing but hyphens:
    [uuidWithHyphens] and the identifier without its [file_] prefix have
    the same code units once hyphens are left out.  An identifier of
    exactly 32 hexadecimal digits becomes the 36 code units of the form
    8-4-4-4-12. *)
Theorem X9_hyphenation_only_inserts_hyphens (cleanId : string) :
  withoutHyphens (uuidWithHyphens cleanId)
  = withoutHyphens (if startsWith cleanId "file_" then substring_from cleanId 5
                    else cleanId)
  /\ (String.length cleanId = 32 -> all_chars is_hex cleanId = true ->
      uuidWithHyphens cleanId = canonical cleanId
      /\ String.length (uuidWithHyphens cleanId) = 36).
Proof.
  split.
  - unfold uuidWithHyphens. cbv zeta.
    destruct (includes _ "-"); [reflexivity | apply withoutHyphens_hyphenate].
  - intros L H.
    assert (F : startsWith cleanId "file_" = false).
    { destruct cleanId as [|c1 [|c2 r]]; try discriminate L.
      cbn [all_chars] in H. apply andb_true_iff in H as [_ H].
      apply andb_true_iff in H as [H _].
      cbn [startsWith]. rewrite (hex_not_i _ H). apply andb_false_r. }
    assert (D : includes cleanId "-" = false).
    { apply (includes_free "-"%char). revert H. apply all_chars_impl, hex_not_dash. }
    assert (E : uuidWithHyphens cleanId = canonical cleanId).
    { unfold uuidWithHyphens. cbv zeta. rewrite F, D, hyphenate_unfold.
      unfold hex32. rewrite (take_all 32 cleanId) by lia.
      rewrite L, H. cbn [Nat.eqb andb].
      assert (Z : drop 32 cleanId = EmptyString).
      { pose proof (take_drop 32 cleanId) as T. rewrite (take_all 32 cleanId) in T by lia.
        rewrite <- (append_nil_r cleanId) in T at 3.
        exact (append_inv_head _ _ _ T). }
      rewrite Z. unfold canonical. now rewrite append_nil_r. }
    split; [exact E|]. rewrite E. unfold canonical.
    rewrite !length_append, !length_take, L.
    assert (K : forall n, n <= 32 -> String.length (drop n cleanId) = 32 - n).
    { intros n Hn. pose proof (take_drop n cleanId) as T.
      apply (f_equal String.length) in T. rewrite length_append, length_take, L in T.
      lia. }
    rewrite !K by lia. reflexivity.
Qed.

Lemma X9_witness :
  uuidWithHyphens "0123456789abcdef0123456789abcdef"
  = "01234567-89ab-cdef-0123-456789abcdef"
  /\ String.length (uuidWithHyphens "0123456789abcdef0123456789abcdef") = 36.
Proof.
  apply (proj2 (X9_hyphenation_only_inserts_hyphens "0123456789abcdef0123456789abcdef"));
    reflexivity.
Defined.

End Uuids.

Section WorkList.
Import Js MediaDownloader Shape.

Lemma unshiftNew_cons (urls : list string) (x : string) (xs : list string) :
  unshiftNew urls (x :: xs)
  = unshiftNew (if arr_includes urls x then urls else x :: urls) xs.
Proof. reflexivity. Qed.



Lemma unshiftNew_length (xs : list string) :
  forall urls, List.length (unshiftNew urls xs) <= List.length urls + List.length xs.
Proof.
  induction xs as [|x xs IH]; intros urls; [simpl; lia|].
  rewrite unshiftNew_cons. specialize (IH (if arr_includes urls x then urls else x :: urls)).
  destruct (arr_includes urls x); simpl in *; lia.
Qed.



End WorkList.

(** ** The strategies of downloadMedia *)

Section Strategies.
Import Js Host MediaFetcher MediaDownloader Observe Shape.

Variable w : World.
Variable ref : MediaRef.
Variable token : string.
Variable conv : option Conversation.

Lemma tryRegions_runs (uuid fullPath : string) (rs : list string) :
  forall tr,
    exists r evs,
      tryRegions w ref uuid fullPath rs tr = (Ret r, List.app tr evs)
      /\ forallb isDirectDownload evs = true
      /\ List.length evs <= List.length rs
      /\ forall res, r = Some res ->
           success res = true /\ contentType res = Some "image/png"
           /\ res_blob res = None.
Proof.
  induction rs as [|region rs IH]; intros tr.
  - exists None, []. rewrite app_nil_r.
    repeat split; try reflexivity; try discriminate; simpl; lia.
  - cbn [tryRegions]. unfold bind, ask.
    destruct (directDownload w tr _ fullPath).
    + eexists. exists [DirectDownload (MediaUrlGenerator.sedimentUrl uuid region) fullPath].
      split; [reflexivity|]. split; [reflexivity|]. split; [simpl; lia|].
      intros res [= <-]. repeat split.
    + destruct (IH (List.app tr
                      [DirectDownload (MediaUrlGenerator.sedimentUrl uuid region) fullPath]))
        as [r [evs [E [F [L R]]]]].
      exists r, (DirectDownload (MediaUrlGenerator.sedimentUrl uuid region) fullPath :: evs).
      rewrite E, <- app_assoc. split; [reflexivity|]. split; [exact F|].
      split; [simpl; lia | exact R].
Qed.

Lemma sedimentStage_runs (tr : trace) :
  exists r evs,
    sedimentStage w ref conv tr = (Ret r, List.app tr evs)
    /\ forallb isDirectDownload evs = true
    /\ List.length evs <= 1 + List.length (regions (config w))
    /\ (isSediment ref = false -> evs = [] /\ r = None)
    /\ forall res, r = Some res ->
         success res = true /\ contentType res = Some "image/png" /\ res_blob res = None.
Proof.
  unfold sedimentStage. destruct (isSediment ref).
  - unfold bind at 1. unfold sasDownload.
    set (uuid := uuidWithHyphens
                   (replace (show (assetPointer ref)) "sediment://" EmptyString)).
    set (path := downloadFolderName conv ++ "/media/"
                 ++ FileUtils.createSuitableFilename ref (Some "image/png")).
    assert (K : forall evs0,
               List.length evs0 <= 1 -> forallb isDirectDownload evs0 = true ->
               exists r evs,
                 tryRegions w ref uuid path (regions (config w)) (List.app tr evs0)
                 = (Ret r, List.app tr evs)
                 /\ forallb isDirectDownload evs = true
                 /\ List.length evs <= 1 + List.length (regions (config w))
                 /\ forall res, r = Some res ->
                      success res = true /\ contentType res = Some "image/png"
                      /\ res_blob res = None).
    { intros evs0 L0 F0.
      destruct (tryRegions_runs uuid path (regions (config w)) (List.app tr evs0))
        as [r [evs [E [F [L R]]]]].
      exists r, (List.app evs0 evs). rewrite E, app_assoc.
      split; [reflexivity|]. split; [now rewrite forallb_app, F0, F|].
      split; [rewrite length_app; lia | exact R]. }
    destruct (hasSasUrl ref).
    + unfold bind, ask. destruct (directDownload w tr _ _).
      * eexists. eexists [_]. split; [reflexivity|]. split; [reflexivity|].
        split; [simpl; lia|]. split; [intros H; discriminate H|].
        intros res [= <-]. repeat split.
      * cbn [ret].
        match goal with
        | |- context [tryRegions _ _ _ _ _ (List.app tr ?e)] =>
            destruct (K e (le_n 1) eq_refl) as [r [evs [E [F [L R]]]]]
        end.
        exists r, evs. rewrite E. split; [reflexivity|]. split; [exact F|].
        split; [exact L|]. split; [intros H; discriminate H | exact R].
    + cbn [ret].
      destruct (K [] (le_S _ _ (le_n 0)) eq_refl) as [r [evs [E [F [L R]]]]].
      rewrite app_nil_r in E.
      exists r, evs. rewrite E. split; [reflexivity|]. split; [exact F|].
      split; [exact L|]. split; [intros H; discriminate H | exact R].
  - exists None, []. rewrite app_nil_r.
    repeat split; try reflexivity; try discriminate; simpl; lia.
Qed.

(** X11.  The sediment strategy of [downloadMedia] always ends, without
    throwing.  All it does is ask the background script for direct
    downloads: one for a signed rendered URL and one per storage region
    at most, and none for a reference that is not a sediment pointer.  A
    result it gives is a success typed [image/png] that carries no blob. *)
Theorem X11_sediment_strategy_is_bounded (tr : trace) :
  exists r evs,
    sedimentStage w ref conv tr = (Ret r, List.app tr evs)
    /\ forallb isDirectDownload evs = true
    /\ List.length evs <= 1 + List.length (regions (config w))
    /\ (isSediment ref = false -> evs = [] /\ r = None)
    /\ forall res, r = Some res ->
         success res = true /\ contentType res = Some "image/png" /\ res_blob res = None.
Proof. apply sedimentStage_runs. Qed.

Lemma renderedStage_runs (tr : trace) : returns (renderedStage w ref conv) tr.
Proof.
  unfold returns, renderedStage.
  destruct (truthy (renderedUrl ref) && startsWith (show (renderedUrl ref)) "http");
    [|eexists; eexists; reflexivity].
  cbv zeta. destruct (chrome_runtime w && chrome_downloads w);
    [|eexists; eexists; reflexivity].
  unfold bind, ask. destruct (chromeDownload w tr _ _); [eexists; eexists; reflexivity|].
  destruct (directDownload w _ _ _); eexists; eexists; reflexivity.
Qed.

Lemma trySigned_runs (fileId : string) (urls : list string) :
  forall errorMessages tr, returns (trySigned w ref fileId errorMessages urls) tr.
Proof.
  unfold returns. induction urls as [|url urls IH]; intros errorMessages tr.
  - eexists; eexists; reflexivity.
  - cbn [trySigned]. unfold fetchFromSignedUrl, bind, ask.
    destruct (fetch w tr url false) as [msg | st h bytes]; cbn [ret]; [apply IH|].
    destruct (ok st); cbn [ret]; [|apply IH].
    destruct (fixContentTypeIssues _ ref); [apply IH | eexists; eexists; reflexivity].
Qed.

(** X12.  [downloadMedia] never throws: whatever the host answers, an
    error becomes a result with [success: false].  A reference that has
    no identifier at all (no asset pointer, file id or canvas id) and no
    rendered URL to download fails with [No valid file identifier found],
    without a single request. *)
Theorem X12_downloadMedia_never_throws (fuel : nat) (tr : trace) :
  (forall msg, fst (downloadMedia w ref token conv fuel tr) <> Raise msg)
  /\ (truthy (assetPointer ref) = false ->
      truthy (fileId ref) = false ->
      truthy (canvasId ref) = false ->
      truthy (renderedUrl ref) && startsWith (show (renderedUrl ref)) "http" = false ->
      downloadMedia w ref token conv fuel tr
      = (Ret (failure ref "No valid file identifier found"), tr)).
Proof.
  split.
  - intros msg. unfold downloadMedia, try_catch.
    match goal with |- fst (match ?b with _ => _ end) <> _ => destruct b as [[a | m |] tr'] end;
      simpl; discriminate.
  - intros A F C R. unfold downloadMedia, try_catch, bind, sedimentStage, isSediment.
    rewrite A. cbn [andb ret]. unfold renderedStage. rewrite R. cbn [ret].
    unfold enumerate, or_else. rewrite A, F, C. reflexivity.
Qed.

End Strategies.

Lemma X12_witness :
  MediaDownloader.downloadMedia Fixture.goodWorld Fixture.noRef "token" None 0 []
  = (Host.Ret (MediaDownloader.failure Fixture.noRef "No valid file identifier found"), []).
Proof.
  apply (proj2 (X12_downloadMedia_never_throws Fixture.goodWorld Fixture.noRef "token"
                  None 0 [])); reflexivity.
Defined.

(** ** The batch, for a set of references that is not empty *)

Section Tally.
Import Js Host MediaFetcher MediaDownloader Observe Shape.

Variable w : World.
Variable token : string.
Variable progressCallback : bool.
Variable conv : option Conversation.
Variable m : nat.
Variable U : list string.
Hypothesis Hm : forall tr fileId domain tok,
  List.length (metadata w tr fileId domain tok) <= m.
Hypothesis HU : forall bytes u, jsonRedirect w bytes = Some u -> In u U.

Lemma generated_length (cfg : option ExportConfig.t) (fileId domain : string) :
  List.length (MediaUrlGenerator.generateAlternativeUrls cfg fileId domain)
  <= List.length (MediaUrlGenerator.regionsOf cfg) + 6.
Proof.
  unfold MediaUrlGenerator.generateAlternativeUrls. cbv zeta.
  destruct (MediaUrlGenerator.isDalleImageNew fileId).
  - rewrite length_app, length_map. simpl. lia.
  - destruct (MediaUrlGenerator.isDalleImageOld fileId); [simpl; lia|].
    destruct (MediaUrlGenerator.isUserUpload fileId); simpl; lia.
Qed.

Lemma initialUrls_length (fileId : string) (P S : list string) :
  List.length (initialUrls w fileId P S)
  <= 12 + List.length P + List.length S + List.length (regions (config w)).
Proof.
  unfold initialUrls. cbv zeta.
  assert (L : List.length (List.app (cdnUrls fileId) (List.app P S))
              = 12 + List.length P + List.length S).
  { rewrite !length_app. unfold cdnUrls. cbv zeta. simpl List.length. lia. }
  destruct (_ || _); [|lia].
  etransitivity; [apply unshiftNew_length|]. rewrite length_map. lia.
Qed.

Lemma enumerate_halts (ref : MediaRef) (fuel : nat) (tr : trace) :
  enoughFuel w m U <= fuel -> halts (enumerate w ref token fuel) tr.
Proof.
  intros Hf. unfold halts, enumerate. cbv zeta.
  destruct (negb (truthy _)); [discriminate|].
  unfold bind at 1, emit at 1. unfold bind at 1, emit at 1.
  set (fid := show (or_else (assetPointer ref) (or_else (fileId ref) (canvasId ref)))).
  set (P := MediaUrlGenerator.generateAlternativeUrls (Some (config w)) fid primaryDomain).
  set (S := MediaUrlGenerator.generateAlternativeUrls (Some (config w)) fid (hostname w)).
  set (tr1 := List.app (List.app tr _) _).
  unfold bind at 1.
  assert (B : exists a tr2,
             downloadViaBackgroundScript w fid (initialUrls w fid P S) token ref tr1
             = (Ret a, tr2)).
  { unfold downloadViaBackgroundScript. destruct (negb (chrome_runtime w));
      [eexists; eexists; reflexivity|].
    cbv zeta. unfold bind, ask. destruct (bgDownloadMedia w _ _ _ _ _);
      eexists; eexists; reflexivity. }
  destruct B as [a [tr2 ->]]. destruct a as [r|]; [discriminate|].
  unfold bind at 1.
  assert (M : exists extra tr3,
             fetchMetadataForUrls w fid primaryDomain token tr2 = (Ret extra, tr3)
             /\ List.length extra <= m).
  { unfold fetchMetadataForUrls. destruct (_ || _).
    - eexists; eexists; split; [reflexivity | apply Hm].
    - eexists; eexists; split; [reflexivity | simpl; lia]. }
  destruct M as [extra [tr3 [-> Le]]].
  set (q := unshiftNew (initialUrls w fid P S) extra).
  assert (Lq : List.length q <= enoughFuel w m U - List.length (nodup string_dec U)).
  { unfold q, enoughFuel.
    pose proof (unshiftNew_length extra (initialUrls w fid P S)).
    pose proof (initialUrls_length fid P S).
    pose proof (generated_length (Some (config w)) fid primaryDomain).
    pose proof (generated_length (Some (config w)) fid (hostname w)).
    fold P in H1. fold S in H2. lia. }
  unfold bind at 1.
  destruct (tryUrls_terminates w ref token fid U HU fuel 0
              {| urlsToTry := q; errorMessages := []; jsonResponseUrls := [] |} tr3)
    as [st' [found [tr4 [ex [-> _]]]]].
  { cbn [urlsToTry]. pose proof (missing_le U q). unfold enoughFuel in *. lia. }
  destruct found as [[r u]|]; [destruct (fixContentTypeIssues r ref); discriminate|].
  unfold bind.
  destruct (trySigned_runs w ref fid (jsonResponseUrls st') (errorMessages st') tr4)
    as [[errs r] [tr5 ->]].
  destruct r; discriminate.
Qed.

Lemma downloadMedia_returns (ref : MediaRef) (fuel : nat) (tr : trace) :
  enoughFuel w m U <= fuel -> returns (downloadMedia w ref token conv fuel) tr.
Proof.
  intros Hf. unfold returns, downloadMedia, try_catch, bind.
  destruct (sedimentStage_runs w ref conv tr) as [r [evs [-> _]]].
  destruct r as [res|]; [eexists; eexists; reflexivity|].
  destruct (renderedStage_runs w ref conv (List.app tr evs)) as [r [tr2 ->]].
  destruct r as [res|]; [eexists; eexists; reflexivity|].
  pose proof (enumerate_halts ref fuel tr2 Hf) as H. unfold halts in H.
  destruct (enumerate w ref token fuel tr2) as [[a | msg |] tr3];
    [eexists; eexists; reflexivity | eexists; eexists; reflexivity |].
  exfalso. apply H. reflexivity.
Qed.

Lemma downloadBlobToPath_runs (b : Blob) (filePath : string) (tr : trace) :
  downloadBlobToPath w b filePath tr
  = (match (if chrome_downloads w then blobDownload w tr b filePath else None) with
     | Some message => Raise message
     | None => Ret tt
     end, List.app tr [SaveBlob b filePath]).
Proof.
  unfold downloadBlobToPath. destruct (chrome_downloads w); [|reflexivity].
  unfold bind, ask. destruct (blobDownload w tr b filePath); reflexivity.
Qed.

Lemma downloadEach_tally (fuel : nat) (folderName : string) (n : nat)
    (refs : list MediaRef) :
  enoughFuel w m U <= fuel ->
  forall i results tr,
    exists o tr',
      downloadEach w token progressCallback conv fuel folderName n i refs results tr
      = (o, tr')
      /\ match o with
         | Ret r =>
             total r = total results
             /\ completed r + failed r
                = completed results + failed results + List.length refs
             /\ List.length (files r) = List.length (files results) + List.length refs
         | Raise message =>
             chrome_downloads w = true
             /\ exists pre b filePath,
                  tr' = List.app pre [SaveBlob b filePath]
                  /\ blobDownload w pre b filePath = Some message
         | OutOfFuel => False
         end
      /\ (chrome_downloads w = false \/ (forall t b p, blobDownload w t b p = None) ->
          exists r, o = Ret r).
Proof.
  intros Hf. induction refs as [|media refs IH]; intros i results tr.
  - exists (Ret results), tr. split; [reflexivity|]. split; [|eauto].
    repeat split; simpl; lia.
  - cbn [downloadEach]. unfold bind at 1.
    assert (P : exists tr1,
               (if progressCallback
                then emit (Progress ("Downloading media " ++ decimal (Datatypes.S i) ++ "/"
                                     ++ decimal n ++ "..."))
                else ret tt) tr = (Ret tt, tr1))
      by (destruct progressCallback; eexists; reflexivity).
    destruct P as [tr1 ->]. unfold bind at 1.
    destruct (downloadMedia_returns media fuel tr1 Hf) as [result [tr2 ->]].
    unfold bind at 1.
    destruct (success result).
    + unfold bind at 1.
      set (path := folderName ++ "/media/"
                   ++ FileUtils.createSuitableFilename media (contentType result)).
      destruct (res_blob result) as [blob|].
      * rewrite downloadBlobToPath_runs.
        destruct (chrome_downloads w) eqn:C.
        -- destruct (blobDownload w tr2 blob path) as [message|] eqn:B.
           ++ exists (Raise message), (List.app tr2 [SaveBlob blob path]).
              split; [reflexivity|]. split.
              ** split; [reflexivity|]. exists tr2, blob, path. auto.
              ** intros [X | X]; [discriminate X | rewrite X in B; discriminate B].
           ++ unfold bind at 1, emit at 1. cbn [ret].
              match goal with
              | |- context [downloadEach _ _ _ _ _ _ _ ?i' refs ?res ?t] =>
                  destruct (IH i' res t) as [o [tr' [E [T S]]]]
              end.
              exists o, tr'. rewrite E. split; [reflexivity|]. split; [|exact S].
              destruct o; auto. cbn [total completed failed files] in *.
              rewrite length_app in T. simpl in *. repeat split; lia.
        -- unfold bind at 1, emit at 1. cbn [ret].
           match goal with
           | |- context [downloadEach _ _ _ _ _ _ _ ?i' refs ?res ?t] =>
               destruct (IH i' res t) as [o [tr' [E [T S]]]]
           end.
           exists o, tr'. rewrite E. split; [reflexivity|]. split; [|exact S].
           destruct o; auto. cbn [total completed failed files] in *.
           rewrite length_app in T. simpl in *. repeat split; lia.
      * unfold bind at 1, emit at 1. cbn [ret].
        match goal with
        | |- context [downloadEach _ _ _ _ _ _ _ ?i' refs ?res ?t] =>
            destruct (IH i' res t) as [o [tr' [E [T S]]]]
        end.
        exists o, tr'. rewrite E. split; [reflexivity|]. split; [|exact S].
        destruct o; auto. cbn [total completed failed files] in *.
        rewrite length_app in T. simpl in *. repeat split; lia.
    + cbn [ret].
      match goal with
      | |- context [downloadEach _ _ _ _ _ _ _ ?i' refs ?res ?t] =>
          destruct (IH i' res t) as [o [tr' [E [T S]]]]
      end.
      exists o, tr'. rewrite E. split; [reflexivity|]. split; [|exact S].
      destruct o; auto. cbn [total completed failed files] in *.
      rewrite length_app in T. simpl in *. repeat split; lia.
Qed.

Lemma correlate_length (refs : list MediaRef) :
  List.length (correlate w conv refs) = List.length refs.
Proof.
  unfold correlate. destruct (media_extractor w); [|reflexivity].
  unfold MediaExtractor.findRenderedImages. rewrite length_map.
  destruct conv as [c|]; [|reflexivity].
  destruct (findSedimentUrlsInJson c); [reflexivity | now rewrite length_map].
Qed.

(** X13.  For a set of references that is not empty, [downloadAllMedia]
    ends, on every host whose info endpoints give at most [m] URLs and
    whose redirects come from a finite set [U], with the fuel of
    [enoughFuel] for its candidate loop.  Either it returns a tally that
    adds up: [total] is the number of references, every reference is
    counted once, as completed or as failed, and [files] has one entry
    for each.  Or it throws: then [chrome.downloads] is there, the last
    call made is the save of a fetched blob, and the error is the
    [lastError] message of that save.  It returns whenever
    [chrome.downloads] is missing or no save of a blob reports an
    error. *)
Theorem X13_batch_tally_adds_up (fuel : nat) (refs : list MediaRef) (tr : trace) :
  refs <> [] ->
  enoughFuel w m U <= fuel ->
  exists o tr',
    downloadAllMedia w token progressCallback conv fuel refs tr = (o, tr')
    /\ match o with
       | Ret results =>
           total results = List.length refs
           /\ completed results + failed results = total results
           /\ List.length (files results) = total results
       | Raise message =>
           chrome_downloads w = true
           /\ exists pre b filePath,
                tr' = List.app pre [SaveBlob b filePath]
                /\ blobDownload w pre b filePath = Some message
       | OutOfFuel => False
       end
    /\ (chrome_downloads w = false \/ (forall t b p, blobDownload w t b p = None) ->
        exists results, o = Ret results).
Proof.
  intros Hne Hf. unfold downloadAllMedia. cbv zeta.
  assert (L : List.length (map enhance (correlate w conv refs)) = List.length refs)
    by now rewrite length_map, correlate_length.
  assert (Z : Nat.eqb (List.length (map enhance (correlate w conv refs))) 0 = false).
  { rewrite L. destruct refs; [congruence | reflexivity]. }
  unfold bind at 1.
  assert (R : forall r0,
             match conv with
             | Some c =>
                 if Nat.eqb (List.length (map enhance (correlate w conv refs))) 0
                    || Nat.ltb 0 (failed r0)
                 then downloadDirectUrls w (downloadFolderName conv) 0
                        (allUrlMatches (conv_json c)) r0
                 else ret r0
             | None => ret r0
             end tr = (if Nat.ltb 0 (failed r0) then
                         match conv with
                         | Some c => downloadDirectUrls w (downloadFolderName conv) 0
                                       (allUrlMatches (conv_json c)) r0 tr
                         | None => (Ret r0, tr)
                         end
                       else (Ret r0, tr))).
  { intros r0. rewrite Z. destruct conv; destruct (Nat.ltb 0 (failed r0)); reflexivity. }
  rewrite R. cbn [failed Nat.ltb Nat.leb].
  match goal with
  | |- context [downloadEach _ _ _ _ _ ?f ?n ?i ?rs ?res ?t] =>
      destruct (downloadEach_tally fuel f n rs Hf i res t) as [o [tr' [E [T S]]]]
  end.
  exists o, tr'. rewrite E. split; [reflexivity|]. split; [|exact S].
  destruct o; auto. cbn [total completed failed files] in *.
  rewrite L, correlate_length in *. simpl in *. repeat split; lia.
Qed.

End Tally.

Lemma X13_witness :
  exists o tr',
    MediaDownloader.downloadAllMedia Fixture.deadWorld "token" true None 63
      [Fixture.foxRef; Fixture.uploadRef] [] = (o, tr')
    /\ match o with
       | Host.Ret results =>
           MediaDownloader.total results = 2
           /\ MediaDownloader.completed results + MediaDownloader.failed results
              = MediaDownloader.total results
           /\ List.length (MediaDownloader.files results) = MediaDownloader.total results
       | Host.Raise message =>
           Host.chrome_downloads Fixture.deadWorld = true
           /\ exists pre b filePath,
                tr' = List.app pre [Host.SaveBlob b filePath]
                /\ Host.blobDownload Fixture.deadWorld pre b filePath = Some message
       | Host.OutOfFuel => False
       end
    /\ (Host.chrome_downloads Fixture.deadWorld = false
        \/ (forall t b p, Host.blobDownload Fixture.deadWorld t b p = None) ->
        exists results, o = Host.Ret results).
Proof.
  apply (X13_batch_tally_adds_up Fixture.deadWorld "token" true None 0 []).
  - intros. simpl. lia.
  - intros bytes u H. discriminate H.
  - discriminate.
  - vm_compute. lia.
Defined.

(** ** The expressions of the downloader *)

Section Matches.
Import Js Pattern.

Lemma strip_spec (lit s r : string) : strip lit s = Some r -> s = lit ++ r.
Proof.
  unfold strip. destruct (startsWith s lit) eqn:E; [|discriminate].
  intros [= <-]. now apply startsWith_split.
Qed.

Lemma scheme_spec (s r : string) :
  scheme s = Some r -> s = "http://" ++ r \/ s = "https://" ++ r.
Proof.
  unfold scheme. destruct (strip "http" s) as [r1|] eqn:E1; [|discriminate].
  apply strip_spec in E1. subst s.
  destruct (strip "s://" r1) as [r2|] eqn:E2.
  - intros [= <-]. apply strip_spec in E2. subst r1. now right.
  - intros E3. apply strip_spec in E3. subst r1. now left.
Qed.

Lemma span_spec (p : ascii -> bool) (s a b : string) :
  span p s = (a, b) -> s = a ++ b /\ all_chars p a = true.
Proof.
  revert a b. induction s as [|c s IH]; intros a b; cbn [span].
  - intros [= <- <-]. split; reflexivity.
  - destruct (p c) eqn:E.
    + destruct (span p s) as [a' b'] eqn:S. intros [= <- <-].
      destruct (IH _ _ eq_refl) as [-> H]. split; [reflexivity|].
      cbn [all_chars]. now rewrite E, H.
    + intros [= <- <-]. split; reflexivity.
Qed.

Lemma take_prefix (a b : string) :
  take (String.length (a ++ b) - String.length b) (a ++ b) = a.
Proof.
  rewrite length_append. replace (String.length a + String.length b - String.length b)
    with (String.length a) by lia.
  apply take_app_length.
Qed.

Lemma matched_spec {A : Type} (pre rest : string) (f : string -> A) (x : A) (n : nat) :
  matched (pre ++ rest) rest f = Some (x, n) -> x = f pre /\ n = String.length pre.
Proof.
  unfold matched. intros [= <- <-]. rewrite take_prefix, length_append.
  split; [reflexivity | lia].
Qed.

Lemma matchAll_In {A : Type} (m : string -> option (A * nat)) (a : A) (s : string) :
  forall skip, In a (matchAll m skip s) -> exists s' n, m s' = Some (a, n).
Proof.
  induction s as [|c s IH]; intros skip; cbn [matchAll]; [intros []|].
  destruct skip as [|k]; [|apply IH].
  destruct (m (String c s)) as [[x n]|] eqn:E; [|apply IH].
  intros [<- | H]; [now exists (String c s), n | exact (IH _ H)].
Qed.

Lemma includes_skip (a b d : string) : includes b d = true -> includes (a ++ b) d = true.
Proof.
  intros H. induction a as [|c a IH]; [exact H|].
  cbn [append includes]. rewrite IH. apply orb_true_r.
Qed.

Lemma includes_prefix (d b : string) : includes (d ++ b) d = true.
Proof. apply includes_startsWith, startsWith_refl_app. Qed.

(** What a match of the signed storage URL is made of. *)
Lemma sedimentSas_spec (s uuid whole : string) (n : nat) :
  sedimentSas s = Some ((uuid, whole), n) ->
  exists sch host tail,
    whole = sch ++ "sdmntpr" ++ host ++ ".oaiusercontent.com/files/" ++ uuid
              ++ "/raw?" ++ tail
    /\ (sch = "http://" \/ sch = "https://")
    /\ uuid <> EmptyString /\ all_chars hex_or_dash uuid = true
    /\ tail <> EmptyString.
Proof.
  unfold sedimentSas.
  destruct (scheme s) as [r1|] eqn:E1; [|discriminate].
  destruct (strip "sdmntpr" r1) as [r2|] eqn:E2; [|discriminate].
  destruct (span lower_or_digit r2) as [host r2'] eqn:E3. cbn [snd].
  destruct (strip ".oaiusercontent.com/files/" r2') as [r3|] eqn:E4; [|discriminate].
  destruct (span hex_or_dash r3) as [u r4] eqn:E5.
  destruct (strip "/raw?" r4) as [r5|] eqn:E6; [|discriminate].
  cbv zeta. destruct (span url_char r5) as [tail r6] eqn:E7.
  match goal with |- (if ?c then _ else _) = _ -> _ => destruct c eqn:C end;
    [|discriminate].
  apply strip_spec in E2, E4, E6. apply span_spec in E3 as [E3 _].
  apply span_spec in E5 as [E5 Hu]. apply span_spec in E7 as [E7 _].
  repeat (apply andb_true_iff in C as [C ?]).
  assert (S : exists sch, (sch = "http://" \/ sch = "https://") /\ s = sch ++ r1).
  { destruct (scheme_spec _ _ E1) as [-> | ->];
      [exists "http://" | exists "https://"]; split; auto. }
  destruct S as [sch [Hs ->]].
  subst r1 r2 r2' r3 r4 r5.
  replace (sch ++ "sdmntpr" ++ host ++ ".oaiusercontent.com/files/" ++ u ++ "/raw?"
             ++ tail ++ r6)
    with ((sch ++ "sdmntpr" ++ host ++ ".oaiusercontent.com/files/" ++ u ++ "/raw?"
             ++ tail) ++ r6)
    by (repeat first [reflexivity | rewrite append_assoc; f_equal]).
  intros M. apply matched_spec in M as [M _]. injection M as -> ->.
  exists sch, host, tail. split; [reflexivity|]. split; [exact Hs|].
  split; [|split; [exact Hu|]].
  - intros ->. discriminate.
  - intros ->. discriminate.
Qed.

End Matches.

Section SignedUrls.
Import Js MediaDownloader Pattern.

Lemma signed_url_shape (conv : Conversation) (uuid url : string) :
  In (uuid, url) (findSedimentUrlsInJson conv) ->
  startsWith url "http" = true
  /\ includes url "sdmntpr" = true
  /\ includes url "/raw" = true
  /\ includes url "sig=" = true
  /\ includes url ("/files/" ++ uuid ++ "/raw?") = true
  /\ uuid <> EmptyString
  /\ all_chars hex_or_dash uuid = true.
Proof.
  unfold findSedimentUrlsInJson. intros H. apply filter_In in H as [H S].
  cbn [snd] in S.
  apply matchAll_In in H as [s' [n H]].
  apply sedimentSas_spec in H as [sch [host [tail [-> [Hs [Hu [Hh _]]]]]]].
  split; [destruct Hs as [-> | ->]; reflexivity|].
  split; [apply includes_skip, includes_prefix|].
  split.
  { do 5 apply includes_skip.
    change ("/raw?" ++ tail) with ("/raw" ++ "?" ++ tail). apply includes_prefix. }
  split; [exact S|]. split; [|split; assumption].
  do 3 apply includes_skip.
  change (".oaiusercontent.com/files/" ++ uuid ++ "/raw?" ++ tail)
    with (".oaiusercontent.com" ++ "/files/" ++ uuid ++ "/raw?" ++ tail).
  apply includes_skip.
  replace ("/files/" ++ uuid ++ "/raw?" ++ tail)
    with (("/files/" ++ uuid ++ "/raw?") ++ tail)
    by (repeat first [reflexivity | rewrite append_assoc; f_equal]).
  apply includes_prefix.
Qed.

Lemma includes_nonempty (s d : string) :
  d <> EmptyString -> includes s d = true -> truthy (Some s) = true.
Proof.
  intros Hd H. apply truthy_nonempty. intros ->.
  destruct d; [congruence | discriminate H].
Qed.

(** X14.  Every URL that [findSedimentUrlsInJson] reports passes the test
    that [downloadMedia] puts on a signed rendered URL: it starts with
    [http] and contains [sdmntpr], [/raw] and [sig=]; its uuid is a
    non-empty run of hexadecimal digits and hyphens that stands in the
    URL between [/files/] and [/raw?].  So the correlation step of
    [downloadAllMedia] either leaves a reference as it is, or turns it
    into a sediment reference that qualifies for the signed-URL
    download. *)
Theorem X14_correlated_urls_qualify_for_signed_download (conv : Conversation) :
  (forall uuid url,
     In (uuid, url) (findSedimentUrlsInJson conv) ->
     startsWith url "http" = true
     /\ includes url ("/files/" ++ uuid ++ "/raw?") = true
     /\ uuid <> EmptyString
     /\ all_chars hex_or_dash uuid = true
     /\ forall ref, hasSasUrl (set_renderedUrl ref (Some url)) = true)
  /\ forall ref,
       let ref' := mapSedimentUrl (findSedimentUrlsInJson conv) ref in
       ref' = ref \/ (isSediment ref' = true /\ hasSasUrl ref' = true).
Proof.
  split.
  - intros uuid url H.
    destruct (signed_url_shape conv uuid url H) as [H1 [H2 [H3 [H4 [H5 [H6 H7]]]]]].
    repeat split; auto.
    intros ref. unfold hasSasUrl. cbn [renderedUrl set_renderedUrl show].
    rewrite H2, H3, H4, (includes_nonempty url "sig=") by (discriminate || exact H4).
    reflexivity.
  - intros ref ref'. subst ref'. unfold mapSedimentUrl.
    destruct (isSediment ref) eqn:S; [|now left].
    cbv zeta.
    match goal with |- context [find ?f ?l] => destruct (find f l) as [[u url]|] eqn:F end;
      [|now left].
    cbn [snd]. destruct (truthy (Some url)) eqn:T; [|now left].
    right. apply find_some in F as [F _].
    destruct (signed_url_shape conv u url F) as [_ [H2 [H3 [H4 _]]]].
    split; [exact S|].
    unfold hasSasUrl. cbn [renderedUrl set_renderedUrl show].
    now rewrite T, H2, H3, H4.
Qed.

Lemma X14_witness :
  hasSasUrl (mapSedimentUrl (findSedimentUrlsInJson Sample.signedConversation)
               Sample.generatedRef) = true
  /\ renderedUrl (mapSedimentUrl (findSedimentUrlsInJson Sample.signedConversation)
                    Sample.generatedRef) = Some Sample.signedUrl.
Proof.
  split; [|reflexivity].
  destruct (proj2 (X14_correlated_urls_qualify_for_signed_download
                     Sample.signedConversation) Sample.generatedRef) as [E | [_ H]].
  - discriminate E.
  - exact H.
Defined.

End SignedUrls.

(** ** Content types of fetched files *)

Section ContentTypes.
Import Js Host FileUtils MediaFetcher.

(** X15.  For a response that has a blob and a content type,
    [fixContentTypeIssues] returns, and makes the content type agree with
    the extension of the name the file will get: for [png] the type
    contains [png] and not [json], for [jpg] and [jpeg] it contains
    [jpeg] and not [json]; for any other extension the response is
    returned as it is.  The bytes, the success flag and the method never
    change.  For a response that has a blob and no content type, it
    throws a [TypeError] when that extension is [png], [jpg] or [jpeg],
    and returns the response as it is otherwise. *)
Theorem X15_content_type_follows_the_extension
    (response : Result) (ref : MediaRef) (b : Blob) :
  res_blob response = Some b ->
  let ext := toLowerCase (pop (split (createSuitableFilename ref (contentType response))
                                "."))
  in
  (forall ct,
     contentType response = Some ct ->
     exists fixed,
       fixContentTypeIssues response ref = inr fixed
       /\ option_map blob_bytes (res_blob fixed) = Some (blob_bytes b)
       /\ success fixed = success response
       /\ method fixed = method response
       /\ (ext = "png" ->
           includes (show (contentType fixed)) "png" = true
           /\ includes (show (contentType fixed)) "json" = false)
       /\ (ext = "jpg" \/ ext = "jpeg" ->
           includes (show (contentType fixed)) "jpeg" = true
           /\ includes (show (contentType fixed)) "json" = false)
       /\ (ext <> "png" -> ext <> "jpg" -> ext <> "jpeg" -> fixed = response))
  /\ (contentType response = None ->
      (ext = "png" \/ ext = "jpg" \/ ext = "jpeg" ->
       fixContentTypeIssues response ref
       = inl "Cannot read properties of undefined (reading 'includes')")
      /\ (ext <> "png" -> ext <> "jpg" -> ext <> "jpeg" ->
          fixContentTypeIssues response ref = inr response)).
Proof.
  intros Hb ext. split.
  - intros ct Hc. unfold fixContentTypeIssues. rewrite Hb. cbv zeta.
    fold ext. rewrite Hc.
    assert (T : forall t, option_map blob_bytes (res_blob (retype response t))
                          = Some (blob_bytes b))
      by (intros t; unfold retype; rewrite Hb; reflexivity).
    destruct (String.eqb_spec ext "jpg") as [J | J];
      [|destruct (String.eqb_spec ext "jpeg") as [J' | J']].
    + rewrite J. cbn [String.eqb Ascii.eqb Bool.eqb orb andb].
      destruct (negb (includes ct "jpeg") || includes ct "json") eqn:C.
      * eexists. split; [reflexivity|]. rewrite T.
        repeat split; intros; try reflexivity; try discriminate; congruence.
      * apply orb_false_iff in C as [C1 C2]. apply negb_false_iff in C1.
        eexists. split; [reflexivity|]. rewrite Hb, Hc. cbn [show option_map].
        repeat split; intros; try reflexivity; try discriminate;
          try assumption; congruence.
    + rewrite J'. cbn [String.eqb Ascii.eqb Bool.eqb orb andb].
      destruct (negb (includes ct "jpeg") || includes ct "json") eqn:C.
      * eexists. split; [reflexivity|]. rewrite T.
        repeat split; intros; try reflexivity; try discriminate; congruence.
      * apply orb_false_iff in C as [C1 C2]. apply negb_false_iff in C1.
        eexists. split; [reflexivity|]. rewrite Hb, Hc. cbn [show option_map].
        repeat split; intros; try reflexivity; try discriminate;
          try assumption; congruence.
    + cbn [orb andb]. rewrite Hc. cbn [show].
      destruct (String.eqb_spec ext "png") as [P | P]; cbn [andb].
      * destruct (negb (includes ct "png") || includes ct "json") eqn:C.
        -- eexists. split; [reflexivity|]. rewrite T.
           repeat split; intros; try reflexivity; try congruence;
             intuition congruence.
        -- apply orb_false_iff in C as [C1 C2]. apply negb_false_iff in C1.
           eexists. split; [reflexivity|]. rewrite Hb, Hc. cbn [show option_map].
           repeat split; intros; try reflexivity; try assumption;
             try congruence; intuition congruence.
      * eexists. split; [reflexivity|]. rewrite Hb.
        repeat split; intros; try reflexivity; try congruence;
          intuition congruence.
  - intros Hc. unfold fixContentTypeIssues. rewrite Hb. cbv zeta. fold ext.
    rewrite Hc. split.
    + intros [E | [E | E]]; rewrite E; reflexivity.
    + intros P J J'.
      destruct (String.eqb_spec ext "jpg"); [congruence|].
      destruct (String.eqb_spec ext "jpeg"); [congruence|].
      destruct (String.eqb_spec ext "png"); [congruence|]. reflexivity.
Qed.

Lemma X15_witness :
  (exists fixed,
     fixContentTypeIssues Sample.mistyped Fixture.uploadRef = inr fixed
     /\ option_map blob_bytes (res_blob fixed) = Some (Observe.png [])
     /\ contentType fixed = Some "image/png")
  /\ fixContentTypeIssues Sample.untyped Fixture.uploadRef
     = inl "Cannot read properties of undefined (reading 'includes')".
Proof.
  split.
  - destruct (proj1 (X15_content_type_follows_the_extension Sample.mistyped
                       Fixture.uploadRef (newBlob (Observe.png []) "application/json")
                       eq_refl) "application/json" eq_refl)
      as [fixed [E [B _]]].
    exists fixed. split; [exact E|]. split; [exact B|].
    injection E as <-. reflexivity.
  - apply (proj2 (X15_content_type_follows_the_extension Sample.untyped
                    Fixture.uploadRef (newBlob (Observe.png []) EmptyString) eq_refl)
             eq_refl).
    left. reflexivity.
Defined.

(** X16.  A file that [fetchDirectly] accepts always has a content type,
    and never [application/json]: a missing or generic type is replaced
    by the default of the media type, so [application/octet-stream] is
    left only for a reference that is not an image, an audio or a video.
    The result holds the bytes as fetched. *)
Theorem X16_direct_fetch_never_confirms_json
    (w : World) (header : option string) (bytes : list N) (fileId : string)
    (ref : MediaRef) (r : Result) :
  checkDirect w header bytes fileId ref = Downloaded r ->
  truthy (contentType r) = true
  /\ contentType r <> Some "application/json"
  /\ (contentType r = Some "application/octet-stream" ->
      equals (type ref) "image" = false /\ equals (type ref) "audio" = false
      /\ equals (type ref) "video" = false)
  /\ method r = Some "direct_fetch"
  /\ success r = true
  /\ option_map blob_bytes (res_blob r) = Some bytes.
Proof.
  unfold checkDirect. cbv zeta.
  destruct (negb (isBinaryBlob (newBlob bytes EmptyString))).
  - unfold redirectOrNull. destruct (jsonRedirect w bytes) as [u|]; [|discriminate].
    destruct (truthy (Some u)); discriminate.
  - set (ct := or_else (detectFileTypeFromBytes (firstn 12 bytes)) header).
    destruct (negb (truthy ct) || equals ct "application/octet-stream"
              || equals ct "application/json") eqn:C.
    + destruct (equals (type ref) "image") eqn:I;
        [|destruct (equals (type ref) "audio") eqn:A;
          [|destruct (equals (type ref) "video") eqn:V]];
        intros [= <-]; repeat split; intros; try reflexivity; discriminate.
    + apply orb_false_iff in C as [C C3]. apply orb_false_iff in C as [C1 C2].
      apply negb_false_iff in C1.
      destruct ct as [x|]; [|discriminate C1]. cbn [show equals] in *.
      intros [= <-]. cbn [contentType method success res_blob fetched].
      split; [exact C1|]. split; [|split; [|repeat split]].
      * intros [= ->]. discriminate C3.
      * intros [= ->]. discriminate C2.
Qed.

Lemma X16_witness :
  truthy (contentType Sample.directPng) = true
  /\ contentType Sample.directPng <> Some "application/json"
  /\ (contentType Sample.directPng = Some "application/octet-stream" ->
      equals (type Fixture.uploadRef) "image" = false
      /\ equals (type Fixture.uploadRef) "audio" = false
      /\ equals (type Fixture.uploadRef) "video" = false)
  /\ method Sample.directPng = Some "direct_fetch"
  /\ success Sample.directPng = true
  /\ option_map blob_bytes (res_blob Sample.directPng) = Some (Observe.png []).
Proof.
  apply (X16_direct_fetch_never_confirms_json Fixture.deadWorld
           (Some "application/json") (Observe.png []) "file-abc" Fixture.uploadRef).
  reflexivity.
Defined.

End ContentTypes.

(** ** The media list of the ChatGPT handler *)

Section MediaList.
Import Js ChatGPTHandler Observe Shape.

Lemma replace_class_clean (cls ok : ascii -> bool) (rep s : string) :
  (forall c, cls c = false -> ok c = true) -> all_chars ok rep = true ->
  all_chars ok (replace_class cls rep s) = true.
Proof.
  intros H R. induction s as [|c s IH]; cbn [replace_class]; [reflexivity|].
  rewrite all_chars_app, IH, andb_true_r.
  destruct (cls c) eqn:E; [exact R|]. cbn [all_chars]. now rewrite (H c E).
Qed.

Lemma replace_class_id (cls : ascii -> bool) (rep s : string) :
  all_chars (fun c => negb (cls c)) s = true -> replace_class cls rep s = s.
Proof.
  induction s as [|c s IH]; cbn [replace_class all_chars]; [reflexivity|].
  intros E. apply andb_true_iff in E as [E1 E2]. apply negb_true_iff in E1.
  now rewrite E1, (IH E2).
Qed.

Lemma uint_digits (u : Decimal.uint) :
  all_chars is_digit (NilEmpty.string_of_uint u) = true.
Proof. induction u; cbn [NilEmpty.string_of_uint all_chars]; auto. Qed.

Lemma decimal_digits (n : nat) : all_chars is_digit (decimal n) = true.
Proof. apply uint_digits. Qed.

Lemma digit_name_char (c : ascii) : is_digit c = true -> name_char c = true.
Proof.
  destruct c as [[] [] [] [] [] [] [] []]; vm_compute; intros E;
    (reflexivity || discriminate E).
Qed.

Lemma name_char_not_slash (c : ascii) :
  name_char c = true -> negb (Ascii.eqb c "/"%char) = true.
Proof.
  destruct c as [[] [] [] [] [] [] [] []]; vm_compute; intros E;
    (reflexivity || discriminate E).
Qed.

Lemma resolveBaseName_clean (m : NameMap) (index : nat) (ref : MediaRef) :
  all_chars name_char (resolveBaseName m index ref) = true.
Proof.
  unfold resolveBaseName. cbv zeta. apply replace_class_clean; [|reflexivity].
  intros c E. unfold name_char. now rewrite E.
Qed.

Lemma suffixed_clean (b : string) (k : nat) :
  all_chars name_char b = true -> all_chars name_char (suffixed b k) = true.
Proof.
  intros H. unfold suffixed.
  assert (D : all_chars name_char (decimal k) = true)
    by (apply (all_chars_impl is_digit); [apply digit_name_char | apply decimal_digits]).
  destruct (lastIndexOf b "."%char) as [i|].
  - rewrite substring_0. unfold substring_from.
    change (?a ++ "_" ++ ?x ++ ?y) with (a ++ String "_"%char (x ++ y)).
    rewrite all_chars_app. cbn [all_chars]. rewrite all_chars_app.
    now rewrite all_chars_take, D, all_chars_drop.
  - change (?a ++ "_" ++ ?x) with (a ++ String "_"%char x).
    rewrite all_chars_app. cbn [all_chars]. now rewrite H, D.
Qed.

Lemma dedupe_result (fuel : nat) : forall used b c fin name,
  dedupe fuel used b c fin = Some name -> name = fin \/ exists k, name = suffixed b k.
Proof.
  induction fuel as [|fuel IH]; intros used b c fin name; cbn [dedupe];
    destruct (arr_includes used fin).
  - discriminate.
  - intros [= <-]. now left.
  - intros H. right. destruct (IH _ _ _ _ _ H) as [-> | [k ->]]; eauto.
  - intros [= <-]. now left.
Qed.

Lemma resolveUrl_http (ref : MediaRef) (url : string) :
  resolveUrl ref = Some url ->
  startsWith url "http" = true /\ equals (type ref) "audio" = false.
Proof.
  unfold resolveUrl. destruct (equals (type ref) "audio"); [discriminate|].
  cbv zeta.
  match goal with |- (if ?c then _ else _) = _ -> _ => destruct c end; [discriminate|].
  match goal with |- (if ?c then _ else _) = _ -> _ => destruct c eqn:E end;
    [discriminate|].
  intros [= <-]. apply orb_false_iff in E as [_ E]. apply negb_false_iff in E.
  split; [exact E | reflexivity].
Qed.

Lemma forEachRef_exported (fuel : nat) (m : NameMap) (all : list MediaRef)
    (refs : list MediaRef) :
  forall index media used,
    List.length used + List.length refs < fuel ->
    incl refs all ->
    Forall (exported all) media ->
    exists media' used',
      forEachRef fuel m index refs media used = Some (media', used')
      /\ Forall (exported all) media'
      /\ List.length media' <= List.length media + List.length refs
      /\ List.length used' <= List.length used + List.length refs.
Proof.
  induction refs as [|ref refs IH]; intros index media used L I F.
  - exists media, used. repeat split; auto; simpl; lia.
  - cbn [forEachRef]. cbn [List.length] in L.
    assert (I' : incl refs all) by (intros x Hx; apply I; now right).
    destruct (resolveUrl ref) as [url|] eqn:R.
    + destruct (dedupe_total fuel used (resolveBaseName m index ref) 1
                  (resolveBaseName m index ref)) as [name D]; [lia|].
      rewrite D.
      destruct (IH (S index)
                  (List.app media [{| media_url := url; media_filename := name;
                                      originalRef := ref |}])
                  (List.app used [name])) as [media' [used' [E [F' [L1 L2]]]]].
      * rewrite length_app. simpl. lia.
      * exact I'.
      * apply Forall_app. split; [exact F|]. constructor; [|constructor].
        destruct (resolveUrl_http _ _ R) as [H1 H2].
        assert (C : all_chars name_char name = true).
        { destruct (dedupe_result _ _ _ _ _ _ D) as [-> | [k ->]];
            [|apply suffixed_clean]; apply resolveBaseName_clean. }
        unfold exported. cbn [media_url media_filename originalRef].
        repeat split; auto.
        -- apply I. now left.
        -- apply (includes_free "/"%char). revert C.
           apply all_chars_impl, name_char_not_slash.
      * exists media', used'. rewrite E. rewrite !length_app in *. simpl in *.
        repeat split; auto; lia.
    + destruct (IH (S index) media used) as [media' [used' [E [F' [L1 L2]]]]];
        [lia | exact I' | exact F|].
      exists media', used'. rewrite E. cbn [List.length]. repeat split; auto; lia.
Qed.

(** X17.  Whatever the references, the media list that
    [ChatGPTHandler.extract] builds from them has only entries that can
    go into the archive: every URL starts with [http], no entry is an
    audio reference, every entry comes from a reference that was given,
    and every file name is made of letters, digits, underscore, hyphen,
    dot, white space and parentheses, so it holds no slash.  The loop
    ends with fuel above the number of references. *)
Theorem X17_media_entries_are_archivable
    (fuel : nat) (fileIdToName : NameMap) (refs : list MediaRef) :
  List.length refs < fuel ->
  exists media usedFilenames,
    extractMedia fuel fileIdToName refs = Some (media, usedFilenames)
    /\ Forall (exported refs) media
    /\ List.length media <= List.length refs.
Proof.
  intros L. unfold extractMedia.
  destruct (forEachRef_exported fuel fileIdToName refs refs 0 [] [])
    as [media [used [E [F [L1 _]]]]].
  - simpl. lia.
  - apply incl_refl.
  - constructor.
  - exists media, used. auto.
Qed.

Lemma X17_witness :
  exists media usedFilenames,
    extractMedia 4 [] Sample.mixedRefs = Some (media, usedFilenames)
    /\ Forall (exported Sample.mixedRefs) media
    /\ List.length media <= List.length Sample.mixedRefs.
Proof. apply X17_media_entries_are_archivable. simpl. lia. Defined.

Example mixed_names :
  option_map (fun r => map media_filename (fst r)) (extractMedia 4 [] Sample.mixedRefs)
  = Some ["file_1.jpg"; "a_b_c.png"].
Proof. reflexivity. Qed.

Lemma get_set (m : NameMap) (k v : string) : get (set m k v) k = Some v.
Proof. unfold set. cbn [get]. now rewrite String.eqb_refl. Qed.

Lemma get_addAttachment (m : NameMap) (att : option string * option string)
    (k : string) :
  (In k (keysOf att) -> get (addAttachment m att) k = Some (show (snd att)))
  /\ (~ In k (keysOf att) -> get (addAttachment m att) k = get m k).
Proof.
  destruct att as [id name]. unfold addAttachment, keysOf. cbn [fst snd].
  destruct (truthy id && truthy name); [|split; [intros [] | reflexivity]].
  destruct (startsWith (show id) "file-"); unfold set; cbn [get In]; split.
  - intros [<- | [<- | []]].
    + destruct (String.eqb (show id) (substring_from (show id) 5)); [reflexivity|].
      now rewrite String.eqb_refl.
    + now rewrite String.eqb_refl.
  - intros N.
    destruct (String.eqb_spec k (substring_from (show id) 5)) as [-> | _]; [tauto|].
    destruct (String.eqb_spec k (show id)) as [-> | _]; [tauto | reflexivity].
  - intros [<- | []]. now rewrite String.eqb_refl.
  - intros N. destruct (String.eqb_spec k (show id)) as [-> | _]; [tauto | reflexivity].
Qed.

Lemma get_fold_addAttachment (k : string) (atts : list (option string * option string)) :
  forall m,
    (forall a, In a atts -> ~ In k (keysOf a)) ->
    get (fold_left addAttachment atts m) k = get m k.
Proof.
  induction atts as [|a atts IH]; intros m H; cbn [fold_left]; [reflexivity|].
  rewrite IH by (intros x Hx; apply H; now right).
  apply get_addAttachment, H. now left.
Qed.

(** X18.  The map of attachment names answers, under a key, with the name
    of the last attachment that sets that key, whatever attachments come
    before it and after it; an attachment with an id and a name sets its
    id and, for an id that starts with [file-], the id without that
    prefix.  A key that no attachment sets is not in the map.  A
    reference whose file id is a key of the map gets the name found
    there, cleaned of the code units a file name may not hold, whatever
    its own [filename] and [customName] say. *)
Theorem X18_attachment_names_round_trip
    (before after : list (option string * option string))
    (att : option string * option string) (k : string) :
  In k (keysOf att) ->
  (forall a, In a after -> ~ In k (keysOf a)) ->
  let m := buildNameMap (List.app before (att :: after)) in
  get m k = snd att
  /\ has m k = true
  /\ (forall k',
        (forall a, In a (List.app before (att :: after)) -> ~ In k' (keysOf a)) ->
        has m k' = false)
  /\ forall index ref,
       fileId ref = Some k -> k <> EmptyString ->
       resolveBaseName m index ref = replace_class unsafe_char "_" (show (snd att)).
Proof.
  intros K A m.
  assert (T : truthy (snd att) = true).
  { unfold keysOf in K. destruct (truthy (fst att)); [|destruct K].
    destruct (truthy (snd att)); [reflexivity | destruct K]. }
  assert (S : snd att = Some (show (snd att))).
  { destruct (snd att) as [name|]; [reflexivity | discriminate T]. }
  assert (G : get m k = Some (show (snd att))).
  { subst m. unfold buildNameMap. rewrite fold_left_app. cbn [fold_left].
    rewrite (get_fold_addAttachment k after _ A).
    now apply get_addAttachment. }
  split; [now rewrite G, <- S|]. split; [unfold has; now rewrite G|]. split.
  - intros k' N. unfold has, m, buildNameMap.
    now rewrite (get_fold_addAttachment k' _ [] N).
  - intros index ref F Nk. unfold resolveBaseName. cbv zeta. rewrite F.
    rewrite (proj2 (truthy_nonempty k) Nk). cbn [negb andb show].
    unfold has. rewrite G. cbn [show].
    rewrite !(proj2 (truthy_nonempty k) Nk).
    destruct (snd att) as [name|]; [|discriminate T]. cbn [show].
    now rewrite T.
Qed.

Lemma X18_witness :
  get (buildNameMap [(Some "Zq3", Some "first.png"); (Some "file-Zq3", Some "Me & you.png");
                     (Some "file-Other", Some "other.png"); (None, Some "lost.png")])
    "Zq3" = Some "Me & you.png"
  /\ resolveBaseName
       (buildNameMap [(Some "Zq3", Some "first.png"); (Some "file-Zq3", Some "Me & you.png");
                      (Some "file-Other", Some "other.png"); (None, Some "lost.png")])
       0 (set_customName
            {| type := Some "image"; assetPointer := None; fileId := Some "Zq3";
               canvasId := None; customName := None; title := None; filename := None;
               mime_type := None; format := None; renderedUrl := None;
               download_url := None; messageId := None; dalle := None |} (Some "x"))
     = "Me _ you.png".
Proof.
  assert (K : In "Zq3" (keysOf (Some "file-Zq3", Some "Me & you.png")))
    by (right; left; reflexivity).
  assert (A : forall a, In a [(Some "file-Other", Some "other.png"); (None, Some "lost.png")] ->
                        ~ In "Zq3" (keysOf a)).
  { intros a [<- | [<- | []]]; cbn; intros H; repeat destruct H as [H | H];
      try discriminate H; exact H. }
  destruct (X18_attachment_names_round_trip [(Some "Zq3", Some "first.png")]
              [(Some "file-Other", Some "other.png"); (None, Some "lost.png")]
              (Some "file-Zq3", Some "Me & you.png") "Zq3" K A) as [G [_ [_ R]]].
  split; [exact G|]. apply R; [reflexivity | discriminate].
Defined.

End MediaList.

(** ** The references of a conversation *)

Section References.
Import Js Pattern MediaExtractor Shape.

Lemma dalleUrl_spec (s uuid whole : string) (n : nat) :
  dalleUrl s = Some ((uuid, whole), n) ->
  uuid <> EmptyString /\ all_chars hex_or_dash uuid = true
  /\ startsWith whole "http" = true
  /\ includes whole ("/files/" ++ uuid ++ "/raw?") = true.
Proof.
  unfold dalleUrl.
  destruct (scheme s) as [r1|] eqn:E1; [|discriminate].
  destruct (span label_char r1) as [host r2] eqn:E3.
  destruct (strip ".oaiusercontent.com/files/" r2) as [r3|] eqn:E4; [|discriminate].
  destruct (span hex_or_dash r3) as [u r4] eqn:E5.
  destruct (strip "/raw?" r4) as [r5|] eqn:E6; [|discriminate].
  cbv zeta. destruct (span url_char r5) as [tail r6] eqn:E7.
  match goal with |- (if ?c then _ else _) = _ -> _ => destruct c eqn:C end;
    [|discriminate].
  apply strip_spec in E4, E6. apply span_spec in E3 as [E3 _].
  apply span_spec in E5 as [E5 Hu]. apply span_spec in E7 as [E7 _].
  repeat (apply andb_true_iff in C as [C ?]).
  assert (S : exists sch, (sch = "http://" \/ sch = "https://") /\ s = sch ++ r1).
  { destruct (scheme_spec _ _ E1) as [-> | ->];
      [exists "http://" | exists "https://"]; split; auto. }
  destruct S as [sch [Hs ->]].
  subst r1 r2 r3 r4 r5.
  replace (sch ++ host ++ ".oaiusercontent.com/files/" ++ u ++ "/raw?" ++ tail ++ r6)
    with ((sch ++ host ++ ".oaiusercontent.com/files/" ++ u ++ "/raw?" ++ tail) ++ r6)
    by (repeat first [reflexivity | rewrite append_assoc; f_equal]).
  intros M. apply matched_spec in M as [M _]. injection M as -> ->.
  split; [intros ->; discriminate|]. split; [exact Hu|]. split.
  - destruct Hs as [-> | ->]; reflexivity.
  - apply (includes_skip sch), (includes_skip host).
    apply (includes_skip ".oaiusercontent.com" ("/files/" ++ u ++ "/raw?" ++ tail)).
    replace ("/files/" ++ u ++ "/raw?" ++ tail) with (("/files/" ++ u ++ "/raw?") ++ tail)
      by (repeat first [reflexivity | rewrite append_assoc; f_equal]).
    apply includes_prefix.
Qed.

Lemma NoDup_snoc {A : Type} (l : list A) (x : A) :
  NoDup l -> ~ In x l -> NoDup (List.app l [x]).
Proof.
  intros N H. apply NoDup_rev in N. rewrite <- (rev_involutive (List.app l [x])).
  apply NoDup_rev. rewrite rev_app_distr. simpl. constructor; [|exact N].
  now rewrite <- in_rev.
Qed.

Lemma pushScanned_ok (refs : list MediaRef) (m : string * string) :
  (exists s n, dalleUrl s = Some (m, n)) ->
  Forall scannedOk refs -> NoDup (map fileId refs) ->
  Forall scannedOk (pushScanned refs m) /\ NoDup (map fileId (pushScanned refs m)).
Proof.
  intros [s [n H]] F N. destruct m as [id url]. unfold pushScanned. cbn [fst snd].
  destruct (existsb (fun r => equals (fileId r) id) refs) eqn:E; [now split|].
  destruct (dalleUrl_spec _ _ _ _ H) as [H1 [H2 [H3 H4]]].
  split.
  - apply Forall_app. split; [exact F|]. constructor; [|constructor].
    exists id, url. auto.
  - rewrite map_app. apply NoDup_snoc; [exact N|]. cbn [map fileId scanned].
    intros I. apply in_map_iff in I as [r [I1 I2]].
    assert (X : existsb (fun r => equals (fileId r) id) refs = true).
    { apply existsb_exists. exists r. split; [exact I2|]. rewrite I1. cbn [equals].
      apply String.eqb_refl. }
    congruence.
Qed.

Lemma scan_ok (jsonString : string) :
  Forall scannedOk (scan jsonString) /\ NoDup (map fileId (scan jsonString)).
Proof.
  unfold scan.
  assert (G : forall ms refs,
             (forall m, In m ms -> exists s n, dalleUrl s = Some (m, n)) ->
             Forall scannedOk refs -> NoDup (map fileId refs) ->
             Forall scannedOk (fold_left pushScanned ms refs)
             /\ NoDup (map fileId (fold_left pushScanned ms refs))).
  { induction ms as [|m ms IH]; intros refs Hm F N; [now split|].
    cbn [fold_left].
    destruct (pushScanned_ok refs m (Hm m (or_introl eq_refl)) F N) as [F' N'].
    apply IH; auto. intros x Hx. apply Hm. now right. }
  apply G; [|constructor|constructor].
  intros m Hm. exact (matchAll_In _ _ _ _ Hm).
Qed.

Lemma forEachPart_extends (id : option string) (ps : list Part) :
  forall refs refs',
    forEachPart id ps refs = inr refs' ->
    exists ups, refs' = List.app refs ups /\ Forall pointedOk ups.
Proof.
  induction ps as [|part ps IH]; intros refs refs'; cbn [forEachPart].
  - intros [= <-]. exists []. now rewrite app_nil_r.
  - destruct (isImagePointer part); [|apply IH].
    destruct (pointerOf part) as [e | pointer]; [discriminate|].
    destruct (truthy pointer) eqn:T; [|apply IH].
    intros H. destruct (IH _ _ H) as [ups [-> F]].
    eexists. rewrite <- app_assoc. split; [reflexivity|].
    constructor; [|exact F].
    exists (show pointer), id, (part_dalle part). split; [reflexivity|].
    destruct pointer as [p|]; [|discriminate T]. now apply truthy_nonempty.
Qed.

Lemma forEachNode_extends (nodes : list Node) :
  forall refs refs',
    forEachNode nodes refs = inr refs' ->
    exists ups, refs' = List.app refs ups /\ Forall pointedOk ups.
Proof.
  induction nodes as [|node nodes IH]; intros refs refs'; cbn [forEachNode].
  - intros [= <-]. exists []. now rewrite app_nil_r.
  - destruct (message node) as [msg|]; [|apply IH].
    destruct (parts msg) as [ps|]; [|apply IH].
    destruct (forEachPart (msg_id msg) ps refs) as [e | refs1] eqn:E; [discriminate|].
    intros H. destruct (forEachPart_extends _ _ _ _ E) as [u1 [-> F1]].
    destruct (IH _ _ H) as [u2 [-> F2]].
    exists (List.app u1 u2). rewrite app_assoc. split; [reflexivity|].
    apply Forall_app. now split.
Qed.

(** X19.  The references that [extractMediaReferences] reads off the text
    of the conversation come first, one for each generated image: their
    file ids are pairwise distinct, each id is a non-empty run of
    hexadecimal digits and hyphens, and each rendered URL starts with
    [http] and holds the id between [/files/] and [/raw?].  The
    references made for image parts of messages follow, each with an
    asset pointer and no rendered URL.  Without a [mapping] nothing is
    scanned and the list is empty. *)
Theorem X19_scanned_references_are_distinct (data : ConversationData) :
  NoDup (map fileId (scan (json data)))
  /\ Forall scannedOk (scan (json data))
  /\ (mapping data = None -> extractMediaReferences (Some data) = inr [])
  /\ forall refs,
       mapping data <> None ->
       extractMediaReferences (Some data) = inr refs ->
       exists uploads,
         refs = List.app (scan (json data)) uploads /\ Forall pointedOk uploads.
Proof.
  destruct (scan_ok (json data)) as [F N].
  split; [exact N|]. split; [exact F|]. split.
  - intros M. unfold extractMediaReferences. now rewrite M.
  - intros refs M. unfold extractMediaReferences.
    destruct (mapping data) as [nodes|]; [|congruence].
    apply forEachNode_extends.
Qed.

Lemma X19_witness :
  exists uploads,
    [scanned "00000000-aaaa-bbbb-cccc-000000000001" Sample.signedUrl;
     pointed "file-service://file-Zq3" (Some "m1") None]
    = List.app (scan (json Sample.pictureData)) uploads
    /\ Forall pointedOk uploads.
Proof.
  apply (proj2 (proj2 (proj2 (X19_scanned_references_are_distinct Sample.pictureData)))).
  - discriminate.
  - reflexivity.
Defined.

End References.

Section GeneratedImages.
Import Js Pattern MediaExtractor ChatGPTHandler Observe Shape.

Lemma hex_or_dash_not_i (c : ascii) :
  hex_or_dash c = true -> Ascii.eqb "i"%char c = false.
Proof.
  destruct c as [[] [] [] [] [] [] [] []]; vm_compute; intros E;
    (reflexivity || discriminate E).
Qed.

Lemma hex_or_dash_name_char (c : ascii) :
  hex_or_dash c = true -> negb (unsafe_char c) = true /\ negb (Ascii.eqb c "."%char) = true.
Proof.
  destruct c as [[] [] [] [] [] [] [] []]; vm_compute; intros E;
    (split; reflexivity) || discriminate E.
Qed.

Lemma uuid_not_file (id tail : string) :
  all_chars hex_or_dash id = true ->
  startsWith id (String "f" (String "i" tail)) = false.
Proof.
  intros H. destruct id as [|c1 [|c2 r]]; cbn [startsWith]; try reflexivity.
  - apply andb_false_r.
  - cbn [all_chars] in H. apply andb_true_iff in H as [_ H].
    apply andb_true_iff in H as [H _].
    rewrite (hex_or_dash_not_i _ H). cbn [andb]. apply andb_false_r.
Qed.

Lemma http_truthy (x : string) : startsWith x "http" = true -> truthy (Some x) = true.
Proof. intros H. apply truthy_nonempty. intros ->. discriminate H. Qed.

Lemma http_not_sediment (x : string) :
  startsWith x "http" = true -> startsWith x "sediment://" = false.
Proof.
  intros H. apply startsWith_split in H. rewrite H. reflexivity.
Qed.

Lemma findRenderedImage_scanned (allImages : list string) (id url : string) :
  Forall (fun src => startsWith src "http" = true) allImages ->
  startsWith url "http" = true ->
  exists u,
    findRenderedImage allImages (scanned id url) = set_renderedUrl (scanned id url) (Some u)
    /\ startsWith u "http" = true.
Proof.
  intros F H. unfold findRenderedImage.
  cbn [type scanned equals String.eqb Ascii.eqb Bool.eqb negb].
  match goal with |- context [find ?f ?l] => destruct (find f l) as [src|] eqn:E end.
  - exists src. split; [reflexivity|]. apply find_some in E as [E _].
    rewrite Forall_forall in F. now apply F.
  - now exists url.
Qed.

Lemma resolveUrl_rendered (r : MediaRef) (u : string) :
  equals (type r) "audio" = false ->
  renderedUrl r = Some u -> startsWith u "http" = true ->
  exists x, resolveUrl r = Some x.
Proof.
  intros A R H. unfold resolveUrl. rewrite A, R. cbv zeta.
  assert (O : or_else (Some u) (or_else (download_url r) (assetPointer r)) = Some u)
    by (unfold or_else at 1; now rewrite (http_truthy u H)).
  rewrite O, (http_truthy u H). cbn [andb show].
  destruct (includes u "file-service://").
  - eexists. reflexivity.
  - pose proof (http_not_sediment u H) as S. pose proof (http_truthy u H) as T.
    cbn [show]. rewrite T, S. cbn [andb negb orb show]. rewrite T, H.
    eexists. reflexivity.
Qed.

Lemma generated_baseName (m : NameMap) (index : nat) (id url u : string) :
  id <> EmptyString -> all_chars hex_or_dash id = true ->
  has m id = false ->
  resolveBaseName m index (set_renderedUrl (scanned id url) (Some u))
  = "dalle_" ++ id ++ ".jpg".
Proof.
  intros Hi Hh Hm. unfold resolveBaseName. cbv zeta.
  cbn [fileId assetPointer filename customName mime_type set_renderedUrl scanned].
  rewrite (proj2 (truthy_nonempty id) Hi). cbn [negb andb show].
  rewrite Hm, !(uuid_not_file id) by exact Hh. cbn [andb].
  rewrite (proj2 (truthy_nonempty id) Hi).
  change (negb (truthy (Some EmptyString))) with true. cbv iota.
  assert (O : or_else None (or_else (Some ("dalle_" ++ id))
                              (Some ("file_" ++ decimal index)))
              = Some ("dalle_" ++ id)) by reflexivity.
  rewrite O. cbn [show].
  assert (X : extension (set_renderedUrl (scanned id url) (Some u)) = "jpg")
    by reflexivity.
  rewrite X.
  assert (K : all_chars (fun c => negb (unsafe_char c)) id = true).
  { revert Hh. apply all_chars_impl. intros c E. apply hex_or_dash_name_char, E. }
  assert (D : includes ("dalle_" ++ id) "." = false).
  { apply (includes_free "."%char).
    rewrite all_chars_app. apply andb_true_iff. split; [reflexivity|]. revert Hh.
    apply all_chars_impl. intros c E. apply hex_or_dash_name_char, E. }
  rewrite D.
  rewrite replace_class_id.
  - rewrite append_assoc. reflexivity.
  - rewrite !all_chars_app. now rewrite K.
Qed.

Lemma dedupe_unused (fuel : nat) (used : list string) (b : string) (c : nat) :
  ~ In b used -> dedupe fuel used b c b = Some b.
Proof.
  intros H. assert (E : arr_includes used b = false).
  { unfold arr_includes. destruct (existsb (String.eqb b) used) eqn:X; [|reflexivity].
    apply existsb_exists in X as [x [I X]]. apply String.eqb_eq in X. now subst x. }
  destruct fuel; cbn [dedupe]; now rewrite E.
Qed.

Lemma forEachRef_total (fuel : nat) (m : NameMap) (refs : list MediaRef) :
  forall index media used,
    List.length used + List.length refs < fuel ->
    exists more used',
      forEachRef fuel m index refs media used = Some (List.app media more, used').
Proof.
  induction refs as [|ref refs IH]; intros index media used L.
  - exists [], used. now rewrite app_nil_r.
  - cbn [forEachRef]. cbn [List.length] in L.
    destruct (resolveUrl ref) as [url|].
    + destruct (dedupe_total fuel used (resolveBaseName m index ref) 1
                  (resolveBaseName m index ref)) as [name D]; [lia|].
      rewrite D.
      destruct (IH (S index)
                  (List.app media [{| media_url := url; media_filename := name;
                                      originalRef := ref |}])
                  (List.app used [name])) as [more [used' E]].
      * rewrite length_app. cbn [List.length]. lia.
      * rewrite E, <- app_assoc. eauto.
    + destruct (IH (S index) media used) as [more [used' E]]; [lia|]. eauto.
Qed.

Lemma generatedName_inj (r r' : MediaRef) :
  scannedOk r -> scannedOk r' -> generatedName r = generatedName r' -> fileId r = fileId r'.
Proof.
  intros [id [url [-> _]]] [id' [url' [-> _]]]. unfold generatedName.
  cbn [fileId scanned show]. intros E.
  assert (L : String.length id = String.length id').
  { apply (f_equal String.length) in E. cbn [append String.length] in E.
    rewrite !length_append in E. cbn [String.length] in E. lia. }
  cbn [append] in E. injection E as E.
  apply (f_equal (fun s => take (String.length id) s)) in E.
  rewrite take_app_length in E. rewrite L, take_app_length in E. now subst.
Qed.

Lemma forEachRef_generated (fuel : nat) (m : NameMap) (allImages : list string)
    (rest : list MediaRef) :
  Forall (fun src => startsWith src "http" = true) allImages ->
  forall rs index media used,
    Forall scannedOk rs -> NoDup (map fileId rs) ->
    (forall r, In r rs -> has m (show (fileId r)) = false) ->
    (forall r, In r rs -> ~ In (generatedName r) used) ->
    List.length used + List.length rs + List.length rest < fuel ->
    exists entries more used',
      forEachRef fuel m index (List.app (map (findRenderedImage allImages) rs) rest)
        media used
      = Some (List.app media (List.app entries more), used')
      /\ map media_filename entries = map generatedName rs
      /\ map originalRef entries = map (findRenderedImage allImages) rs.
Proof.
  intros HI. induction rs as [|r rs IH]; intros index media used F N Hm Hu L.
  - cbn [map List.app]. destruct (forEachRef_total fuel m rest index media used)
      as [more [used' E]]; [cbn [List.length] in L; lia|].
    exists [], more, used'. now rewrite E.
  - cbn [map List.app forEachRef]. cbn [List.length] in L.
    inversion F as [|? ? Fr Frs]; subst. inversion N as [|? ? Nr Nrs]; subst.
    destruct Fr as [id [url [-> [I1 [I2 [I3 I4]]]]]].
    destruct (findRenderedImage_scanned allImages id url HI I3) as [u [Eu Hu']].
    rewrite Eu.
    destruct (resolveUrl_rendered (set_renderedUrl (scanned id url) (Some u)) u
                eq_refl eq_refl Hu') as [x Ex].
    rewrite Ex. cbv zeta.
    rewrite (generated_baseName m index id url u I1 I2
               (Hm (scanned id url) (or_introl eq_refl))).
    assert (Fresh : ~ In ("dalle_" ++ id ++ ".jpg") used)
      by exact (Hu (scanned id url) (or_introl eq_refl)).
    rewrite (dedupe_unused fuel used _ 1 Fresh).
    destruct (IH (S index)
                (List.app media
                   [{| media_url := x; media_filename := "dalle_" ++ id ++ ".jpg";
                       originalRef := set_renderedUrl (scanned id url) (Some u) |}])
                (List.app used ["dalle_" ++ id ++ ".jpg"]) Frs Nrs)
      as [entries [more [used' [E [E1 E2]]]]].
    + intros r' I. apply Hm. now right.
    + intros r' I J. apply in_app_or in J as [J | [J | []]].
      * apply (Hu r' (or_intror I) J).
      * apply Nr. cbn [fileId scanned] in *.
        rewrite Forall_forall in Frs.
        assert (Q : fileId (scanned id url) = fileId r').
        { apply generatedName_inj; [exists id, url; auto | now apply Frs | exact J]. }
        cbn [fileId scanned] in Q. rewrite Q. now apply in_map.
    + rewrite length_app. cbn [List.length]. lia.
    + eexists (_ :: entries), more, used'. rewrite E, <- app_assoc.
      split; [reflexivity|]. cbn [map media_filename originalRef].
      now rewrite E1, E2.
Qed.

(** X20. [ChatGPTHandler.extract] lists every generated image whose signed
    URL occurs in the conversation JSON, before all other media and in
    the order of first occurrence, under the name [dalle_<id>.jpg], with
    the reference that [findRenderedImages] made of it; this holds when
    the message walk does not throw, the page's image sources are http
    URLs, no attachment bears the id of a generated image, and the fuel
    exceeds the number of references. *)
Theorem X20_generated_images_are_listed_first_as_jpg (fuel : nat)
    (allImages : list string) (data : ConversationData) (refs : list MediaRef) :
  extractMediaReferences (Some data) = inr refs ->
  mapping data <> None ->
  Forall (fun src => startsWith src "http" = true) allImages ->
  (forall r, In r (scan (json data)) ->
             has (buildNameMap (allAttachments data)) (show (fileId r)) = false) ->
  List.length refs < fuel ->
  exists entries more,
    extract fuel allImages data
    = Host.Ret {| export_title := show (or_else (data_title data) (Some "ChatGPT Export"));
                  export_media := List.app entries more |}
    /\ map media_filename entries = map generatedName (scan (json data))
    /\ map originalRef entries = map (findRenderedImage allImages) (scan (json data)).
Proof.
  intros E M HI Hm L. unfold extract. cbv zeta. rewrite E.
  unfold extractMediaReferences in E. destruct (mapping data) as [nodes|]; [|congruence].
  destruct (forEachNode_extends _ _ _ E) as [ups [-> _]].
  destruct (scan_ok (json data)) as [F N].
  unfold findRenderedImages, extractMedia. rewrite map_app.
  rewrite length_app in L.
  destruct (forEachRef_generated fuel (buildNameMap (allAttachments data)) allImages
              (map (findRenderedImage allImages) ups) HI (scan (json data)) 0 [] []
              F N Hm (fun _ _ J => J))
    as [entries [more [used' [R [E1 E2]]]]].
  - rewrite length_map. cbn [List.length]. lia.
  - rewrite R. cbn [List.app]. exists entries, more. auto.
Qed.

Lemma X20_witness :
  exists entries more,
    extract 3 [] Sample.pictureData
    = Host.Ret {| export_title := "Pictures"; export_media := List.app entries more |}
    /\ map media_filename entries = ["dalle_00000000-aaaa-bbbb-cccc-000000000001.jpg"]
    /\ map originalRef entries
       = [scanned "00000000-aaaa-bbbb-cccc-000000000001" Sample.signedUrl].
Proof.
  apply (X20_generated_images_are_listed_first_as_jpg 3 [] Sample.pictureData
           [scanned "00000000-aaaa-bbbb-cccc-000000000001" Sample.signedUrl;
            pointed "file-service://file-Zq3" (Some "m1") None]).
  - reflexivity.
  - discriminate.
  - constructor.
  - intros r [<- | []]. reflexivity.
  - simpl. lia.
Defined.

End GeneratedImages.

(** ** The conversation page: its id and its folder *)

Section ConversationIds.
Import Js Pattern ConversationManager.

Lemma search_spec (m : string -> option string) (s g : string) :
  search m s = Some g -> exists pre rest, s = pre ++ rest /\ m rest = Some g.
Proof.
  induction s as [|c s IH]; cbn [search].
  - destruct (m EmptyString) eqn:E; [|discriminate].
    intros [= <-]. now exists EmptyString, EmptyString.
  - destruct (m (String c s)) eqn:E.
    + intros [= <-]. now exists EmptyString, (String c s).
    + intros H. destruct (IH H) as [pre [rest [-> M]]].
      now exists (String c pre), rest.
Qed.

Lemma search_none (m : string -> option string) (pre rest : string) :
  search m (pre ++ rest) = None -> m rest = None.
Proof.
  induction pre as [|c pre IH]; cbn [append].
  - destruct rest; cbn [search]; destruct (m _); congruence.
  - cbn [search]. destruct (m (String c (pre ++ rest))); [discriminate | exact IH].
Qed.

Lemma marker_spec (s r : string) :
  marker s = Some r -> s = "/c/" ++ r \/ s = "/chat/" ++ r.
Proof.
  unfold marker. destruct (strip "/c/" s) as [r'|] eqn:E.
  - intros [= <-]. left. now apply strip_spec.
  - intros H. right. now apply strip_spec.
Qed.

Lemma span_length_take (p : ascii -> bool) (n : nat) : forall s,
  n <= String.length (fst (span p s)) ->
  String.length (take n s) = n /\ all_chars p (take n s) = true.
Proof.
  induction n as [|n IH]; intros s L.
  - destruct s; split; reflexivity.
  - destruct s as [|c s]; cbn [span fst String.length] in L; [lia|].
    destruct (p c) eqn:E; [|cbn [fst String.length] in L; lia].
    destruct (span p s) as [a b] eqn:S. cbn [fst String.length] in L.
    destruct (IH s) as [L1 L2]; [rewrite S; cbn [fst]; lia|].
    cbn [take String.length all_chars]. rewrite L1, E, L2. split; reflexivity.
Qed.

Lemma found_in_path (pre r g : string) :
  (exists tail, r = g ++ tail) ->
  forall s, s = "/c/" ++ r \/ s = "/chat/" ++ r ->
  (includes (pre ++ s) ("/c/" ++ g) = true \/ includes (pre ++ s) ("/chat/" ++ g) = true)
  /\ includes (pre ++ s) "/c/" || includes (pre ++ s) "/chat/" = true.
Proof.
  intros [tail ->] s [-> | ->].
  - split.
    + left. apply includes_skip.
      change ("/c/" ++ g ++ tail) with (("/c/" ++ g) ++ tail). apply includes_prefix.
    + rewrite (includes_mid pre "/c/" (g ++ tail)). reflexivity.
  - split.
    + right. apply includes_skip.
      change ("/chat/" ++ g ++ tail) with (("/chat/" ++ g) ++ tail). apply includes_prefix.
    + rewrite (includes_mid pre "/chat/" (g ++ tail)). apply orb_true_r.
Qed.

Lemma span_rest (p : ascii -> bool) (s a b : string) :
  span p s = (a, b) ->
  match b with
  | EmptyString => True
  | String c _ => p c = false
  end.
Proof.
  revert a b. induction s as [|c s IH]; intros a b; cbn [span].
  - intros [= <- <-]. exact I.
  - destruct (p c) eqn:E.
    + destruct (span p s) as [a' b'] eqn:S. intros [= <- <-]. now apply (IH a').
    + intros [= <- <-]. exact E.
Qed.

(** X21. The conversation id that [getConversationId] reads from the path
    is never empty and never longer than 36 code units, is made of
    letters, digits, underscores and hyphens, and stands in the path
    right after [/c/] or [/chat/]; it has 36 code units or ends where
    the run of such code units ends, so that a longer run is cut to its
    first 36.  A path that has an id passes the path test of
    [isValidChatGPTPage] on every configured domain. *)
Theorem X21_conversation_id_is_a_bounded_path_segment (pathname g : string) :
  getConversationId pathname = Some g ->
  1 <= String.length g <= 36
  /\ all_chars word_or_dash g = true
  /\ (includes pathname ("/c/" ++ g) = true \/ includes pathname ("/chat/" ++ g) = true)
  /\ (forall hostname,
        In hostname ExportConfig.domains -> isValidChatGPTPage hostname pathname = true)
  /\ exists pre mark tail,
       pathname = pre ++ mark ++ g ++ tail
       /\ (mark = "/c/" \/ mark = "/chat/")
       /\ (String.length g = 36
           \/ match tail with
              | EmptyString => True
              | String c _ => word_or_dash c = false
              end).
Proof.
  unfold getConversationId. intros H.
  assert (K : 1 <= String.length g <= 36 /\ all_chars word_or_dash g = true
              /\ exists pre s r, pathname = pre ++ s
                   /\ (s = "/c/" ++ r \/ s = "/chat/" ++ r)
                   /\ exists tail,
                        r = g ++ tail
                        /\ (String.length g = 36
                            \/ match tail with
                               | EmptyString => True
                               | String c _ => word_or_dash c = false
                               end)).
  { destruct (search id36 pathname) as [g'|] eqn:E1.
    - injection H as ->. apply search_spec in E1 as [pre [rest [-> M]]].
      unfold id36 in M. destruct (marker rest) as [r|] eqn:Mk; [|discriminate].
      cbv zeta in M.
      destruct (Nat.eqb (String.length (take 36 r)) 36 && all_chars word_or_dash (take 36 r))
        eqn:C; [|discriminate].
      assert (Eg : take 36 r = g) by congruence. clear M. rewrite <- Eg.
      apply andb_true_iff in C as [C1 C2]. apply Nat.eqb_eq in C1.
      split; [lia|]. split; [exact C2|].
      exists pre, rest, r. split; [reflexivity|]. split; [now apply marker_spec|].
      exists (drop 36 r). split; [symmetry; apply take_drop | now left].
    - apply search_spec in H as [pre [rest [-> M]]].
      apply search_none in E1. unfold idAny in M. unfold id36 in E1.
      destruct (marker rest) as [r|] eqn:Mk; [|discriminate].
      cbv zeta in M, E1. destruct (span word_or_dash r) as [a b] eqn:S.
      cbn [fst] in M.
      destruct (negb (String.eqb a EmptyString)) eqn:N; [|discriminate].
      assert (Eg : a = g) by congruence. clear M. subst g.
      pose proof (span_rest _ _ _ _ S) as R.
      destruct (span_spec _ _ _ _ S) as [-> A].
      split; [split|].
      + destruct a; [discriminate N | cbn [String.length]; lia].
      + destruct (le_lt_dec 36 (String.length a)) as [L|L]; [|lia]. exfalso.
        destruct (span_length_take word_or_dash 36 (a ++ b)) as [L1 L2];
          [rewrite S; exact L|].
        rewrite L1, L2 in E1. discriminate E1.
      + split; [exact A|]. exists pre, rest, (a ++ b).
        split; [reflexivity|]. split; [now apply marker_spec|]. exists b.
        split; [reflexivity | now right]. }
  destruct K as [K1 [K2 [pre [s [r [-> [Hs [tail [Ht Hc]]]]]]]]].
  destruct (found_in_path pre r g (ex_intro _ tail Ht) s Hs) as [F1 F2].
  split; [exact K1|]. split; [exact K2|]. split; [exact F1|]. split.
  - intros hostname I. unfold isValidChatGPTPage.
    assert (D : arr_includes ExportConfig.domains hostname = true).
    { unfold arr_includes. apply existsb_exists. exists hostname.
      split; [exact I | apply String.eqb_refl]. }
    rewrite D. exact F2.
  - subst r. destruct Hs as [-> | ->].
    + exists pre, "/c/", tail. auto.
    + exists pre, "/chat/", tail. auto.
Qed.

Lemma X21_witness :
  1 <= String.length "6543abcd-0000-4111-8222-0123456789ab" <= 36
  /\ all_chars word_or_dash "6543abcd-0000-4111-8222-0123456789ab" = true
  /\ (includes "/g/g-p-1/c/6543abcd-0000-4111-8222-0123456789abcdef"
        ("/c/" ++ "6543abcd-0000-4111-8222-0123456789ab") = true
      \/ includes "/g/g-p-1/c/6543abcd-0000-4111-8222-0123456789abcdef"
           ("/chat/" ++ "6543abcd-0000-4111-8222-0123456789ab") = true)
  /\ (forall hostname,
        In hostname ExportConfig.domains ->
        isValidChatGPTPage hostname "/g/g-p-1/c/6543abcd-0000-4111-8222-0123456789abcdef"
        = true)
  /\ exists pre mark tail,
       "/g/g-p-1/c/6543abcd-0000-4111-8222-0123456789abcdef"
       = pre ++ mark ++ "6543abcd-0000-4111-8222-0123456789ab" ++ tail
       /\ (mark = "/c/" \/ mark = "/chat/")
       /\ (String.length "6543abcd-0000-4111-8222-0123456789ab" = 36
           \/ match tail with
              | EmptyString => True
              | String c _ => word_or_dash c = false
              end).
Proof.
  apply (X21_conversation_id_is_a_bounded_path_segment
           "/g/g-p-1/c/6543abcd-0000-4111-8222-0123456789abcdef"
           "6543abcd-0000-4111-8222-0123456789ab").
  reflexivity.
Defined.

End ConversationIds.

Section FolderNames.
Import Js Pattern ConversationManager.

Lemma replace_class_length (cls : ascii -> bool) (c : ascii) (s : string) :
  String.length (replace_class cls (String c EmptyString) s) = String.length s.
Proof.
  induction s as [|d s IH]; cbn [replace_class]; [reflexivity|].
  destruct (cls d); cbn [append String.length]; now rewrite IH.
Qed.

Lemma squeeze_clean (p : ascii -> bool) (s : string) :
  all_chars p s = true -> all_chars p (squeeze s) = true.
Proof.
  induction s as [|c s IH]; cbn [squeeze all_chars]; [reflexivity|].
  intros E. apply andb_true_iff in E as [E1 E2].
  destruct (is_char "_" c && startsWith s "_"); [now apply IH|].
  cbn [all_chars]. now rewrite E1, IH.
Qed.

Lemma take_app_le (n : nat) (a b : string) :
  n <= String.length a -> take n (a ++ b) = take n a.
Proof.
  revert a. induction n as [|n IH]; intros [|c a] L; cbn [String.length] in L;
    try lia.
  - now destruct b.
  - reflexivity.
  - cbn [append take]. now rewrite IH by lia.
Qed.

Lemma safe_is_word (c : ascii) : FileUtils.unsafe_char c = false -> word_or_dash c = true.
Proof. unfold FileUtils.unsafe_char, word_or_dash. now intros E%negb_false_iff. Qed.

(** X22. The folder name that [createConversationFolderName] makes is
    never empty, has at most 128 code units, and holds only letters,
    digits, underscores and hyphens, whatever the title, the id and the
    dates are. When the cleaned title alone has 128 code units or more,
    the name is its first 128 code units: the date and the id do not
    appear in it. *)
Theorem X22_folder_name_is_safe_and_bounded (today : Calendar) (data : option Data) :
  1 <= String.length (createConversationFolderName today data) <= 128
  /\ all_chars word_or_dash (createConversationFolderName today data) = true
  /\ forall d,
       data = Some d ->
       let safeTitle :=
         squeeze (replace_class FileUtils.unsafe_char "_"
                    (if truthy (title d) then show (title d)
                     else "Untitled Conversation")) in
       128 <= String.length safeTitle ->
       createConversationFolderName today data = take 128 safeTitle.
Proof.
  destruct data as [d|].
  2:{ split; [cbn; lia|]. split; [reflexivity|]. intros d E. discriminate E. }
  unfold createConversationFolderName. cbv zeta.
  set (t := if truthy (title d) then show (title d) else "Untitled Conversation").
  set (i := if truthy (id d) then show (id d)
            else if truthy (conversation_id d) then show (conversation_id d)
            else EmptyString).
  set (date := dateStr _).
  set (safeTitle := squeeze (replace_class FileUtils.unsafe_char "_" t)).
  assert (C : all_chars word_or_dash safeTitle = true).
  { apply squeeze_clean, replace_class_clean; [apply safe_is_word | reflexivity]. }
  split; [|split].
  - rewrite length_take, replace_class_length, length_append.
    cbn [append String.length]. lia.
  - apply all_chars_take, replace_class_clean; [apply safe_is_word | reflexivity].
  - intros d' [= <-] L. rewrite replace_class_app.
    rewrite (replace_class_id FileUtils.unsafe_char "_" safeTitle).
    + now apply take_app_le.
    + revert C. apply all_chars_impl. intros c E.
      unfold FileUtils.unsafe_char. unfold word_or_dash in E. now rewrite E.
Qed.

End FolderNames.

(** ** The session key and the token cache *)

Section SessionKeys.
Import AuthManager.

Lemma charset_alnum :
  Forall (fun u => exists c, Js.is_alnum c = true /\ u = N_of_ascii c) charset.
Proof.
  unfold charset. apply Forall_forall. intros u I.
  apply in_map_iff in I as [c [<- I]]. exists c. split; [|reflexivity].
  revert c I. apply forallb_forall. reflexivity.
Qed.

Lemma charset_pick (x : N) : In (nth (N.to_nat x mod List.length charset) charset 0%N) charset.
Proof.
  apply nth_In. apply Nat.mod_upper_bound. discriminate.
Qed.

(** X23. Whatever bytes the random source gives, the key that
    [generateRandomKey] makes of them has one code unit for each byte,
    and every unit is the code of a letter or a digit; so the key of a
    non-empty array is a non-empty string, [initialize] leaves a session
    with a non-empty key, and a second [initialize] keeps that key. *)
Theorem X23_generated_key_is_alphanumeric (array : list N) :
  List.length (generateRandomKey array) = List.length array
  /\ Forall (fun u => exists c, Js.is_alnum c = true /\ u = N_of_ascii c)
       (generateRandomKey array)
  /\ wf (generateRandomKey array)
  /\ forall key array',
       array <> [] ->
       truthy (initialize array key) = true
       /\ initialize array' (initialize array key) = initialize array key.
Proof.
  assert (A : Forall (fun u => exists c, Js.is_alnum c = true /\ u = N_of_ascii c)
                (generateRandomKey array)).
  { unfold generateRandomKey. apply Forall_forall. intros u I.
    apply in_map_iff in I as [x [<- _]].
    pose proof charset_alnum as C. rewrite Forall_forall in C.
    apply C, charset_pick. }
  split; [apply length_map|]. split; [exact A|]. split.
  - revert A. apply Forall_impl. intros u [c [_ ->]].
    pose proof (N_ascii_bounded c). lia.
  - intros key array' Ne.
    assert (T : truthy (initialize array key) = true).
    { unfold initialize. destruct (truthy key) eqn:K; [exact K|].
      destruct array; [congruence | reflexivity]. }
    split; [exact T|]. unfold initialize at 1. now rewrite T.
Qed.

End SessionKeys.

Section CacheInvalidation.
Import AuthManager.

Lemma fetchToken_fst (w : World) (now : N) (c c' : SessionCache) :
  fst (fetchToken w now c) = fst (fetchToken w now c').
Proof.
  unfold fetchToken.
  destruct (if chrome_runtime w then background w else BgNone) as [|[] [[|u t]|]];
    try reflexivity;
    destruct (session w) as [msg | st [[|u' t']|]]; try reflexivity;
    destruct (negb (MediaFetcher.ok st)); reflexivity.
Qed.

Lemma fetchToken_cases (w : World) (now : N) (c : SessionCache) :
  (exists msg, fetchToken w now c = (inl msg, c))
  \/ (exists tok, tok <> [] /\ fetchToken w now c = (inr tok, store c now tok)).
Proof.
  unfold fetchToken.
  destruct (if chrome_runtime w then background w else BgNone) as [|[] [[|u t]|]];
    try (right; eexists; split; [|reflexivity]; discriminate);
    destruct (session w) as [msg | st [[|u' t']|]]; eauto;
    destruct (negb (MediaFetcher.ok st)); eauto;
    right; eexists; (split; [|reflexivity]); discriminate.
Qed.

(** X24. [getAccessToken] never changes the session key and never
    returns an empty token; when it throws, the cache is left as it was;
    and a cache whose expiry time has been reached is not read: the call
    gives what it gives after [clearCachedToken]. *)
Theorem X24_expired_cache_is_not_read (w : World) (now : N) (c : SessionCache) :
  tokenEncryptionKey (snd (getAccessToken w now c)) = tokenEncryptionKey c
  /\ (forall tok, fst (getAccessToken w now c) = inr tok -> tok <> [])
  /\ (forall msg, fst (getAccessToken w now c) = inl msg ->
                  snd (getAccessToken w now c) = c)
  /\ (forall e, expiry c = Some e -> (e <= now)%N ->
                fst (getAccessToken w now c)
                = fst (getAccessToken w now (clearCachedToken c))).
Proof.
  assert (P4 : forall e, expiry c = Some e -> (e <= now)%N ->
                fst (getAccessToken w now c)
                = fst (getAccessToken w now (clearCachedToken c))).
  { intros e E L.
    assert (V : cacheValid now c = false).
    { unfold cacheValid. rewrite E. destruct (N.ltb_spec now e); [lia|].
      now rewrite andb_false_r, andb_false_r. }
    unfold getAccessToken. rewrite V.
    change (cacheValid now (clearCachedToken c)) with false. cbv iota.
    apply fetchToken_fst. }
  unfold getAccessToken in *.
  destruct (cacheValid now c) eqn:V.
  - cbn [fst snd]. split; [reflexivity|]. split; [|split].
    + intros tok [= <-]. unfold cacheValid in V. apply andb_true_iff in V as [V _].
      unfold decryptToken. destruct (token c) as [[|u t]|]; try discriminate V.
      discriminate.
    + intros msg E. discriminate E.
    + exact P4.
  - destruct (fetchToken_cases w now c) as [[msg F] | [tok [Ne F]]].
    + rewrite F in *. cbn [fst snd]. split; [reflexivity|]. split; [|split].
      * intros tok E. discriminate E.
      * reflexivity.
      * exact P4.
    + rewrite F in *. cbn [fst snd]. split; [reflexivity|]. split; [|split].
      * intros tok' [= <-]. exact Ne.
      * intros msg E. discriminate E.
      * exact P4.
Qed.

End CacheInvalidation.

(** ** The archive of the content script *)

Section ArchiveItems.
Import Js Host Content Shape.
Variable w : Content.World.
Variable authToken : option string.
Variable item : Item.




End ArchiveItems.

Section ArchiveNames.
Import Js Content.

Lemma trimStart_clean (p : ascii -> bool) (s : string) :
  all_chars p s = true -> all_chars p (trimStart s) = true.
Proof.
  induction s as [|c s IH]; cbn [trimStart]; [reflexivity|].
  intros E. destruct (is_space c); [|exact E].
  cbn [all_chars] in E. apply andb_true_iff in E as [_ E]. now apply IH.
Qed.

Lemma trimEnd_clean (p : ascii -> bool) (s : string) :
  all_chars p s = true -> all_chars p (trimEnd s) = true.
Proof.
  induction s as [|c s IH]; cbn [trimEnd all_chars]; [reflexivity|].
  intros E. apply andb_true_iff in E as [E1 E2]. cbv zeta.
  destruct (is_space c && String.eqb (trimEnd s) EmptyString); [reflexivity|].
  cbn [all_chars]. now rewrite E1, IH.
Qed.

Lemma trimStart_empty (s : string) :
  trimStart s = EmptyString <-> all_chars is_space s = true.
Proof.
  induction s as [|c s IH]; cbn [trimStart all_chars]; [tauto|].
  destruct (is_space c); cbn [andb]; [exact IH|]. split; discriminate.
Qed.

Lemma trimStart_head (s : string) :
  match trimStart s with
  | EmptyString => True
  | String c _ => is_space c = false
  end.
Proof.
  induction s as [|c s IH]; cbn [trimStart]; [exact I|].
  destruct (is_space c) eqn:E; [exact IH | exact E].
Qed.

Lemma trimEnd_head (c : ascii) (s : string) :
  is_space c = false -> exists t, trimEnd (String c s) = String c t.
Proof. intros E. cbn [trimEnd]. rewrite E. cbn [andb]. eauto. Qed.

Lemma trim_empty (s : string) : trim s = EmptyString <-> all_chars is_space s = true.
Proof.
  unfold trim. rewrite <- trimStart_empty. pose proof (trimStart_head s) as H.
  destruct (trimStart s) as [|c t]; [tauto|].
  destruct (trimEnd_head c t H) as [t' ->]. split; discriminate.
Qed.

Lemma trim_head (s : string) :
  match trim s with
  | EmptyString => True
  | String c _ => is_space c = false
  end.
Proof.
  unfold trim. pose proof (trimStart_head s) as H.
  destruct (trimStart s) as [|c t]; [exact I|].
  destruct (trimEnd_head c t H) as [t' ->]. exact H.
Qed.

Lemma underscore_keeps_spaces (s : string) :
  all_chars is_space (replace_class unsafe_title_char "_" s) = all_chars is_space s.
Proof.
  induction s as [|c s IH]; cbn [replace_class all_chars]; [reflexivity|].
  destruct (unsafe_title_char c) eqn:U; cbn [append all_chars]; rewrite IH.
  - assert (E : is_space c = false).
    { unfold unsafe_title_char in U. apply negb_true_iff in U.
      destruct (is_space c); [|reflexivity].
      rewrite orb_true_r in U. discriminate U. }
    now rewrite E.
  - reflexivity.
Qed.

(** X26. The folder of the archive has at most 64 code units, all of them
    letters, digits, underscores, hyphens, dots or white space, and it
    does not begin with white space. It is empty, so that the archive is
    saved as [.zip], exactly when the title is a non-empty string of
    white space only. *)
Theorem X26_archive_folder_is_bounded_and_clean (title : option string) :
  String.length (folderName title) <= 64
  /\ all_chars (fun c => negb (unsafe_title_char c)) (folderName title) = true
  /\ match folderName title with
     | EmptyString => True
     | String c _ => is_space c = false
     end
  /\ (folderName title = EmptyString
      <-> exists s, title = Some s /\ s <> EmptyString /\ all_chars is_space s = true).
Proof.
  unfold folderName. cbv zeta. rewrite substring_0.
  set (t := show (or_else title (Some "Untitled Chat"))).
  set (x := trim (replace_class unsafe_title_char "_" t)).
  assert (Tk : forall y, take 64 y = EmptyString <-> y = EmptyString)
    by (intros [|c y]; cbn [take]; split; congruence).
  split; [apply take_length_le|]. split; [|split].
  - apply all_chars_take. unfold x, trim. apply trimEnd_clean, trimStart_clean.
    apply replace_class_clean; [|reflexivity]. intros c E. now rewrite E.
  - pose proof (trim_head (replace_class unsafe_title_char "_" t)) as H. fold x in H.
    destruct x as [|c y]; [exact I | exact H].
  - rewrite Tk. unfold x. rewrite trim_empty, underscore_keeps_spaces. unfold t.
    destruct title as [s|]; unfold or_else.
    + destruct (truthy (Some s)) eqn:T; cbn [show].
      * split.
        -- intros A. exists s. split; [reflexivity|]. split; [|exact A].
           now apply truthy_nonempty.
        -- intros [s' [[= <-] [_ A]]]. exact A.
      * split; [discriminate|]. intros [s' [[= <-] [Ne _]]].
        apply truthy_nonempty in Ne. congruence.
    + cbn [truthy show]. split; [discriminate|]. intros [s' [E _]]. discriminate E.
Qed.

End ArchiveNames.

(** ** The background script *)

Section BackgroundDownload.
Import Js Host Background.
Variable w : Background.World.

Lemma urlsToTry_one (url : string) :
  urlsToTry url = [nth 0 (urlsToTry url) EmptyString]
  /\ (includes url "file-service://" = false -> nth 0 (urlsToTry url) EmptyString = url)
  /\ (includes url "file-service://" = true ->
      startsWith (nth 0 (urlsToTry url) EmptyString)
        "https://chatgpt.com/backend-api/files/" = true).
Proof.
  unfold urlsToTry. destruct (includes url "file-service://"); cbn [nth].
  - split; [reflexivity|]. split; [discriminate|]. intros _.
    apply (startsWith_refl_app "https://chatgpt.com/backend-api/files/").
  - split; [reflexivity|]. split; [reflexivity | discriminate].
Qed.

(** X27. The background [downloadMedia] never throws and makes exactly one
    request, for the given URL or, for a [file-service://] pointer, for
    its backend download URL. The request carries the token only when
    the token is non-empty and not [dummy] and the URL contains neither
    [googleusercontent] nor [oaiusercontent]. After the request there is
    at most one call of [chrome.downloads.download], always under the
    given file name: for the requested URL itself when the answer was not
    [ok] or the request failed, for the object URL of the answer
    otherwise, and none when making the object URL throws; success is
    reported only after such a call. *)
Theorem X27_background_download_makes_one_request
    (url : string) (token : option string) (filename : string) (tr : trace) :
  let u := nth 0 (urlsToTry url) EmptyString in
  exists answer rest,
    downloadMedia w url token filename tr
    = (Ret answer, List.app tr (Fetch u (authorized token u) :: rest))
    /\ (includes url "file-service://" = false -> u = url)
    /\ (includes url "file-service://" = true ->
        startsWith u "https://chatgpt.com/backend-api/files/" = true)
    /\ (authorized token u = true ->
        truthy token = true /\ token <> Some "dummy"
        /\ includes u "googleusercontent" = false
        /\ includes u "oaiusercontent" = false)
    /\ (rest = [] \/ exists target, rest = [ChromeDownload target filename])
    /\ (answer = Done -> exists target, rest = [ChromeDownload target filename])
    /\ ((forall status header bytes,
           fetch w tr u (authorized token u) = FetchResp status header bytes ->
           MediaFetcher.ok status = false) ->
        rest = [ChromeDownload u filename]).
Proof.
  intros u. destruct (urlsToTry_one url) as [U [U1 U2]]. fold u in U, U1, U2.
  assert (A : authorized token u = true ->
              truthy token = true /\ token <> Some "dummy"
              /\ includes u "googleusercontent" = false
              /\ includes u "oaiusercontent" = false).
  { unfold authorized. intros E.
    apply andb_true_iff in E as [E E4]. apply andb_true_iff in E as [E E3].
    apply andb_true_iff in E as [E1 E2].
    apply negb_true_iff in E2, E3, E4. repeat split; auto.
    intros ->. discriminate E2. }
  unfold downloadMedia. rewrite U. fold u.
  unfold try_catch, bind, firstBlob, downloadFromUnsafeUrl, bind, ask, ret, raise.
  cbv beta iota. cbn [nth].
  destruct (fetch w tr u (authorized token u)) as [msg | status header bytes] eqn:F;
    cbv beta iota;
    [|destruct (MediaFetcher.ok status) eqn:Ok; cbv beta iota;
      [destruct (createObjectURL w _ bytes) as [message | blobUrl]; cbv beta iota|]];
    try match goal with
        | |- context [download w ?t ?x filename] => destruct (download w t x filename)
        end;
    rewrite <- ?app_assoc; cbn [List.app];
    try (exists (Failed message), []);
    try (eexists _, _);
    (split; [reflexivity|]);
    (split; [exact U1|]); (split; [exact U2|]); (split; [exact A|]);
    (split; [first [now left | right; eexists; reflexivity]|]);
    (split; [first [discriminate | intros _; eexists; reflexivity]|]);
    first [ intros _; reflexivity
          | intros H; specialize (H _ _ _ eq_refl); congruence ].
Qed.

End BackgroundDownload.
